(** * Lenovo driver downloader: a shallow embedding of
      [lenovo_driver_downloader.py] and the properties of its transfer
      engine, selection layer, extraction pipeline and catalog resolver.

    Conventions of the embedding.
    - A Python [str] is a Rocq [string]; a non-ASCII character is
      represented by the bytes of its UTF-8 encoding.
    - A [pathlib.Path] is the list of its components ([Path.parts]).
    - The file system, the log of HTTP requests, the log of external
      tool invocations and the log of the buffers written are threaded
      explicitly through every operation (record [World]).  What the
      network, the external tools and the clock answer is supplied by
      an environment (record [Env]) and is unconstrained; what the
      terminal delivers at the prompt is a list of [Keyboard] events.
    - An exception is a [None] or a dedicated constructor of the result
      type; a [try]/[except] is a match on it.
    - The string methods [lower], [upper], [strip] and [int] are
      modelled on the ASCII range; a property that needs them exact is
      stated for ASCII text.
    - Paths follow the POSIX flavour of [pathlib], and the file system
      does not resolve a component [".."]: a property that depends on
      either is stated without such components.
    - The worker pool is a step relation ([pool_step]) whose runs are
      the schedules of the threads; [run_tasks] is the schedule that
      runs the download tasks one after the other, in the order of
      submission.
    - Output on the terminal ([print], progress bars) is left out. *)

From Stdlib Require Import ZArith Ascii String List Lia Sorted.
From stdpp Require Import gmap strings list.

#[local] Set Warnings "-register-all,-abstract-large-number".

Local Open Scope string_scope.
Local Open Scope list_scope.

(* ===================================================================== *)
(** ** Python strings                                                     *)
(* ===================================================================== *)

(** [str.isspace] on the ASCII range: TAB..CR, FS..US and the blank. *)
Definition is_space (c : ascii) : bool :=
  let n := nat_of_ascii c in
  ((9 <=? n)%nat && (n <=? 13)%nat) || ((28 <=? n)%nat && (n <=? 32)%nat).

Fixpoint lstrip (s : string) : string :=
  match s with
  | EmptyString => EmptyString
  | String c s' => if is_space c then lstrip s' else s
  end.

Fixpoint rstrip (s : string) : string :=
  match s with
  | EmptyString => EmptyString
  | String c s' =>
      match rstrip s' with
      | EmptyString => if is_space c then EmptyString else String c EmptyString
      | r => String c r
      end
  end.

(** [s.strip()] *)
Definition strip (s : string) : string := rstrip (lstrip s).

Definition lower_char (c : ascii) : ascii :=
  let n := nat_of_ascii c in
  if (65 <=? n)%nat && (n <=? 90)%nat then ascii_of_nat (n + 32) else c.

(** [s.lower()] (ASCII letters). *)
Fixpoint lower (s : string) : string :=
  match s with
  | EmptyString => EmptyString
  | String c s' => String (lower_char c) (lower s')
  end.

(** [s.split(sep)] for a one-character separator: never the empty list. *)
Fixpoint str_split (sep : ascii) (s : string) : list string :=
  match s with
  | EmptyString => [EmptyString]
  | String c s' =>
      if Ascii.eqb c sep then EmptyString :: str_split sep s'
      else match str_split sep s' with
           | h :: t => String c h :: t
           | [] => [String c EmptyString]
           end
  end.

(** [l[-1]] and [l[0]] on the result of a split. *)
Definition last_item (l : list string) : string := List.last l EmptyString.
Definition first_item (l : list string) : string := List.hd EmptyString l.

(** [s.replace(a, b)] for one-character [a] and [b]. *)
Fixpoint replace_char (a b : ascii) (s : string) : string :=
  match s with
  | EmptyString => EmptyString
  | String c s' => String (if Ascii.eqb c a then b else c) (replace_char a b s')
  end.

(** [s.startswith(p)] *)
Fixpoint startswith (s p : string) : bool :=
  match p, s with
  | EmptyString, _ => true
  | String _ _, EmptyString => false
  | String a p', String c s' => Ascii.eqb a c && startswith s' p'
  end.

(** [sub in s] *)
Fixpoint contains (sub s : string) : bool :=
  startswith s sub ||
  match s with
  | EmptyString => false
  | String _ s' => contains sub s'
  end.

(** [s.endswith(p)] *)
Fixpoint endswith (s p : string) : bool :=
  String.eqb s p ||
  match s with
  | EmptyString => false
  | String _ s' => endswith s' p
  end.

(** *** [int(s)] in base ten: blanks around, an optional sign, ASCII
    digits, single underscores between digits.  [None] is
    [ValueError]. *)
Definition digit_of (c : ascii) : option Z :=
  let n := nat_of_ascii c in
  if (48 <=? n)%nat && (n <=? 57)%nat then Some (Z.of_nat (n - 48)) else None.

Fixpoint parse_digits (acc : Z) (after_digit : bool) (s : string) : option Z :=
  match s with
  | EmptyString => if after_digit then Some acc else None
  | String c s' =>
      match digit_of c with
      | Some d => parse_digits (10 * acc + d) true s'
      | None =>
          if Ascii.eqb c "_" && after_digit then parse_digits acc false s'
          else None
      end
  end.

Definition py_int (s : string) : option Z :=
  match strip s with
  | String "-" r => Z.opp <$> parse_digits 0 false r
  | String "+" r => parse_digits 0 false r
  | r => parse_digits 0 false r
  end.

(** *** [urllib.parse.unquote]: the text is cut at every ['%']; a piece
    that starts with two hexadecimal digits has them replaced by the
    byte they denote, any other piece keeps its ['%'].  Bytes that are
    not valid UTF-8 stay as they are, where Python puts U+FFFD. *)
Definition hex_of (c : ascii) : option nat :=
  let n := nat_of_ascii c in
  if (48 <=? n)%nat && (n <=? 57)%nat then Some (n - 48)%nat
  else if (65 <=? n)%nat && (n <=? 70)%nat then Some (n - 55)%nat
  else if (97 <=? n)%nat && (n <=? 102)%nat then Some (n - 87)%nat
  else None.

Definition unquote_item (item : string) : string :=
  match item with
  | String a (String b rest) =>
      match hex_of a, hex_of b with
      | Some x, Some y => String (ascii_of_nat (16 * x + y)) rest
      | _, _ => String "%" item
      end
  | _ => String "%" item
  end.

Definition unquote (s : string) : string :=
  match str_split "%" s with
  | [] => s
  | first :: items => (first ++ String.concat "" (map unquote_item items))%string
  end.

(* ===================================================================== *)
(** ** [pathlib] paths                                                    *)
(* ===================================================================== *)

(** A path is the list of its components; an absolute path starts with
    the component ["/"].  The empty list is [Path('.')].  Components
    [".."] are kept as they are, as [pathlib] keeps them. *)
Abbreviation Path := (list string) (only parsing).

Definition is_absolute (s : string) : bool :=
  match s with String "/" _ => true | _ => false end.

Definition keep_part (c : string) : bool :=
  negb (String.eqb c "") && negb (String.eqb c ".").

Definition path_parts (s : string) : list string :=
  List.filter keep_part (str_split "/" s).

(** [Path(s)] *)
Definition Path_of (s : string) : Path :=
  if is_absolute s then "/" :: path_parts s else path_parts s.

(** [p / s]: an absolute right operand replaces the left one. *)
Definition joinpath (p : Path) (s : string) : Path :=
  if is_absolute s then Path_of s else p ++ path_parts s.

(** [p.parent] *)
Definition parent (p : Path) : Path :=
  match p with
  | ["/"] => p
  | _ => removelast p
  end.

(** [p.name] *)
Definition path_name (p : Path) : string :=
  match p with
  | ["/"] => ""
  | _ => List.last p ""
  end.

(** The text before and after the last ['.'] of a name ([str.rfind]). *)
Fixpoint rsplit_dot (s : string) : option (string * string) :=
  match s with
  | EmptyString => None
  | String c s' =>
      match rsplit_dot s' with
      | Some (a, b) => Some (String c a, b)
      | None => if Ascii.eqb c "." then Some (EmptyString, s') else None
      end
  end.

(** [p.suffix]: from the last dot of the name on, when that dot is
    neither the first nor the last character of the name. *)
Definition path_suffix (p : Path) : string :=
  match rsplit_dot (path_name p) with
  | Some (a, b) =>
      if negb (String.eqb a "") && negb (String.eqb b "") then String "." b else ""
  | None => ""
  end.

(** [p.stem] *)
Definition path_stem (p : Path) : string :=
  match rsplit_dot (path_name p) with
  | Some (a, b) =>
      if negb (String.eqb a "") && negb (String.eqb b "") then a else path_name p
  | None => path_name p
  end.

(** [str(p)] *)
Definition path_str (p : Path) : string :=
  match p with
  | [] => "."
  | "/" :: rest => String "/" (String.concat "/" rest)
  | _ => String.concat "/" p
  end.

(* ===================================================================== *)
(** ** JSON values, as [response.json()] returns them                    *)
(* ===================================================================== *)

Inductive json : Type :=
  | JNull
  | JBool (b : bool)
  | JNum (n : Z)
  | JStr (s : string)
  | JArr (items : list json)
  | JObj (fields : list (string * json)).

(** Truth value of a Python object in an [if]. *)
Definition truthy (v : json) : bool :=
  match v with
  | JNull => false
  | JBool b => b
  | JNum n => negb (n =? 0)%Z
  | JStr s => negb (String.eqb s "")
  | JArr l => match l with [] => false | _ => true end
  | JObj l => match l with [] => false | _ => true end
  end.

(* ===================================================================== *)
(** ** Data model                                                         *)
(* ===================================================================== *)

(** The dictionaries built by [get_drivers_list], with the fields the
    program calls [str] methods on typed as strings. *)
Record FileEntry := {
  fi_name : json;
  fi_url : string;
  fi_size : json;
  fi_sha256 : option json;
}.

Record DriverRecord := {
  title : string;
  category : string;
  version : json;
  release_date : option json;
  files : list FileEntry;
}.

(** The dictionary that [download_all_drivers] hands to [json.dump]. *)
Record Manifest := {
  m_serial_number : string;
  m_product : json;
  m_drivers : list DriverRecord;
  m_download_date : string;
}.

(* ===================================================================== *)
(** ** File system                                                        *)
(* ===================================================================== *)

Inductive Content :=
  | Bytes (b : list Byte.byte)          (* a file written in binary mode *)
  | Doc (m : Manifest).                 (* the text [json.dump] wrote *)

Inductive Node :=
  | File (c : Content)
  | Dir.

(** The current directory always exists. *)
Definition fs_lookup (fs : gmap Path Node) (p : Path) : option Node :=
  match p with
  | [] => Some Dir
  | _ => fs !! p
  end.

(** [p.exists()] *)
Definition fs_exists (fs : gmap Path Node) (p : Path) : bool :=
  match fs_lookup fs p with Some _ => true | None => false end.

Definition is_dir (fs : gmap Path Node) (p : Path) : bool :=
  match fs_lookup fs p with Some Dir => true | _ => false end.

Definition is_file (fs : gmap Path Node) (p : Path) : bool :=
  match fs_lookup fs p with Some (File _) => true | _ => false end.

(** [open(p, 'wb')] / [open(p, 'w')]: creates or truncates the file;
    fails on a directory and when the parent is not a directory. *)
Definition fs_open (empty : Content) (fs : gmap Path Node) (p : Path)
  : option (gmap Path Node) :=
  match fs_lookup fs p with
  | Some Dir => None
  | _ => if is_dir fs (parent p) then Some (<[p := File empty]> fs) else None
  end.

(** [f.write(b)] on a file opened in binary mode. *)
Definition append_bytes (b : list Byte.byte) (n : Node) : Node :=
  match n with
  | File (Bytes old) => File (Bytes (old ++ b))
  | _ => n
  end.

(** [p.unlink()]: removes a regular file, fails on anything else. *)
Definition fs_unlink (fs : gmap Path Node) (p : Path) : option (gmap Path Node) :=
  match fs !! p with
  | Some (File _) => Some (delete p fs)
  | _ => None
  end.

(** [p.mkdir(exist_ok=True)] *)
Definition fs_mkdir (fs : gmap Path Node) (p : Path) : option (gmap Path Node) :=
  match fs_lookup fs p with
  | Some Dir => Some fs
  | Some (File _) => None
  | None => if is_dir fs (parent p) then Some (<[p := Dir]> fs) else None
  end.

(** The ancestors of [p] from the outermost one down to [p] itself. *)
Fixpoint ancestors_from (pre : Path) (p : Path) : list Path :=
  match p with
  | [] => []
  | c :: p' => (pre ++ [c]) :: ancestors_from (pre ++ [c]) p'
  end.

Fixpoint mkdir_each (ps : list Path) (fs : gmap Path Node) : option (gmap Path Node) :=
  match ps with
  | [] => Some fs
  | p :: ps' =>
      match fs_lookup fs p with
      | Some Dir => mkdir_each ps' fs
      | Some (File _) => None
      | None => mkdir_each ps' (<[p := Dir]> fs)
      end
  end.

(** [p.mkdir(parents=True, exist_ok=True)] *)
Definition fs_mkdir_parents (fs : gmap Path Node) (p : Path) : option (gmap Path Node) :=
  mkdir_each (ancestors_from [] p) fs.

(** [list(d.iterdir())]: the paths that exist directly under [d];
    [None] when [d] is not a directory. *)
Definition is_child (d p : Path) : bool :=
  match p with
  | [] | ["/"] => false
  | _ => bool_decide (removelast p = d)
  end.

Definition iterdir (fs : gmap Path Node) (d : Path) : option (list Path) :=
  if is_dir fs d
  then Some (List.filter (is_child d) (map fst (map_to_list fs)))
  else None.

(* ===================================================================== *)
(** ** The world and its environment                                      *)
(* ===================================================================== *)

(** An HTTP response as [download_file] looks at it. *)
Record Response := {
  status_error : option string;        (* what [raise_for_status] raises, if it does *)
  content_length : option string;      (* the [content-length] header, if present *)
  body : list Byte.byte;
  cut : option (nat * string);         (* the transport fails after that many chunks *)
}.

Inductive GetResult :=
  | GetRaises (msg : string)           (* [session.get] raises *)
  | GetReturns (r : Response).

(** What a [subprocess.run] call does: the tool may change the file
    system whatever way it ends. *)
Inductive ToolResult :=
  | Exited (returncode : Z) (fs' : gmap Path Node)
  | TimedOut (fs' : gmap Path Node)    (* [subprocess.TimeoutExpired] *)
  | Crashed (fs' : gmap Path Node).    (* any other exception *)

(** One event of the terminal at a prompt. *)
Inductive Keyboard :=
  | Line (s : string)
  | Interrupt.                         (* [KeyboardInterrupt] *)

Record Env := {
  http_get : nat -> string -> GetResult;    (* the n-th request, its URL *)
  run_tool : nat -> list string -> gmap Path Node -> ToolResult;
                                            (* the n-th invocation, its argv *)
  which : string -> option string;          (* [shutil.which] *)
  win32 : bool;                             (* [sys.platform == 'win32'] *)
  strftime_now : string;                    (* [time.strftime(...)] *)
}.

Record World := {
  fs : gmap Path Node;
  http_log : list string;              (* URLs requested, oldest first *)
  tool_log : list (list string * option Z);
                                       (* argv and exit status of the tools run,
                                          oldest first; no status: the call raised *)
  write_log : list (Path * nat);       (* size of every buffer given to [f.write] *)
}.

Definition set_fs (w : World) (f : gmap Path Node) : World :=
  {| fs := f; http_log := http_log w; tool_log := tool_log w; write_log := write_log w |}.

(** [session.get(url, stream=True, timeout=60)] *)
Definition session_get (E : Env) (url : string) (w : World) : World * GetResult :=
  ({| fs := fs w; http_log := http_log w ++ [url];
      tool_log := tool_log w; write_log := write_log w |},
   http_get E (length (http_log w)) url).

(** [subprocess.run(argv, ...)] *)
Definition subprocess_run (E : Env) (argv : list string) (w : World)
  : World * ToolResult :=
  let r := run_tool E (length (tool_log w)) argv (fs w) in
  let fs' := match r with Exited _ f | TimedOut f | Crashed f => f end in
  let rc := match r with Exited rc _ => Some rc | TimedOut _ | Crashed _ => None end in
  ({| fs := fs'; http_log := http_log w;
      tool_log := tool_log w ++ [(argv, rc)]; write_log := write_log w |}, r).

(** [f.write(b)] *)
Definition f_write (p : Path) (b : list Byte.byte) (w : World) : World :=
  {| fs := alter (append_bytes b) p (fs w); http_log := http_log w;
     tool_log := tool_log w; write_log := write_log w ++ [(p, length b)] |}.

(** [if p.exists(): p.unlink()]; [None] when [unlink] raises. *)
Definition unlink_if_exists (p : Path) (w : World) : option World :=
  if fs_exists (fs w) p
  then set_fs w <$> fs_unlink (fs w) p
  else Some w.

(* ===================================================================== *)
(** ** Transfer engine                                                    *)
(* ===================================================================== *)

Definition chunk_size : nat := 8192.

(** [response.iter_content(chunk_size=n)]: the body in pieces of [n]
    bytes, the last one possibly shorter.  [room] is what the piece
    under construction [cur] (held in reverse) can still take. *)
Fixpoint chunks_aux (n room : nat) (cur : list Byte.byte) (l : list Byte.byte)
  : list (list Byte.byte) :=
  match l with
  | [] => match cur with [] => [] | _ => [rev cur] end
  | x :: l' =>
      match room with
      | O => rev cur :: chunks_aux n (n - 1) [x] l'
      | S room' => chunks_aux n room' (x :: cur) l'
      end
  end.

Definition iter_content (n : nat) (r : Response) : list (list Byte.byte) * option string :=
  let cs := chunks_aux n n [] (body r) in
  match cut r with
  | None => (cs, None)
  | Some (k, msg) => (take k cs, Some msg)
  end.

(** [response.content]: the whole body at once, or the transport error. *)
Definition response_content (r : Response) : list Byte.byte + string :=
  match cut r with
  | None => inl (body r)
  | Some (_, msg) => inr msg
  end.

(** [int(response.headers.get('content-length', 0))] *)
Definition total_size_of (r : Response) : option Z :=
  match content_length r with
  | None => Some 0%Z
  | Some s => py_int s
  end.

(** [for chunk in ...: if chunk: f.write(chunk)] *)
Fixpoint write_chunks (p : Path) (cs : list (list Byte.byte)) (w : World) : World :=
  match cs with
  | [] => w
  | c :: cs' =>
      write_chunks p cs' (match c with [] => w | _ => f_write p c w end)
  end.

(** [url.split('/')[-1].split('?')[0]], then [unquote]. *)
Definition url_basename (url : string) : string :=
  first_item (str_split "?" (last_item (str_split "/" url))).

Definition filename_of (url : string) : string := unquote (url_basename url).

Definition msg_int : string := "invalid literal for int() with base 10".
Definition msg_open : string := "cannot open file for writing".

(** The body of the [try] of [download_file]: the world when it ends and
    the message of the exception that ended it, if any. *)
Definition download_file_try (E : Env) (url : string) (filepath : Path) (w : World)
  : World * option string :=
  let '(w1, g) := session_get E url w in
  match g with
  | GetRaises msg => (w1, Some msg)
  | GetReturns response =>
      match status_error response with
      | Some msg => (w1, Some msg)
      | None =>
          match total_size_of response with
          | None => (w1, Some msg_int)
          | Some total_size =>
              match fs_open (Bytes []) (fs w1) filepath with
              | None => (w1, Some msg_open)
              | Some fs2 =>
                  let w2 := set_fs w1 fs2 in
                  if negb (total_size =? 0)%Z then
                    let '(cs, err) := iter_content chunk_size response in
                    (write_chunks filepath cs w2, err)
                  else
                    match response_content response with
                    | inl b => (f_write filepath b w2, None)
                    | inr msg => (w2, Some msg)
                    end
              end
          end
      end
  end.

(** The tuple [(success, filename, error)]. *)
Definition Outcome := (bool * string * option string)%type.

(** [download_file(file_info, category_dir)].  [None] is an exception
    that leaves the function (raised by [unlink] in the handler). *)
Definition download_file (E : Env) (file_info : FileEntry) (category_dir : Path)
  (w : World) : World * option Outcome :=
  let url := fi_url file_info in
  let filename := filename_of url in
  let filepath := joinpath category_dir filename in
  if fs_exists (fs w) filepath then
    (w, Some (true, filename, Some "Already exists"))
  else
    match download_file_try E url filepath w with
    | (w', None) => (w', Some (true, filename, None))
    | (w', Some e) =>
        match unlink_if_exists filepath w' with
        | Some w'' => (w'', Some (false, filename, Some e))
        | None => (w', None)
        end
    end.

(** A download task: [(file_info, category_dir, driver['title'])]. *)
Definition DownloadTask := (FileEntry * Path * string)%type.

(** The worker pool on the schedule that runs the tasks one after the
    other, in the order of submission; [None] is a future whose
    [result()] raises.  The pool with all its schedules is [pool_step]
    below. *)
Fixpoint run_tasks (E : Env) (tasks : list DownloadTask) (w : World)
  : World * list (option Outcome) :=
  match tasks with
  | [] => (w, [])
  | (file_info, category_dir, _) :: rest =>
      let '(w1, o) := download_file E file_info category_dir w in
      let '(w2, os) := run_tasks E rest w1 in
      (w2, o :: os)
  end.

Record Summary := {
  success_count : nat;
  skip_count : nat;
  fail_count : nat;
}.

Definition error_is (error : option string) (s : string) : bool :=
  match error with Some e => String.eqb e s | None => false end.

(** One turn of the [as_completed] loop. *)
Definition tally (s : Summary) (o : option Outcome) : Summary :=
  match o with
  | Some (true, _, error) =>
      if error_is error "Already exists"
      then {| success_count := success_count s; skip_count := S (skip_count s);
              fail_count := fail_count s |}
      else {| success_count := S (success_count s); skip_count := skip_count s;
              fail_count := fail_count s |}
  | Some (false, _, _) | None =>
      {| success_count := success_count s; skip_count := skip_count s;
         fail_count := S (fail_count s) |}
  end.

Definition summarize (os : list (option Outcome)) : Summary :=
  fold_left tally os {| success_count := 0; skip_count := 0; fail_count := 0 |}.

(** [d['category'].lower() in categories_lower] *)
Definition in_categories (categories : list string) (d : DriverRecord) : bool :=
  existsb (String.eqb (lower (category d))) (map lower categories).

(** The category filter of [download_all_drivers]; an absent or empty
    list of categories keeps every driver. *)
Definition filter_categories (categories : option (list string))
  (drivers : list DriverRecord) : list DriverRecord :=
  match categories with
  | Some ((_ :: _) as cs) => List.filter (in_categories cs) drivers
  | _ => drivers
  end.

(** [category_dir] of a driver. *)
Definition category_dir_of (output_dir : Path) (d : DriverRecord) : Path :=
  joinpath output_dir (replace_char "\" "-" (replace_char "/" "-" (category d))).

(** The loop that prepares the download tasks and creates the category
    directories; [None] for the tasks when a [mkdir] raises. *)
Fixpoint prepare_tasks (output_dir : Path) (drivers : list DriverRecord)
  (f : gmap Path Node) : gmap Path Node * option (list DownloadTask) :=
  match drivers with
  | [] => (f, Some [])
  | d :: rest =>
      let category_dir := category_dir_of output_dir d in
      match fs_mkdir f category_dir with
      | None => (f, None)
      | Some f1 =>
          let mine := map (fun file_info => (file_info, category_dir, title d)) (files d) in
          match prepare_tasks output_dir rest f1 with
          | (f2, Some more) => (f2, Some (mine ++ more))
          | (f2, None) => (f2, None)
          end
      end
  end.

Definition manifest_name : string := "driver_manifest.json".

(** [json.dump({...}, f, indent=2)] into the file just opened. *)
Definition write_manifest (E : Env) (serial_number : string) (product_info : json)
  (drivers : list DriverRecord) (metadata_path : Path) (f : gmap Path Node)
  : gmap Path Node :=
  <[metadata_path := File (Doc {| m_serial_number := serial_number;
                                  m_product := product_info;
                                  m_drivers := drivers;
                                  m_download_date := strftime_now E |})]> f.

Inductive BulkResult :=
  | NoDrivers                          (* "No drivers found to download" *)
  | BulkDone (s : Summary)
  | BulkRaised.                        (* an exception reaches [main] *)

(** [download_all_drivers(categories)], from the point where
    [get_drivers_list] has returned [drivers]. *)
Definition download_all_drivers (E : Env) (serial_number : string)
  (product_info : json) (output_dir : Path) (drivers : list DriverRecord)
  (categories : option (list string)) (w : World) : World * BulkResult :=
  match drivers with
  | [] => (w, NoDrivers)
  | _ =>
      let drivers := filter_categories categories drivers in
      match fs_mkdir_parents (fs w) output_dir with
      | None => (w, BulkRaised)
      | Some f1 =>
          let metadata_path := joinpath output_dir manifest_name in
          match fs_open (Bytes []) f1 metadata_path with
          | None => (set_fs w f1, BulkRaised)
          | Some f2 =>
              let f3 := write_manifest E serial_number product_info drivers
                          metadata_path f2 in
              match prepare_tasks output_dir drivers f3 with
              | (f4, None) => (set_fs w f4, BulkRaised)
              | (f4, Some download_tasks) =>
                  let '(w5, os) := run_tasks E download_tasks (set_fs w f4) in
                  (w5, BulkDone (summarize os))
              end
          end
      end
  end.

(* ===================================================================== *)
(** ** Selection layer                                                    *)
(* ===================================================================== *)

(** The dictionaries built by [get_sccm_packages]. *)
Record SccmPackage := {
  pkg_title : string;
  pkg_category : string;
  pkg_files : list FileEntry;
}.

Definition is_exe (f : FileEntry) : bool := endswith (lower (fi_url f)) ".exe".

Definition get_sccm_packages (drivers : list DriverRecord) : list SccmPackage :=
  flat_map
    (fun driver =>
       if contains "sccm" (lower (title driver)) then
         match List.filter is_exe (files driver) with
         | [] => []
         | exe_files =>
             [{| pkg_title := title driver; pkg_category := category driver;
                 pkg_files := exe_files |}]
         end
       else [])
    drivers.

(** [l[i]] on a Python list: a negative index counts from the end;
    [None] is [IndexError]. *)
Definition py_nth {A} (l : list A) (i : Z) : option A :=
  let n := Z.of_nat (length l) in
  if (0 <=? i)%Z && (i <? n)%Z then l !! Z.to_nat i
  else if (- n <=? i)%Z && (i <? 0)%Z then l !! Z.to_nat (n + i)
  else None.

(** [list(range(n))] *)
Definition py_range (n : nat) : list Z := map Z.of_nat (seq 0 n).

(** [sorted(set(indices))] *)
Fixpoint insert_sorted (x : Z) (l : list Z) : list Z :=
  match l with
  | [] => [x]
  | y :: r =>
      if (x <? y)%Z then x :: l
      else if (x =? y)%Z then l
      else y :: insert_sorted x r
  end.

Definition sorted_set (l : list Z) : list Z := fold_right insert_sorted [] l.

(** The loop over [selection.split(',')]; [None] is the [ValueError]
    raised by [int] or by the range check. *)
Fixpoint parse_tokens (n : nat) (tokens : list string) : option (list Z) :=
  match tokens with
  | [] => Some []
  | num_str :: rest =>
      let num_str := strip num_str in
      if String.eqb num_str "" then parse_tokens n rest
      else
        match py_int num_str with
        | None => None
        | Some num =>
            if (1 <=? num)%Z && (num <=? Z.of_nat n)%Z
            then cons (num - 1)%Z <$> parse_tokens n rest
            else None
        end
  end.

Inductive Selection :=
  | Cancelled                          (* 'none' or Ctrl-C: the function returns *)
  | Chosen (selected_indices : list Z)
  | PromptRaised.                      (* [input] raises at end of input *)

(** The [while True] prompt loop over what the terminal delivers. *)
Fixpoint prompt_selection (n : nat) (keys : list Keyboard) : Selection :=
  match keys with
  | [] => PromptRaised
  | Interrupt :: _ => Cancelled
  | Line s :: rest =>
      let selection := lower (strip s) in
      if String.eqb selection "none" then Cancelled
      else if String.eqb selection "all" || String.eqb selection "" then
        Chosen (py_range n)
      else
        match parse_tokens n (str_split "," selection) with
        | Some ((_ :: _) as indices) => Chosen (sorted_set indices)
        | Some [] | None => prompt_selection n rest
        end
  end.

(** [main]: [--sccm-packages] given on the command line ([nargs="+"]). *)
Definition main_selected_indices (sccm_packages_arg : option (list Z))
  : option (list Z) :=
  match sccm_packages_arg with
  | Some ((_ :: _) as l) => Some (map (fun idx => idx - 1)%Z l)
  | _ => None
  end.

(* ===================================================================== *)
(** ** Extraction pipeline                                                *)
(* ===================================================================== *)

(** [any(d.iterdir())]; [None] when [iterdir] raises. *)
Definition any_iterdir (f : gmap Path Node) (d : Path) : option bool :=
  (fun l => match l with [] => false | _ => true end) <$> iterdir f d.

Definition artifacts : list string := ["[0]"; "CERTIFICATE"; "[1]"; "[2]"].

Definition cleanup_step (extract_dir : Path) (w : World) (artifact : string) : World :=
  let artifact_path := joinpath extract_dir artifact in
  if fs_exists (fs w) artifact_path then
    match fs_unlink (fs w) artifact_path with
    | Some f => set_fs w f
    | None => w
    end
  else w.

Definition _cleanup_extract_artifacts (extract_dir : Path) (w : World) : World :=
  fold_left (cleanup_step extract_dir) artifacts w.

(** One alternative of stage 2. *)
Inductive Attempt :=
  | Won (w : World)                    (* exit status 0: clean up, return True *)
  | Lost (w : World)                   (* another exit status: go on *)
  | Aborted (w : World).               (* an exception: return False *)

Definition stage2_attempt (E : Env) (argv : list string) (extract_dir : Path)
  (w : World) : Attempt :=
  let '(w1, r) := subprocess_run E argv w in
  match r with
  | Exited rc _ =>
      if (rc =? 0)%Z then Won (_cleanup_extract_artifacts extract_dir w1) else Lost w1
  | TimedOut _ | Crashed _ => Aborted w1
  end.

Definition cabextract_argv (cmd : string) (extract_dir payload_file : Path) :=
  [cmd; "-d"; path_str extract_dir; path_str payload_file].
Definition innoextract_argv (cmd : string) (extract_dir payload_file : Path) :=
  [cmd; "-d"; path_str extract_dir; path_str payload_file].
Definition sevenz_outer_argv (cmd : string) (extract_dir exe_path : Path) :=
  [cmd; "x"; "-y"; ("-o" ++ path_str extract_dir)%string; path_str exe_path].
Definition sevenz_inner_argv (cmd : string) (extract_dir payload_file : Path) :=
  [cmd; "x"; "-y"; ("-o" ++ path_str extract_dir)%string; "-t*"; path_str payload_file].

(** Stage 2 of [_extract_sccm_unix], from "Step 2" to the end of the
    [try]. *)
Definition extract_inner_payload (E : Env) (sevenz_cmd : string)
  (innoextract_cmd cabextract_cmd : option string)
  (extract_dir payload_file : Path) (w : World) : World * bool :=
  match
    match cabextract_cmd with
    | Some cmd => stage2_attempt E (cabextract_argv cmd extract_dir payload_file) extract_dir w
    | None => Lost w
    end
  with
  | Won w' => (w', true)
  | Aborted w' => (w', false)
  | Lost w2 =>
      match
        match innoextract_cmd with
        | Some cmd =>
            stage2_attempt E (innoextract_argv cmd extract_dir payload_file) extract_dir w2
        | None => Lost w2
        end
      with
      | Won w' => (w', true)
      | Aborted w' => (w', false)
      | Lost w3 =>
          match stage2_attempt E (sevenz_inner_argv sevenz_cmd extract_dir payload_file)
                  extract_dir w3 with
          | Won w' => (w', true)
          | Lost w' | Aborted w' => (w', false)
          end
      end
  end.

Definition _extract_sccm_unix (E : Env) (exe_path extract_dir : Path) (w : World)
  : World * bool :=
  let sevenz_cmd :=
    List.find (fun cmd => match which E cmd with Some _ => true | None => false end)
      ["7z"; "7zz"; "7za"] in
  let innoextract_cmd := which E "innoextract" in
  let cabextract_cmd := which E "cabextract" in
  match sevenz_cmd with
  | None => (w, false)
  | Some sevenz_cmd =>
      let '(w1, r) :=
        subprocess_run E (sevenz_outer_argv sevenz_cmd extract_dir exe_path) w in
      match r with
      | TimedOut _ | Crashed _ => (w1, false)
      | Exited rc _ =>
          if negb (rc =? 0)%Z then (w1, false)
          else
            let payload_file := joinpath extract_dir "[0]" in
            if negb (fs_exists (fs w1) payload_file) then (w1, true)
            else extract_inner_payload E sevenz_cmd innoextract_cmd cabextract_cmd
                   extract_dir payload_file w1
      end
  end.

(** [result.returncode == 0 or any(extract_dir.iterdir())]; [None] when
    [iterdir] raises. *)
Definition exited_or_populated (rc : Z) (f : gmap Path Node) (extract_dir : Path)
  : option bool :=
  if (rc =? 0)%Z then Some true else any_iterdir f extract_dir.

Definition _extract_sccm_windows (E : Env) (exe_path extract_dir : Path) (w : World)
  : World * bool :=
  let '(w1, r) :=
    subprocess_run E [path_str exe_path; "/VERYSILENT"; ("/DIR=" ++ path_str extract_dir)%string] w in
  match r with
  | TimedOut _ | Crashed _ => (w1, false)
  | Exited rc _ =>
      match exited_or_populated rc (fs w1) extract_dir with
      | None => (w1, false)
      | Some true => (w1, true)
      | Some false =>
          let '(w2, r2) :=
            subprocess_run E [path_str exe_path; ("/extract:" ++ path_str extract_dir)%string] w1 in
          match r2 with
          | TimedOut _ | Crashed _ => (w2, false)
          | Exited rc2 _ =>
              match exited_or_populated rc2 (fs w2) extract_dir with
              | Some true => (w2, true)
              | Some false | None => (w2, false)
              end
          end
      end
  end.

(** [extract_sccm_package(exe_path, extract_dir)]; [None] when the
    [mkdir] raises. *)
Definition extract_sccm_package (E : Env) (exe_path extract_dir : Path) (w : World)
  : World * option bool :=
  match fs_mkdir_parents (fs w) extract_dir with
  | None => (w, None)
  | Some f =>
      let '(w', ok) :=
        if win32 E then _extract_sccm_windows E exe_path extract_dir (set_fs w f)
        else _extract_sccm_unix E exe_path extract_dir (set_fs w f) in
      (w', Some ok)
  end.

(* ===================================================================== *)
(** ** The specialized-package workflow                                   *)
(* ===================================================================== *)

(** The body of the [try] of the download loop of
    [download_sccm_packages]: always streamed. *)
Definition sccm_download_try (E : Env) (url : string) (filepath : Path) (w : World)
  : World * option string :=
  let '(w1, g) := session_get E url w in
  match g with
  | GetRaises msg => (w1, Some msg)
  | GetReturns response =>
      match status_error response with
      | Some msg => (w1, Some msg)
      | None =>
          match total_size_of response with
          | None => (w1, Some msg_int)
          | Some _ =>
              match fs_open (Bytes []) (fs w1) filepath with
              | None => (w1, Some msg_open)
              | Some fs2 =>
                  let '(cs, err) := iter_content chunk_size response in
                  (write_chunks filepath cs (set_fs w1 fs2), err)
              end
          end
      end
  end.

(** One turn of the download loop: the world and [downloaded_files]
    after it; [None] when [unlink] raises in the handler. *)
Definition sccm_download_one (E : Env) (sccm_dir : Path) (file_info : FileEntry)
  (w : World) (downloaded_files : list Path) : World * option (list Path) :=
  let url := fi_url file_info in
  let filename := filename_of url in
  let filepath := joinpath sccm_dir filename in
  if fs_exists (fs w) filepath then (w, Some (downloaded_files ++ [filepath]))
  else
    match sccm_download_try E url filepath w with
    | (w', None) => (w', Some (downloaded_files ++ [filepath]))
    | (w', Some _) =>
        match unlink_if_exists filepath w' with
        | Some w'' => (w'', Some downloaded_files)
        | None => (w', None)
        end
    end.

Fixpoint sccm_download_loop (E : Env) (sccm_dir : Path) (todo : list FileEntry)
  (w : World) (downloaded_files : list Path) : World * option (list Path) :=
  match todo with
  | [] => (w, Some downloaded_files)
  | file_info :: rest =>
      match sccm_download_one E sccm_dir file_info w downloaded_files with
      | (w1, Some downloaded_files1) =>
          sccm_download_loop E sccm_dir rest w1 downloaded_files1
      | (w1, None) => (w1, None)
      end
  end.

(** [extract_dir.exists() and any(extract_dir.iterdir())] *)
Definition already_extracted (f : gmap Path Node) (extract_dir : Path) : option bool :=
  if fs_exists f extract_dir then any_iterdir f extract_dir else Some false.

(** One turn of the extraction loop; [false] when an exception leaves
    the loop. *)
Definition sccm_extract_one (E : Env) (sccm_dir : Path) (filepath : Path) (w : World)
  : World * bool :=
  if String.eqb (lower (path_suffix filepath)) ".exe" then
    let extract_dir := joinpath sccm_dir (path_stem filepath) in
    match already_extracted (fs w) extract_dir with
    | None => (w, false)
    | Some true => (w, true)
    | Some false =>
        match extract_sccm_package E filepath extract_dir w with
        | (w', Some _) => (w', true)
        | (w', None) => (w', false)
        end
    end
  else (w, true).

Fixpoint sccm_extract_loop (E : Env) (sccm_dir : Path) (downloaded_files : list Path)
  (w : World) : World * bool :=
  match downloaded_files with
  | [] => (w, true)
  | filepath :: rest =>
      match sccm_extract_one E sccm_dir filepath w with
      | (w1, true) => sccm_extract_loop E sccm_dir rest w1
      | (w1, false) => (w1, false)
      end
  end.

Inductive SccmResult :=
  | NoPackages                         (* "No SCCM packages found" *)
  | SccmCancelled                      (* "Download cancelled" *)
  | NoneSelected                       (* "No packages selected" *)
  | SccmDone (downloaded_files : list Path)
  | SccmRaised.                        (* an exception reaches [main] *)

(** [download_sccm_packages(extract, selected_indices)], from the point
    where [get_sccm_packages] has returned [sccm_packages]. *)
Definition download_sccm_packages (E : Env) (output_dir : Path)
  (sccm_packages : list SccmPackage) (extract : bool)
  (selected_indices : option (list Z)) (keys : list Keyboard) (w : World)
  : World * SccmResult :=
  match sccm_packages with
  | [] => (w, NoPackages)
  | _ =>
      match
        match selected_indices with
        | None => prompt_selection (length sccm_packages) keys
        | Some l => Chosen l
        end
      with
      | Cancelled => (w, SccmCancelled)
      | PromptRaised => (w, SccmRaised)
      | Chosen selected_indices =>
          match mapM (py_nth sccm_packages) selected_indices with
          | None => (w, SccmRaised)
          | Some [] => (w, NoneSelected)
          | Some selected_packages =>
              match fs_mkdir_parents (fs w) output_dir with
              | None => (w, SccmRaised)
              | Some f1 =>
                  let sccm_dir := joinpath output_dir "SCCM" in
                  match fs_mkdir f1 sccm_dir with
                  | None => (set_fs w f1, SccmRaised)
                  | Some f2 =>
                      match sccm_download_loop E sccm_dir
                              (flat_map pkg_files selected_packages) (set_fs w f2) [] with
                      | (w3, None) => (w3, SccmRaised)
                      | (w3, Some downloaded_files) =>
                          match (if extract then downloaded_files else []) with
                          | [] => (w3, SccmDone downloaded_files)
                          | to_extract =>
                              match sccm_extract_loop E sccm_dir to_extract w3 with
                              | (w4, true) => (w4, SccmDone downloaded_files)
                              | (w4, false) => (w4, SccmRaised)
                              end
                          end
                      end
                  end
              end
          end
      end
  end.

(* ===================================================================== *)
(** ** Catalog resolver: [get_drivers_list]                               *)
(* ===================================================================== *)

(** Lookup in the dictionary [json.loads] builds: the last binding of a
    repeated key wins. *)
Fixpoint dict_get (fields : list (string * json)) (k : string) : option json :=
  match fields with
  | [] => None
  | (k', v) :: rest =>
      match dict_get rest k with
      | Some v' => Some v'
      | None => if String.eqb k k' then Some v else None
      end
  end.

(** [d.get(k, default)]; [None] is the [AttributeError] of an object
    that is not a dictionary. *)
Definition py_get (d : json) (k : string) (default : json) : option json :=
  match d with
  | JObj fields => Some (match dict_get fields k with Some v => v | None => default end)
  | _ => None
  end.

Fixpoint chars (s : string) : list string :=
  match s with
  | EmptyString => []
  | String c s' => String c EmptyString :: chars s'
  end.

(** [for x in v]: the items of a list, the characters of a string, the
    keys of a dictionary; [None] is the [TypeError] of the rest. *)
Definition py_iter (v : json) : option (list json) :=
  match v with
  | JArr items => Some items
  | JStr s => Some (map JStr (chars s))
  | JObj fields => Some (map JStr (remove_dups (map fst fields)))
  | JNull | JBool _ | JNum _ => None
  end.

(** [s.split('/')[-1]] on an object: [AttributeError] unless a string. *)
Definition py_basename (v : json) : option json :=
  match v with
  | JStr s => Some (JStr (last_item (str_split "/" s)))
  | _ => None
  end.

(** The inner loop of the primary shape: the [file_info] dictionaries
    kept, or [None] when an [f.get] raises. *)
Fixpoint primary_files (fl : list json) : option (list json) :=
  match fl with
  | [] => Some []
  | f :: rest =>
      name ← py_get f "Name" (JStr "");
      url ← py_get f "URL" (JStr "");
      size ← py_get f "Size" (JNum 0);
      sha256 ← py_get f "SHA256" (JStr "");
      more ← primary_files rest;
      let file_info :=
        JObj [("name", name); ("url", url); ("size", size); ("sha256", sha256)] in
      Some (if truthy url then file_info :: more else more)
  end.

(** One item of the primary shape: the [driver_info] to append, if any;
    the outer [None] is an exception. *)
Definition primary_item (item : json) : option (option json) :=
  title ← py_get item "Title" (JStr "Unknown");
  category_obj ← py_get item "Category" (JObj []);
  category ← py_get category_obj "Name" (JStr "Other");
  version ← py_get item "Version" (JStr "Unknown");
  date_obj ← py_get item "Date" (JObj []);
  release_date ← py_get date_obj "Unix" (JStr "");
  files_obj ← py_get item "Files" (JArr []);
  files_list ← py_iter files_obj;
  files ← primary_files files_list;
  Some (match files with
        | [] => None
        | _ => Some (JObj [("title", title); ("category", category);
                           ("version", version); ("release_date", release_date);
                           ("files", JArr files)])
        end).

(** One item of the V2 shape. *)
Definition v2_item (item : json) : option (option json) :=
  title ← py_get item "Name" (JStr "Unknown");
  category ← py_get item "Category" (JStr "Other");
  version ← py_get item "Version" (JStr "");
  url ← py_get item "DownloadUrl" (JStr "");
  if truthy url then
    default_name ← py_basename url;
    name ← py_get item "FileName" default_name;
    size ← py_get item "Size" (JNum 0);
    Some (Some (JObj [("title", title); ("category", category); ("version", version);
                      ("files", JArr [JObj [("name", name); ("url", url);
                                            ("size", size)]])]))
  else Some None.

(** A [for item in downloads] loop that appends to [drivers]: the list
    after the loop, and whether the loop ran to its end. *)
Fixpoint append_items (step : json -> option (option json)) (downloads : list json)
  (drivers : list json) : list json * bool :=
  match downloads with
  | [] => (drivers, true)
  | item :: rest =>
      match step item with
      | None => (drivers, false)
      | Some None => append_items step rest drivers
      | Some (Some driver_info) => append_items step rest (drivers ++ [driver_info])
      end
  end.

(** What a catalog request gives: [None] when the request raises, when
    the status is not 200 or when the body is not JSON. *)
Definition CatalogReply := option json.

(** [downloads] of the primary shape. *)
Definition primary_downloads (data : json) : option (list json) :=
  body_obj ← py_get data "body" (JObj []);
  downloads ← py_get body_obj "DownloadItems" (JArr []);
  downloads ← (if truthy downloads then Some downloads
               else py_get data "DownloadItems" (JArr []));
  py_iter downloads.

(** [downloads] of the V2 shape. *)
Definition v2_downloads (data : json) : option (list json) :=
  downloads ← py_get data "Downloads" (JArr []);
  py_iter downloads.

(** [get_drivers_list()] once the product is known: the replies of the
    two endpoints are [primary] and [v2]. *)
Definition get_drivers_list (primary v2 : CatalogReply) : list json :=
  let '(drivers, returned) :=
    match primary with
    | None => ([], false)
    | Some data =>
        match primary_downloads data with
        | None => ([], false)
        | Some downloads => append_items primary_item downloads []
        end
    end in
  if returned then drivers
  else
    match v2 with
    | None => drivers
    | Some data =>
        match v2_downloads data with
        | None => drivers
        | Some downloads => fst (append_items v2_item downloads drivers)
        end
    end.

(* ===================================================================== *)
(** ** The downloader object and the product lookup                      *)
(* ===================================================================== *)

Definition upper_char (c : ascii) : ascii :=
  let n := nat_of_ascii c in
  if (97 <=? n)%nat && (n <=? 122)%nat then ascii_of_nat (n - 32) else c.

(** [s.upper()] (ASCII letters). *)
Fixpoint upper (s : string) : string :=
  match s with
  | EmptyString => EmptyString
  | String c s' => String (upper_char c) (upper s')
  end.

(** The attributes [__init__] sets from its arguments. *)
Record Downloader := {
  serial_number : string;
  output_dir : Path;
  max_workers : Z;
}.

(** [LenovoDriverDownloader(serial_number, output_dir, max_workers)] *)
Definition __init__ (serial : string) (output : option string) (workers : Z)
  : Downloader :=
  let sn := upper (strip serial) in
  {| serial_number := sn;
     output_dir := match output with
                   | Some (String _ _ as dir) => Path_of dir
                   | _ => Path_of ("drivers_" ++ sn)%string
                   end;
     max_workers := workers |}.

(** What a request to the support site gives: [session.get] raises, or
    a response with its status code, what [response.json()] returns
    (nothing when it raises) and its text. *)
Inductive CatalogResult :=
  | CatalogRaises
  | CatalogReturns (status_code : Z) (parsed : option json) (text : string).

(** The support site: the answer to the n-th request of the session,
    and [str(v)] for a value that is not a string. *)
Record Site := {
  site_get : nat -> string -> CatalogResult;
  site_str : json -> string;
}.

(** [session.get(url, timeout=30)] on the support site. *)
Definition catalog_get (S : Site) (url : string) (w : World) : World * CatalogResult :=
  ({| fs := fs w; http_log := http_log w ++ [url];
      tool_log := tool_log w; write_log := write_log w |},
   site_get S (length (http_log w)) url).

(** [f"{v}"] *)
Definition py_str (S : Site) (v : json) : string :=
  match v with
  | JStr s => s
  | _ => site_str S v
  end.

(** [data[0]] when [data and len(data) > 0] holds: the first item of a
    list, the first character of a string; [None] is an exception
    ([len] of a number, a key that a dictionary does not have) or a
    condition that does not hold. *)
Definition first_of_reply (data : json) : option json :=
  match data with
  | JArr (x :: _) => Some x
  | JStr (String c _) => Some (JStr (String c EmptyString))
  | _ => None
  end.

(** [x.get(...)] inside a [print]: raises unless [x] is a dictionary. *)
Definition is_dict (v : json) : bool :=
  match v with JObj _ => true | _ => false end.

(** The double quote. *)
Definition quote_char : ascii := ascii_of_nat 34.

(** [re.search] for the key [productId] between double quotes, a
    colon, blanks if any, and between double quotes the product
    identifier: one character or more, none of them a double quote.
    [skip_spaces] is the [\s*] of the pattern. *)
Fixpoint skip_spaces (s : string) : string :=
  match s with
  | String c s' => if is_space c then skip_spaces s' else s
  | EmptyString => EmptyString
  end.

(** The characters before the next double quote; [None] when there is
    no double quote. *)
Fixpoint until_quote (s : string) : option string :=
  match s with
  | EmptyString => None
  | String c s' =>
      if Ascii.eqb c quote_char then Some EmptyString
      else String c <$> until_quote s'
  end.

(** [s[len(p):]] when [s.startswith(p)]. *)
Fixpoint strip_prefix (p s : string) : option string :=
  match p, s with
  | EmptyString, _ => Some s
  | String _ _, EmptyString => None
  | String a p', String c s' => if Ascii.eqb a c then strip_prefix p' s' else None
  end.

Definition product_id_key : string :=
  String quote_char ("productId" ++ String quote_char ":").

(** A match that starts at the first character of [s]. *)
Definition match_product_id_here (s : string) : option string :=
  match strip_prefix product_id_key s with
  | None => None
  | Some rest =>
      match skip_spaces rest with
      | String c rest' =>
          if Ascii.eqb c quote_char then
            match until_quote rest' with
            | Some (String _ _ as product_id) => Some product_id
            | _ => None
            end
          else None
      | EmptyString => None
      end
  end.

(** The leftmost match. *)
Fixpoint search_product_id (text : string) : option string :=
  match match_product_id_here text with
  | Some product_id => Some product_id
  | None =>
      match text with
      | EmptyString => None
      | String _ text' => search_product_id text'
      end
  end.

Definition products_api (product_id : string) : string :=
  ("https://pcsupport.lenovo.com/us/en/api/v4/mse/getproducts?productId="
   ++ product_id)%string.

Definition products_page (serial : string) : string :=
  ("https://pcsupport.lenovo.com/us/en/products/" ++ lower serial)%string.

(** One lookup through the products API: the body of the [if] on the
    status code.  The product found, if the [return] is reached, and
    the value left in [self.product_info]. *)
Definition lookup_product (reply : CatalogResult) (product_info : option json)
  : option json * option json :=
  match reply with
  | CatalogReturns 200 (Some data) _ =>
      match first_of_reply data with
      | Some first =>
          if is_dict first then (Some first, Some first) else (None, Some first)
      | None => (None, product_info)
      end
  | _ => (None, product_info)
  end.

(** [get_product_info()]: the world after it, the product returned
    ([None] is the [ValueError]) and the value left in
    [self.product_info]. *)
Definition get_product_info (S : Site) (serial : string) (product_info : option json)
  (w : World) : World * option json * option json :=
  let '(w1, reply1) := catalog_get S (products_api serial) w in
  match lookup_product reply1 product_info with
  | (Some found, state) => (w1, Some found, state)
  | (None, state1) =>
      let '(w2, reply2) := catalog_get S (products_page serial) w1 in
      match reply2 with
      | CatalogReturns 200 _ text =>
          match search_product_id text with
          | Some product_id =>
              let '(w3, reply3) := catalog_get S (products_api product_id) w2 in
              match lookup_product reply3 state1 with
              | (Some found, state) => (w3, Some found, state)
              | (None, state) => (w3, None, state)
              end
          | None => (w2, None, state1)
          end
      | _ => (w2, None, state1)
      end
  end.

Definition drivers_api (product_id : string) : string :=
  ("https://pcsupport.lenovo.com/us/en/api/v4/downloads/drivers?productId="
   ++ product_id)%string.

Definition drivers_api_v2 (product_id : string) : string :=
  ("https://pcsupport.lenovo.com/us/en/api/v2/products/" ++ product_id
   ++ "/downloads")%string.

(** The JSON body of a reply with status 200. *)
Definition reply_200 (reply : CatalogResult) : CatalogReply :=
  match reply with
  | CatalogReturns 200 parsed _ => parsed
  | _ => None
  end.

(** [if not self.product_info: self.get_product_info()]: the world and
    [self.product_info] after it; [None] is the [ValueError] of the
    lookup. *)
Definition ensure_product_info (S : Site) (serial : string) (product_info : option json)
  (w : World) : World * option (option json) :=
  if match product_info with Some v => truthy v | None => false end
  then (w, Some product_info)
  else
    match get_product_info S serial product_info w with
    | (w', Some _, state) => (w', Some state)
    | (w', None, _) => (w', None)
    end.

(** [get_drivers_list()] with its requests: the product is looked up
    when it has not been, and the second endpoint is asked only when
    the first block has not returned.  [None] is an exception: the
    [ValueError] of the lookup, or the [AttributeError] of a product
    that is not a dictionary. *)
Definition get_drivers_list_requests (S : Site) (serial : string)
  (product_info : option json) (w : World) : World * option (list json) :=
  match ensure_product_info S serial product_info w with
  | (w0, None) | (w0, Some None) => (w0, None)
  | (w0, Some (Some product_info)) =>
      match py_get product_info "Id" (JStr serial) with
      | None => (w0, None)
      | Some id =>
          let product_id := py_str S id in
          let '(w1, reply1) := catalog_get S (drivers_api product_id) w0 in
          let '(drivers, returned) :=
            match reply_200 reply1 with
            | None => ([], false)
            | Some data =>
                match primary_downloads data with
                | None => ([], false)
                | Some downloads => append_items primary_item downloads []
                end
            end in
          if returned then (w1, Some drivers)
          else
            let '(w2, reply2) := catalog_get S (drivers_api_v2 product_id) w1 in
            (w2, Some (get_drivers_list (reply_200 reply1) (reply_200 reply2)))
      end
  end.

(* ===================================================================== *)
(** ** [list_categories]                                                  *)
(* ===================================================================== *)

(** [if cat not in categories: categories[cat] = 0] and
    [categories[cat] += k] on a dictionary held as the list of its
    items in insertion order. *)
Fixpoint count_files (cat : string) (k : nat) (categories : list (string * nat))
  : list (string * nat) :=
  match categories with
  | [] => [(cat, k)]
  | (c, n) :: rest =>
      if String.eqb c cat then (c, n + k)%nat :: rest
      else (c, n) :: count_files cat k rest
  end.

(** The dictionary [categories] after the loop of [list_categories]. *)
Definition category_counts (drivers : list DriverRecord) : list (string * nat) :=
  fold_left (fun categories driver =>
               count_files (category driver) (length (files driver)) categories)
            drivers [].

(** [list_categories()], from the point where [get_drivers_list] has
    returned [drivers]: [list(categories.keys())]. *)
Definition list_categories (drivers : list DriverRecord) : list string :=
  map fst (category_counts drivers).

(* ===================================================================== *)
(** ** Vocabulary of the properties                                       *)
(* ===================================================================== *)

(** Classification of outcomes, as the aggregation loop reads them. *)
Definition is_skipped (o : option Outcome) : bool :=
  match o with
  | Some (true, _, error) => error_is error "Already exists"
  | _ => false
  end.

Definition is_completed (o : option Outcome) : bool :=
  match o with
  | Some (true, _, error) => negb (error_is error "Already exists")
  | _ => false
  end.

Definition is_failed (o : option Outcome) : bool :=
  match o with
  | Some (true, _, _) => false
  | _ => true
  end.

Definition task_path (t : DownloadTask) : Path :=
  joinpath (snd (fst t)) (filename_of (fi_url (fst (fst t)))).

Definition nonempty {A} (l : list A) : bool := match l with [] => false | _ => true end.

(** What a successful transfer has done. *)
Definition transferred (E : Env) (url : string) (p : Path) (w w' : World) : Prop :=
  exists r total_size new,
    http_get E (length (http_log w)) url = GetReturns r
    /\ status_error r = None /\ cut r = None
    /\ total_size_of r = Some total_size
    /\ fs w' = <[p := File (Bytes (body r))]> (fs w)
    /\ write_log w' = write_log w ++ new
    /\ (total_size <> 0%Z -> Forall (fun e => (snd e <= chunk_size)%nat) new)
    /\ (total_size = 0%Z -> new = [(p, length (body r))]).

(** The three ways [download_file] ends. *)
Inductive download_file_ends (E : Env) (file_info : FileEntry) (category_dir : Path)
  (w : World) : World -> option Outcome -> Prop :=
  | ends_skipped :
      fs_exists (fs w) (joinpath category_dir (filename_of (fi_url file_info))) = true ->
      download_file_ends E file_info category_dir w w
        (Some (true, filename_of (fi_url file_info), Some "Already exists"))
  | ends_completed w' :
      fs_exists (fs w) (joinpath category_dir (filename_of (fi_url file_info))) = false ->
      transferred E (fi_url file_info)
        (joinpath category_dir (filename_of (fi_url file_info))) w w' ->
      http_log w' = http_log w ++ [fi_url file_info] ->
      tool_log w' = tool_log w ->
      download_file_ends E file_info category_dir w w'
        (Some (true, filename_of (fi_url file_info), None))
  | ends_failed w' e :
      fs_exists (fs w) (joinpath category_dir (filename_of (fi_url file_info))) = false ->
      fs w' = fs w ->
      http_log w' = http_log w ++ [fi_url file_info] ->
      tool_log w' = tool_log w ->
      download_file_ends E file_info category_dir w w'
        (Some (false, filename_of (fi_url file_info), Some e)).

Definition task_url (t : DownloadTask) : string := fi_url (fst (fst t)).

Definition skip_outcome (t : DownloadTask) : option Outcome :=
  Some (true, filename_of (task_url t), Some "Already exists").

(** The URLs a run has requested, read off its outcomes: one request
    for every task that was not skipped. *)
Fixpoint requests_of (tasks : list DownloadTask) (os : list (option Outcome))
  : list string :=
  match tasks, os with
  | t :: tasks', o :: os' =>
      if is_skipped o then requests_of tasks' os'
      else task_url t :: requests_of tasks' os'
  | _, _ => []
  end.

Definition sccm_path (sccm_dir : Path) (file_info : FileEntry) : Path :=
  joinpath sccm_dir (filename_of (fi_url file_info)).

(** The three ways a turn of the loop ends. *)
Inductive sccm_turn_ends (E : Env) (sccm_dir : Path) (file_info : FileEntry)
  (w : World) (downloaded_files : list Path) : World -> option (list Path) -> Prop :=
  | turn_skipped :
      fs_exists (fs w) (sccm_path sccm_dir file_info) = true ->
      sccm_turn_ends E sccm_dir file_info w downloaded_files w
        (Some (downloaded_files ++ [sccm_path sccm_dir file_info]))
  | turn_downloaded w' b :
      fs_exists (fs w) (sccm_path sccm_dir file_info) = false ->
      fs w' = <[sccm_path sccm_dir file_info := File (Bytes b)]> (fs w) ->
      http_log w' = http_log w ++ [fi_url file_info] ->
      sccm_turn_ends E sccm_dir file_info w downloaded_files w'
        (Some (downloaded_files ++ [sccm_path sccm_dir file_info]))
  | turn_failed w' :
      fs_exists (fs w) (sccm_path sccm_dir file_info) = false ->
      fs w' = fs w ->
      http_log w' = http_log w ++ [fi_url file_info] ->
      sccm_turn_ends E sccm_dir file_info w downloaded_files w' (Some downloaded_files).



(** The claim C4 as the specification states it: a completed transfer
    has given [f.write] only buffers of at most [chunk_size] bytes. *)
Definition written_in_bounded_pieces (E : Env) (file_info : FileEntry)
  (category_dir : Path) (w : World) : Prop :=
  is_completed (snd (download_file E file_info category_dir w)) = true ->
  exists new,
    write_log (fst (download_file E file_info category_dir w)) = write_log w ++ new
    /\ Forall (fun e => (snd e <= chunk_size)%nat) new.

(** The manifest of an output directory, if there is one. *)
Definition manifest_at (f : gmap Path Node) (output_dir : Path) : option Manifest :=
  match f !! joinpath output_dir manifest_name with
  | Some (File (Doc m)) => Some m
  | _ => None
  end.

(** The claim C5 as the specification states it: the manifest of a run
    lists the drivers as fetched, before the category filter. *)
Definition manifest_lists_fetched_drivers (E : Env) (serial_number : string)
  (product_info : json) (output_dir : Path) (drivers : list DriverRecord)
  (categories : option (list string)) (w : World) : Prop :=
  forall w' s,
    download_all_drivers E serial_number product_info output_dir drivers categories w
    = (w', BulkDone s) ->
    exists m, manifest_at (fs w') output_dir = Some m /\ m_drivers m = drivers.

(** The file name as the specification words it: the last segment of
    the path of the URL, the query string left out, percent-decoded. *)
Definition url_path (url : string) : string := first_item (str_split "?" url).

Definition final_path_segment (url : string) : string :=
  last_item (str_split "/" (url_path url)).

Definition spec_filename (url : string) : string := unquote (final_path_segment url).

(** [c in s] for a character. *)
Fixpoint has_char (c : ascii) (s : string) : bool :=
  match s with
  | EmptyString => false
  | String c' s' => Ascii.eqb c' c || has_char c s'
  end.

(** A directory that exists and has at least one entry. *)
Definition populated (f : gmap Path Node) (d : Path) : Prop :=
  is_dir f d = true /\ exists p, is_child d p = true /\ is_Some (f !! p).

(** The alternatives of stage 2 in their order of preference: the
    cabinet extractor and the installer extractor, each when it is
    installed, then the general-purpose tool with broader format
    detection. *)
Definition stage2_candidates (sevenz_cmd : string)
  (innoextract_cmd cabextract_cmd : option string) (extract_dir payload_file : Path)
  : list (list string) :=
  match cabextract_cmd with
  | Some cmd => [cabextract_argv cmd extract_dir payload_file]
  | None => []
  end ++
  match innoextract_cmd with
  | Some cmd => [innoextract_argv cmd extract_dir payload_file]
  | None => []
  end ++
  [sevenz_inner_argv sevenz_cmd extract_dir payload_file].

(** Stage 2 of the program written as a recursion over its
    alternatives: an alternative that exits with another status than 0
    is followed by the next one, a timeout or another exception ends
    the chain ([return False] in the handlers of the function). *)
Fixpoint stage2_chain (E : Env) (candidates : list (list string)) (extract_dir : Path)
  (w : World) : World * bool :=
  match candidates with
  | [] => (w, false)
  | argv :: rest =>
      match stage2_attempt E argv extract_dir w with
      | Won w' => (w', true)
      | Lost w' => stage2_chain E rest extract_dir w'
      | Aborted w' => (w', false)
      end
  end.

(** Stage 2 as the specification words it: the alternatives are tried
    in order, the first that exits successfully wins and the remaining
    ones are skipped; an alternative that does not exit successfully,
    however it ends, is followed by the next one. *)
Fixpoint try_in_order (E : Env) (candidates : list (list string)) (extract_dir : Path)
  (w : World) : World * bool :=
  match candidates with
  | [] => (w, false)
  | argv :: rest =>
      match stage2_attempt E argv extract_dir w with
      | Won w' => (w', true)
      | Lost w' | Aborted w' => try_in_order E rest extract_dir w'
      end
  end.

(** The claim C8 as the specification states it: once the outer unpack
    has left the payload, the extraction is the ordered trial of the
    alternatives. *)
Definition first_success_wins (E : Env) (exe_path extract_dir : Path) (w : World) : Prop :=
  forall sevenz_cmd f1,
    List.find (fun cmd => match which E cmd with Some _ => true | None => false end)
      ["7z"; "7zz"; "7za"] = Some sevenz_cmd ->
    run_tool E (length (tool_log w)) (sevenz_outer_argv sevenz_cmd extract_dir exe_path)
      (fs w) = Exited 0 f1 ->
    fs_exists f1 (joinpath extract_dir "[0]") = true ->
    _extract_sccm_unix E exe_path extract_dir w
    = try_in_order E
        (stage2_candidates sevenz_cmd (which E "innoextract") (which E "cabextract")
           extract_dir (joinpath extract_dir "[0]"))
        extract_dir
        (fst (subprocess_run E (sevenz_outer_argv sevenz_cmd extract_dir exe_path) w)).

(** A [file_info] dictionary with a URL that is not empty. *)
Definition has_url (file_info : json) : Prop :=
  exists fields url,
    file_info = JObj fields /\ dict_get fields "url" = Some url /\ truthy url = true.

(** A [driver_info] dictionary with at least one file, every file of
    which has a URL that is not empty. *)
Definition has_files (driver_info : json) : Prop :=
  exists fields file_infos,
    driver_info = JObj fields
    /\ dict_get fields "files" = Some (JArr file_infos)
    /\ file_infos <> []
    /\ Forall has_url file_infos.

(** The number of outcomes a summary counts. *)
Definition total (s : Summary) : nat :=
  (success_count s + skip_count s + fail_count s)%nat.

(** The download tasks of a list of drivers, in the order of the
    drivers and of their files. *)
Definition tasks_of (output_dir : Path) (drivers : list DriverRecord)
  : list DownloadTask :=
  flat_map (fun d => map (fun file_info => (file_info, category_dir_of output_dir d, title d))
                         (files d))
           drivers.

(** [shutil.which(cmd)] finds the tool. *)
Definition installed (E : Env) (cmd : string) : bool :=
  match which E cmd with Some _ => true | None => false end.

(** Every character of [s] is in the ASCII range, where [lower],
    [upper], [strip] and [py_int] are what [str.lower], [str.upper],
    [str.strip] and [int] do. *)
Fixpoint ascii_only (s : string) : bool :=
  match s with
  | EmptyString => true
  | String c s' => (nat_of_ascii c <? 128)%nat && ascii_only s'
  end.

(* ===================================================================== *)
(** ** The worker pool                                                    *)
(* ===================================================================== *)

(** [ThreadPoolExecutor(max_workers=n)] runs up to [n] calls of
    [download_file] at once, started in the order of submission.  A
    call is cut into the steps at which it looks at, or changes, what
    the threads share: the file system and the session.  A step of the
    pool is a step of one of its threads; a run of the pool is any
    sequence of steps that ends with every future done. *)

(** The file a thread has open for writing.  [Sole]: no other thread
    has had this file open since the thread opened it.  [Shared]:
    another thread has, so that the file has been truncated under the
    thread or is written through two handles.  [Orphan]: the file has
    been unlinked since; what is written is lost with the handle. *)
Inductive Handle := Sole | Shared | Orphan.

(** Where a thread is in [download_file]. *)
Inductive Thread :=
  | Waiting                            (* submitted, not started *)
  | Checking                           (* before [filepath.exists()] *)
  | Requesting                         (* before [session.get] *)
  | Opening (response : Response) (total_size : Z)
                                       (* before [open(filepath, 'wb')] *)
  | Writing (h : Handle) (buffers : list (list Byte.byte)) (err : option string)
                                       (* in the [with] block: the buffers still
                                          to be given to [f.write], and the
                                          exception that follows them, if any *)
  | Handling (e : string)              (* in the handler, before [filepath.exists()] *)
  | Unlinking (e : string)             (* before [filepath.unlink()] *)
  | Returned (o : option Outcome).     (* the future is done; [None]: [result()]
                                          raises *)

Definition running (th : Thread) : bool :=
  match th with
  | Waiting | Returned _ => false
  | _ => true
  end.

Definition holds (th : Thread) : bool :=
  match th with
  | Writing Sole _ _ | Writing Shared _ _ => true
  | _ => false
  end.

(** Another handle appears on the file. *)
Definition share (th : Thread) : Thread :=
  match th with
  | Writing Sole buffers err => Writing Shared buffers err
  | _ => th
  end.

(** The file is unlinked. *)
Definition orphan (th : Thread) : Thread :=
  match th with
  | Writing Sole buffers err | Writing Shared buffers err => Writing Orphan buffers err
  | _ => th
  end.

(** [f] applied to the threads of the tasks whose destination is [p]. *)
Definition on_path (tasks : list DownloadTask) (p : Path) (f : Thread -> Thread)
  (threads : list Thread) : list Thread :=
  imap (fun j th =>
          match tasks !! j with
          | Some t => if decide (task_path t = p) then f th else th
          | None => th
          end) threads.

(** Some thread has the file at [p] open. *)
Definition held (tasks : list DownloadTask) (p : Path) (threads : list Thread) : bool :=
  existsb (fun x => bool_decide (task_path (fst x) = p) && holds (snd x))
    (zip tasks threads).

(** From [session.get] to [int(...)]. *)
Definition after_get (g : GetResult) : Thread :=
  match g with
  | GetRaises msg => Handling msg
  | GetReturns response =>
      match status_error response with
      | Some msg => Handling msg
      | None =>
          match total_size_of response with
          | None => Handling msg_int
          | Some total_size => Opening response total_size
          end
      end
  end.

(** What the [with] block gives to [f.write], and the exception that
    ends it, if any. *)
Definition buffers_of (response : Response) (total_size : Z)
  : list (list Byte.byte) * option string :=
  if negb (total_size =? 0)%Z then
    let '(cs, err) := iter_content chunk_size response in
    (List.filter nonempty cs, err)
  else
    match response_content response with
    | inl b => ([b], None)
    | inr msg => ([], Some msg)
    end.

(** [f.write(b)] through a handle on [p]: the bytes are appended to a
    file that only this handle writes, they are lost on an unlinked
    file, and nothing is said of the content of a file that is written
    through two handles. *)
Definition lands (h : Handle) (p : Path) (b : list Byte.byte) (f f' : gmap Path Node)
  : Prop :=
  match h with
  | Sole => f' = alter (append_bytes b) p f
  | Shared => exists content, f' = <[p := File (Bytes content)]> f
  | Orphan => f' = f
  end.

Definition wrote (p : Path) (b : list Byte.byte) (f' : gmap Path Node) (w : World)
  : World :=
  {| fs := f'; http_log := http_log w; tool_log := tool_log w;
     write_log := write_log w ++ [(p, length b)] |}.

(** What a step of a thread does to the other threads that have its
    file open. *)
Inductive Effect := Quiet | Opens | Unlinks.

Definition affected (eff : Effect) (th : Thread) : Thread :=
  match eff with
  | Quiet => th
  | Opens => share th
  | Unlinks => orphan th
  end.

(** One step of a thread that runs [download_file] for the task [t];
    [open_elsewhere]: another thread has the destination open.  On
    Windows a file that is open cannot be unlinked; elsewhere it can,
    and the handles on it are orphaned. *)
Inductive thread_step (E : Env) (t : DownloadTask) (open_elsewhere : bool)
  : World -> Thread -> World -> Thread -> Effect -> Prop :=
  | step_check w :
      thread_step E t open_elsewhere w Checking
        w (if fs_exists (fs w) (task_path t)
           then Returned (skip_outcome t) else Requesting) Quiet
  | step_request w :
      thread_step E t open_elsewhere w Requesting
        (fst (session_get E (task_url t) w))
        (after_get (snd (session_get E (task_url t) w))) Quiet
  | step_open_fails w response total_size :
      fs_open (Bytes []) (fs w) (task_path t) = None ->
      thread_step E t open_elsewhere w (Opening response total_size)
        w (Handling msg_open) Quiet
  | step_open w response total_size f :
      fs_open (Bytes []) (fs w) (task_path t) = Some f ->
      thread_step E t open_elsewhere w (Opening response total_size)
        (set_fs w f)
        (Writing (if open_elsewhere then Shared else Sole)
           (fst (buffers_of response total_size))
           (snd (buffers_of response total_size))) Opens
  | step_write w h b buffers err f :
      lands h (task_path t) b (fs w) f ->
      thread_step E t open_elsewhere w (Writing h (b :: buffers) err)
        (wrote (task_path t) b f w) (Writing h buffers err) Quiet
  | step_close w h err :
      thread_step E t open_elsewhere w (Writing h [] err)
        w (match err with
           | None => Returned (Some (true, filename_of (task_url t), None))
           | Some e => Handling e
           end) Quiet
  | step_handle w e :
      thread_step E t open_elsewhere w (Handling e)
        w (if fs_exists (fs w) (task_path t) then Unlinking e
           else Returned (Some (false, filename_of (task_url t), Some e))) Quiet
  | step_unlink_fails w e :
      win32 E && open_elsewhere = true \/ fs_unlink (fs w) (task_path t) = None ->
      thread_step E t open_elsewhere w (Unlinking e) w (Returned None) Quiet
  | step_unlink w e f :
      win32 E && open_elsewhere = false ->
      fs_unlink (fs w) (task_path t) = Some f ->
      thread_step E t open_elsewhere w (Unlinking e)
        (set_fs w f) (Returned (Some (false, filename_of (task_url t), Some e))) Unlinks.

(** One step of the pool: the next task of the queue is started when a
    worker is free, or a thread makes a step. *)
Inductive pool_step (E : Env) (max_workers : Z) (tasks : list DownloadTask)
  : World * list Thread -> World * list Thread -> Prop :=
  | pool_start w threads i :
      threads !! i = Some Waiting ->
      Forall (fun th => th <> Waiting) (take i threads) ->
      (Z.of_nat (length (List.filter running threads)) < max_workers)%Z ->
      pool_step E max_workers tasks (w, threads) (w, <[i := Checking]> threads)
  | pool_act w threads i t th w' th' eff :
      tasks !! i = Some t ->
      threads !! i = Some th ->
      thread_step E t (held tasks (task_path t) threads) w th w' th' eff ->
      pool_step E max_workers tasks (w, threads)
        (w', <[i := th']> (on_path tasks (task_path t) (affected eff) threads)).

(** A run of the pool over [tasks]: from every task submitted to every
    future done, with the outcomes in the order of the tasks. *)
Definition pool_run (E : Env) (max_workers : Z) (tasks : list DownloadTask)
  (w w' : World) (os : list (option Outcome)) : Prop :=
  rtc (pool_step E max_workers tasks)
    (w, replicate (length tasks) Waiting) (w', map Returned os).

(** [download_all_drivers(categories)] with its pool, from the point
    where [get_drivers_list] has returned [drivers]: the worlds and
    results of its runs.  [ThreadPoolExecutor] raises [ValueError] when
    [max_workers] is not positive. *)
Definition download_all_drivers_in_pool (E : Env) (max_workers : Z)
  (serial_number : string) (product_info : json) (output_dir : Path)
  (drivers : list DriverRecord) (categories : option (list string))
  (w w' : World) (result : BulkResult) : Prop :=
  match drivers with
  | [] => w' = w /\ result = NoDrivers
  | _ =>
      let drivers := filter_categories categories drivers in
      match fs_mkdir_parents (fs w) output_dir with
      | None => w' = w /\ result = BulkRaised
      | Some f1 =>
          let metadata_path := joinpath output_dir manifest_name in
          match fs_open (Bytes []) f1 metadata_path with
          | None => w' = set_fs w f1 /\ result = BulkRaised
          | Some f2 =>
              let f3 := write_manifest E serial_number product_info drivers
                          metadata_path f2 in
              match prepare_tasks output_dir drivers f3 with
              | (f4, None) => w' = set_fs w f4 /\ result = BulkRaised
              | (f4, Some download_tasks) =>
                  if (max_workers <=? 0)%Z then w' = set_fs w f4 /\ result = BulkRaised
                  else exists os,
                         pool_run E max_workers download_tasks (set_fs w f4) w' os
                         /\ result = BulkDone (summarize os)
              end
          end
      end
  end.






(* ===================================================================== *)
(** ** Concrete inputs                                                    *)
(* ===================================================================== *)

Definition entry (url : string) : FileEntry :=
  {| fi_name := JStr "Setup package"; fi_url := url; fi_size := JNum 0;
     fi_sha256 := None |}.

Definition reply (header : option string) (b : list Byte.byte) : Response :=
  {| status_error := None; content_length := header; body := b; cut := None |}.

Definition three_bytes : list Byte.byte := [Byte.x4d; Byte.x5a; Byte.x90].

(** No network, no tools. *)
Definition offline : Env :=
  {| http_get := fun _ _ => GetRaises "connection refused";
     run_tool := fun _ _ f => Crashed f;
     which := fun _ => None;
     win32 := false;
     strftime_now := "2024-01-01 00:00:00" |}.

(** A server that answers every request with three bytes, except the
    requests for the mirror [a]. *)
Definition mirror_a_down : Env :=
  {| http_get := fun _ url =>
       if String.eqb url "https://host/a/x.exe" then GetRaises "connection refused"
       else GetReturns (reply (Some "3") three_bytes);
     run_tool := fun _ _ f => Crashed f;
     which := fun _ => None;
     win32 := false;
     strftime_now := "2024-01-01 00:00:00" |}.

Definition out_world : World :=
  {| fs := {[ ["out"] := Dir ]}; http_log := []; tool_log := []; write_log := [] |}.



(** A server that sends 8193 bytes without a [content-length] header. *)
Definition no_length_server : Env :=
  {| http_get := fun _ _ => GetReturns (reply None (repeat Byte.x00 8193));
     run_tool := fun _ _ f => Crashed f;
     which := fun _ => None;
     win32 := false;
     strftime_now := "2024-01-01 00:00:00" |}.

Definition bios_driver : DriverRecord :=
  {| title := "BIOS Update"; category := "BIOS"; version := JStr "1.2";
     release_date := None; files := [entry "https://host/path/bios_1.2.exe?sig=abc"] |}.

Definition audio_driver : DriverRecord :=
  {| title := "Audio Driver"; category := "Audio"; version := JStr "6.0";
     release_date := None; files := [entry "https://host/path/audio_6.0.exe"] |}.

Definition empty_world : World :=
  {| fs := ∅; http_log := []; tool_log := []; write_log := [] |}.

Definition pack (n : string) : SccmPackage :=
  {| pkg_title := ("SCCM Package " ++ n)%string; pkg_category := "Enterprise";
     pkg_files := [entry ("https://host/sccm/pack" ++ n ++ ".exe")%string] |}.

Definition five_packages : list SccmPackage :=
  [pack "1"; pack "2"; pack "3"; pack "4"; pack "5"].

(** Every tool is installed and exits with status 0 without touching
    the file system. *)
Definition tools_succeed : Env :=
  {| http_get := fun _ _ => GetReturns (reply (Some "3") three_bytes);
     run_tool := fun _ _ f => Exited 0 f;
     which := fun cmd => Some ("/usr/bin/" ++ cmd)%string;
     win32 := false;
     strftime_now := "2024-01-01 00:00:00" |}.

(** [pack5.exe] is downloaded and its directory holds a driver. *)
Definition extracted_world : World :=
  {| fs := {[ ["out"] := Dir; ["out"; "SCCM"] := Dir;
              ["out"; "SCCM"; "pack5.exe"] := File (Bytes three_bytes);
              ["out"; "SCCM"; "pack5"] := Dir;
              ["out"; "SCCM"; "pack5"; "net.inf"] := File (Bytes three_bytes) ]};
     http_log := []; tool_log := []; write_log := [] |}.

(** The three extractors are installed.  The outer unpack leaves the
    payload [[0]] and a [CERTIFICATE]; the cabinet extractor fails, the
    installer extractor unpacks a driver. *)
Definition inno_wins : Env :=
  {| http_get := fun _ _ => GetRaises "connection refused";
     run_tool := fun _ argv f =>
       match argv with
       | "7z" :: "x" :: "-y" :: _ :: [_] =>
           Exited 0 (<[ ["x"; "[0]"] := File (Bytes three_bytes) ]>
                       (<[ ["x"; "CERTIFICATE"] := File (Bytes three_bytes) ]> f))
       | "/usr/bin/cabextract" :: _ => Exited 1 f
       | "/usr/bin/innoextract" :: _ =>
           Exited 0 (<[ ["x"; "net.inf"] := File (Bytes three_bytes) ]> f)
       | _ => Exited 2 f
       end;
     which := fun cmd => Some ("/usr/bin/" ++ cmd)%string;
     win32 := false;
     strftime_now := "2024-01-01 00:00:00" |}.

Definition x_world : World :=
  {| fs := {[ ["x"] := Dir; ["x.exe"] := File (Bytes three_bytes) ]};
     http_log := []; tool_log := []; write_log := [] |}.

(** A reply of the primary shape: one item with two files, one of them
    without a URL, and one item whose only file has no URL. *)
Definition primary_reply : json :=
  JObj [("body", JObj [("DownloadItems", JArr [
     JObj [("Title", JStr "BIOS Update");
           ("Category", JObj [("Name", JStr "BIOS")]);
           ("Files", JArr [JObj [("Name", JStr "README"); ("URL", JStr "")];
                           JObj [("Name", JStr "BIOS Update Utility");
                                 ("URL", JStr "https://host/path/bios_1.2.exe")]])];
     JObj [("Title", JStr "Notes"); ("Files", JArr [JObj [("Name", JStr "README")]])]])])].

(** The general-purpose tool is installed and fails without writing
    anything. *)
Definition sevenz_fails : Env :=
  {| http_get := fun _ _ => GetRaises "connection refused";
     run_tool := fun _ _ f => Exited 2 f;
     which := fun cmd => if String.eqb cmd "7z" then Some "/usr/bin/7z" else None;
     win32 := false;
     strftime_now := "2024-01-01 00:00:00" |}.

(** [pack5.exe] is downloaded and not extracted. *)
Definition downloaded_world : World :=
  {| fs := {[ ["out"] := Dir; ["out"; "SCCM"] := Dir;
              ["out"; "SCCM"; "pack5.exe"] := File (Bytes three_bytes) ]};
     http_log := []; tool_log := []; write_log := [] |}.

(** The three extractors are installed.  The outer unpack leaves the
    payload [[0]]; the cabinet extractor runs into its timeout, the
    installer extractor would unpack a driver. *)
Definition cab_times_out : Env :=
  {| http_get := fun _ _ => GetRaises "connection refused";
     run_tool := fun _ argv f =>
       match argv with
       | "7z" :: "x" :: "-y" :: _ :: [_] =>
           Exited 0 (<[ ["x"; "[0]"] := File (Bytes three_bytes) ]> f)
       | "/usr/bin/cabextract" :: _ => TimedOut f
       | "/usr/bin/innoextract" :: _ =>
           Exited 0 (<[ ["x"; "net.inf"] := File (Bytes three_bytes) ]> f)
       | _ => Exited 2 f
       end;
     which := fun cmd => Some ("/usr/bin/" ++ cmd)%string;
     win32 := false;
     strftime_now := "2024-01-01 00:00:00" |}.

(* ===================================================================== *)
(** * Properties                                                          *)
(* ===================================================================== *)

(** ** The transfer of one file *)

(** *** Chunks *)

Lemma chunks_aux_concat n room cur l :
  concat (chunks_aux n room cur l) = rev cur ++ l.
Proof.
  revert room cur. induction l as [|x l IH]; intros room cur; simpl.
  - destruct cur; simpl; [reflexivity|]. by rewrite !app_nil_r.
  - destruct room; simpl.
    + rewrite IH. simpl. reflexivity.
    + rewrite IH. simpl. by rewrite <- app_assoc.
Qed.

Lemma chunks_aux_bound n room cur l :
  (0 < n)%nat -> (length cur + room = n)%nat ->
  Forall (fun c => (length c <= n)%nat) (chunks_aux n room cur l).
Proof.
  intros Hn. revert room cur. induction l as [|x l IH]; intros room cur Hinv; simpl.
  - destruct cur; constructor; [|constructor]. rewrite length_rev. lia.
  - destruct room.
    + constructor. { rewrite length_rev. lia. }
      apply IH. simpl. lia.
    + apply IH. simpl. lia.
Qed.

Lemma iter_content_complete n r cs :
  cut r = None -> iter_content n r = (cs, None) -> concat cs = body r.
Proof.
  unfold iter_content. intros ->. intros [= <-]. by rewrite chunks_aux_concat.
Qed.

Lemma iter_content_bound n r :
  (0 < n)%nat -> Forall (fun c => (length c <= n)%nat) (fst (iter_content n r)).
Proof.
  intros Hn. unfold iter_content.
  pose proof (chunks_aux_bound n n [] (body r) Hn eq_refl) as H.
  destruct (cut r) as [[k msg]|]; simpl; [|exact H].
  apply Forall_take. exact H.
Qed.

(** *** Writing *)

Lemma f_write_fs p b b0 w :
  fs w !! p = Some (File (Bytes b0)) ->
  fs (f_write p b w) = <[p := File (Bytes (b0 ++ b))]> (fs w).
Proof.
  intros H. unfold f_write; simpl. apply map_eq. intros q.
  destruct (decide (p = q)) as [<-|Hne].
  - rewrite lookup_alter_eq, lookup_insert_eq, H. reflexivity.
  - rewrite lookup_alter_ne, lookup_insert_ne by done. reflexivity.
Qed.

Lemma write_chunks_spec p cs : forall w b0,
  fs w !! p = Some (File (Bytes b0)) ->
  fs (write_chunks p cs w) = <[p := File (Bytes (b0 ++ concat cs))]> (fs w)
  /\ http_log (write_chunks p cs w) = http_log w
  /\ tool_log (write_chunks p cs w) = tool_log w
  /\ write_log (write_chunks p cs w)
     = write_log w ++ map (fun c => (p, length c)) (List.filter nonempty cs).
Proof.
  induction cs as [|c cs IH]; intros w b0 H; simpl.
  - rewrite !app_nil_r. split; [|done]. symmetry. by apply insert_id.
  - destruct c as [|x c].
    + destruct (IH w b0 H) as (-> & -> & -> & ->). simpl. done.
    + assert (Hw : fs (f_write p (x :: c) w) !! p = Some (File (Bytes (b0 ++ x :: c)))).
      { rewrite (f_write_fs _ _ b0) by done. apply lookup_insert_eq. }
      destruct (IH _ _ Hw) as (-> & -> & -> & ->).
      rewrite (f_write_fs _ _ b0) by done. rewrite insert_insert_eq.
      simpl. rewrite <- !app_assoc. simpl. done.
Qed.

(** *** The [try] of [download_file] *)

Lemma fs_open_Some c f p f' :
  fs_open c f p = Some f' -> f' = <[p := File c]> f.
Proof.
  unfold fs_open. destruct (fs_lookup f p) as [[|]|]; try discriminate;
    destruct (is_dir f (parent p)); congruence.
Qed.

(** The steps of the body of a [try] up to the opening of the file;
    [early] closes the goals of the exits before it. *)
Ltac enter_try r ts f2 Ho early :=
  unfold download_file_try, sccm_download_try, session_get;
  destruct (http_get _ _ _) as [?|r]; [early|];
  destruct (status_error r) eqn:?; [early|];
  destruct (total_size_of r) as [ts|] eqn:?; [|early];
  destruct (fs_open _ _ _) as [f2|] eqn:Ho; [|early];
  apply fs_open_Some in Ho; simpl in Ho.

(** The file just opened is there, empty. *)
Ltac opened f2 := simpl; subst f2; apply lookup_insert_eq.

Lemma download_file_try_logs E url p w w' res :
  download_file_try E url p w = (w', res) ->
  http_log w' = http_log w ++ [url] /\ tool_log w' = tool_log w.
Proof.
  enter_try r ts f2 Ho ltac:(intros [= <- <-]; done).
  destruct (negb (ts =? 0)%Z).
  - destruct (iter_content chunk_size r) as [cs err]. intros [= <- <-].
    edestruct (write_chunks_spec p cs) as (_ & -> & -> & _); [|done].
    opened f2.
  - destruct (response_content r); intros [= <- <-]; done.
Qed.

Lemma download_file_try_fs E url p w w' res :
  download_file_try E url p w = (w', res) ->
  fs w' = fs w \/ exists b, fs w' = <[p := File (Bytes b)]> (fs w).
Proof.
  enter_try r ts f2 Ho ltac:(intros [= <- <-]; by left).
  destruct (negb (ts =? 0)%Z).
  - destruct (iter_content chunk_size r) as [cs err]. intros [= <- <-]. right.
    edestruct (write_chunks_spec p cs) as (-> & _); [opened f2|].
    simpl. subst f2. rewrite insert_insert_eq. eauto.
  - destruct (response_content r); intros [= <- <-]; right.
    + rewrite (f_write_fs _ _ []); [|opened f2].
      simpl. subst f2. rewrite insert_insert_eq. eauto.
    + simpl. subst; eauto.
Qed.

Lemma chunk_size_pos : (0 < chunk_size)%nat.
Proof. apply Nat.ltb_lt. vm_compute. reflexivity. Qed.

Lemma download_file_try_success E url p w w' :
  download_file_try E url p w = (w', None) -> transferred E url p w w'.
Proof.
  unfold transferred. enter_try r ts f2 Ho discriminate.
  destruct (negb (ts =? 0)%Z) eqn:Hz.
  - destruct (iter_content chunk_size r) as [cs err] eqn:Hi. intros [= <- ->].
    assert (Hcut : cut r = None).
    { unfold iter_content in Hi. destruct (cut r) as [[k m]|]; [discriminate|done]. }
    pose proof (iter_content_complete _ _ _ Hcut Hi) as Hbody.
    pose proof (iter_content_bound chunk_size r chunk_size_pos) as Hb.
    rewrite Hi in Hb. simpl in Hb.
    match goal with |- context [write_chunks p cs ?w1] =>
      destruct (write_chunks_spec p cs w1 []) as (Hf & _ & _ & Hw); [opened f2|]
    end.
    exists r, ts, (map (fun c => (p, length c)) (List.filter nonempty cs)).
    repeat split; try done.
    + rewrite Hf. simpl. subst f2. rewrite insert_insert_eq, Hbody. done.
    + intros _. apply Forall_map. simpl.
      apply Forall_forall. intros c Hc%list_elem_of_In%filter_In.
      rewrite Forall_forall in Hb. apply Hb. apply list_elem_of_In. tauto.
    + intros ->. discriminate.
  - unfold response_content. destruct (cut r) as [[k m]|] eqn:Hcut; [discriminate|].
    intros [= <-]. exists r, ts, [(p, length (body r))].
    repeat split; try done.
    + rewrite (f_write_fs _ _ []); [|opened f2].
      simpl. subst f2. by rewrite insert_insert_eq.
    + intros Hne. apply negb_false_iff, Z.eqb_eq in Hz. done.
Qed.

(** *** [download_file] *)

Lemma fs_exists_false f p : fs_exists f p = false -> f !! p = None /\ p <> [].
Proof.
  unfold fs_exists, fs_lookup. intros H. destruct p; [discriminate|].
  revert H. simpl. destruct (f !! (s :: p)); [discriminate|done].
Qed.

Lemma fs_exists_insert f p n : p <> [] -> fs_exists (<[p := n]> f) p = true.
Proof.
  intros Hp. unfold fs_exists, fs_lookup. destruct p; [done|].
  by rewrite lookup_insert_eq.
Qed.

Lemma fs_exists_mono f f' p : f ⊆ f' -> fs_exists f p = true -> fs_exists f' p = true.
Proof.
  intros Hsub. unfold fs_exists, fs_lookup. destruct p; [done|]. simpl.
  destruct (f !! (s :: p)) eqn:H; [|discriminate].
  intros _. by rewrite (lookup_weaken _ _ _ _ H Hsub).
Qed.

Lemma unlink_after_try p w w' :
  fs_exists (fs w) p = false ->
  fs w' = fs w \/ (exists b, fs w' = <[p := File (Bytes b)]> (fs w)) ->
  exists w'', unlink_if_exists p w' = Some w'' /\ fs w'' = fs w
    /\ http_log w'' = http_log w' /\ tool_log w'' = tool_log w'
    /\ write_log w'' = write_log w'.
Proof.
  intros [Hnone Hp]%fs_exists_false [Hfs|[b Hfs]]; unfold unlink_if_exists.
  - assert (fs_exists (fs w') p = false) as ->.
    { rewrite Hfs. unfold fs_exists, fs_lookup. destruct p; [done|]. by rewrite Hnone. }
    eauto 10.
  - rewrite Hfs, fs_exists_insert by done. unfold fs_unlink.
    rewrite lookup_insert_eq. simpl. eexists; split; [reflexivity|].
    simpl. by rewrite delete_insert_id.
Qed.

Lemma download_file_cases E file_info category_dir w :
  download_file_ends E file_info category_dir w
    (fst (download_file E file_info category_dir w))
    (snd (download_file E file_info category_dir w)).
Proof.
  unfold download_file.
  destruct (fs_exists _ _) eqn:Hex; [by constructor|].
  destruct (download_file_try E _ _ w) as [w' [e|]] eqn:Htry.
  - destruct (unlink_after_try _ w w' Hex (download_file_try_fs _ _ _ _ _ _ Htry))
      as (w'' & -> & Hfs & Hh & Ht & _).
    destruct (download_file_try_logs _ _ _ _ _ _ Htry) as [Hh' Ht'].
    simpl. constructor; congruence.
  - destruct (download_file_try_logs _ _ _ _ _ _ Htry) as [Hh' Ht'].
    simpl. constructor; try done. by apply download_file_try_success.
Qed.

Lemma download_file_mono E file_info category_dir w :
  fs w ⊆ fs (fst (download_file E file_info category_dir w)).
Proof.
  destruct (download_file_cases E file_info category_dir w)
    as [|w' Hex (r & ts & new & _ & _ & _ & _ & Hfs & _)|w' e Hex Hfs]; try done.
  - rewrite Hfs. apply insert_subseteq. by apply fs_exists_false in Hex as [? _].
  - by rewrite Hfs.
Qed.

(** *** The batch *)

Lemma run_tasks_cons E t rest w :
  run_tasks E (t :: rest) w =
  (fst (run_tasks E rest (fst (download_file E (fst (fst t)) (snd (fst t)) w))),
   snd (download_file E (fst (fst t)) (snd (fst t)) w)
   :: snd (run_tasks E rest (fst (download_file E (fst (fst t)) (snd (fst t)) w)))).
Proof.
  destruct t as [[file_info category_dir] ttl]. simpl.
  destruct (download_file E file_info category_dir w) as [w1 o]. simpl.
  destruct (run_tasks E rest w1). reflexivity.
Qed.

Lemma run_tasks_length E tasks : forall w,
  length (snd (run_tasks E tasks w)) = length tasks.
Proof.
  induction tasks as [|t rest IH]; intros w; [reflexivity|].
  rewrite run_tasks_cons. simpl. by rewrite IH.
Qed.

Lemma run_tasks_mono E tasks : forall w, fs w ⊆ fs (fst (run_tasks E tasks w)).
Proof.
  induction tasks as [|t rest IH]; intros w; [reflexivity|].
  rewrite run_tasks_cons. simpl. etrans; [|apply IH]. apply download_file_mono.
Qed.

Lemma is_skipped_not_failed o : is_skipped o = true -> is_failed o = false.
Proof. destruct o as [[[[] ?] ?]|]; simpl; congruence. Qed.

(** A task whose destination exists when the batch starts is skipped. *)
Lemma run_tasks_skips E tasks : forall w i t,
  tasks !! i = Some t ->
  fs_exists (fs w) (task_path t) = true ->
  snd (run_tasks E tasks w) !! i = Some (skip_outcome t).
Proof.
  induction tasks as [|t0 rest IH]; intros w i t Hi Hex; [done|].
  rewrite run_tasks_cons. destruct i as [|i]; simpl in *.
  - injection Hi as ->. unfold download_file. unfold task_path in Hex.
    rewrite Hex. reflexivity.
  - apply IH; [done|]. eapply fs_exists_mono; [apply download_file_mono|done].
Qed.

(** The destination of a task that did not fail exists when the batch
    is over. *)
Lemma run_tasks_exists_after E tasks : forall w i t o,
  tasks !! i = Some t ->
  snd (run_tasks E tasks w) !! i = Some o ->
  is_failed o = false ->
  fs_exists (fs (fst (run_tasks E tasks w))) (task_path t) = true.
Proof.
  induction tasks as [|t0 rest IH]; intros w i t o Hi Ho Hnf; [done|].
  rewrite run_tasks_cons in *. destruct i as [|i]; simpl in *.
  - injection Hi as ->. injection Ho as Ho.
    eapply fs_exists_mono; [apply run_tasks_mono|].
    destruct (download_file_cases E (fst (fst t)) (snd (fst t)) w)
      as [Hex|w' Hex (r & ts & new & _ & _ & _ & _ & Hfs & _)|w' e Hex Hfs];
      rewrite <- Ho in Hnf; try done.
    unfold task_path. rewrite Hfs. apply fs_exists_insert.
    by apply fs_exists_false in Hex as [_ ?].
  - eapply IH; eauto.
Qed.

(** The requests of a run are those of its tasks that were not skipped. *)
Lemma run_tasks_requests E tasks : forall w,
  http_log (fst (run_tasks E tasks w))
  = http_log w ++ requests_of tasks (snd (run_tasks E tasks w)).
Proof.
  induction tasks as [|t rest IH]; intros w; [simpl; by rewrite app_nil_r|].
  rewrite run_tasks_cons. simpl. rewrite IH.
  destruct (download_file_cases E (fst (fst t)) (snd (fst t)) w)
    as [Hex|w' Hex _ Hlog _|w' e Hex _ Hlog _]; simpl; try done.
  - rewrite Hlog, <- app_assoc. done.
  - rewrite Hlog, <- app_assoc. done.
Qed.

(** When every destination exists, the batch changes nothing. *)
Lemma run_tasks_idle E tasks : forall w,
  Forall (fun t => fs_exists (fs w) (task_path t) = true) tasks ->
  run_tasks E tasks w = (w, map skip_outcome tasks).
Proof.
  induction tasks as [|t rest IH]; intros w H; [reflexivity|].
  inversion H as [|? ? Ht Hrest]; subst.
  rewrite run_tasks_cons. unfold download_file. unfold task_path in Ht. rewrite Ht.
  simpl. rewrite IH by done. reflexivity.
Qed.

Lemma requests_of_skipped tasks :
  requests_of tasks (map skip_outcome tasks) = [].
Proof. induction tasks; simpl; done. Qed.

(** A path that does not exist before the batch does not exist after
    it, unless a task with that destination completed. *)
Lemma run_tasks_absent E tasks : forall w p,
  fs_exists (fs w) p = false ->
  fs_exists (fs (fst (run_tasks E tasks w))) p = false
  \/ exists j t o, tasks !! j = Some t /\ task_path t = p
       /\ snd (run_tasks E tasks w) !! j = Some o /\ is_completed o = true.
Proof.
  induction tasks as [|t rest IH]; intros w p Hp; [by left|].
  rewrite run_tasks_cons. simpl.
  destruct (download_file_cases E (fst (fst t)) (snd (fst t)) w)
    as [Hex|w' Hex (r & ts & new & _ & _ & _ & _ & Hfs & _)|w' e Hex Hfs].
  - destruct (IH w p Hp) as [?|(j & t' & o & ? & ? & ? & ?)]; [by left|].
    right. exists (S j), t', o. done.
  - destruct (decide (task_path t = p)) as [Heq|Hne].
    + right. exists 0%nat, t. eexists. simpl. repeat split; try done.
    + assert (Hp' : fs_exists (fs w') p = false).
      { rewrite Hfs. revert Hp. unfold fs_exists, fs_lookup.
        destruct p; [done|]. rewrite lookup_insert_ne; done. }
      destruct (IH w' p Hp') as [?|(j & t' & o & ? & ? & ? & ?)]; [by left|].
      right. exists (S j), t', o. done.
  - assert (Hp' : fs_exists (fs w') p = false) by (by rewrite Hfs).
    destruct (IH w' p Hp') as [?|(j & t' & o & ? & ? & ? & ?)]; [by left|].
    right. exists (S j), t', o. done.
Qed.

(** *** The download loop of the specialized-package workflow *)

Lemma sccm_download_try_logs E url p w w' res :
  sccm_download_try E url p w = (w', res) ->
  http_log w' = http_log w ++ [url] /\ tool_log w' = tool_log w.
Proof.
  enter_try r ts f2 Ho ltac:(intros [= <- <-]; done).
  destruct (iter_content chunk_size r) as [cs err]. intros [= <- <-].
  match goal with |- context [write_chunks p cs ?w1] =>
    destruct (write_chunks_spec p cs w1 []) as (_ & -> & -> & _); [opened f2|done]
  end.
Qed.

Lemma sccm_download_try_fs E url p w w' res :
  sccm_download_try E url p w = (w', res) ->
  (fs w' = fs w /\ res <> None)
  \/ exists b, fs w' = <[p := File (Bytes b)]> (fs w).
Proof.
  enter_try r ts f2 Ho ltac:(intros [= <- <-]; by left).
  destruct (iter_content chunk_size r) as [cs err]. intros [= <- <-]. right.
  match goal with |- context [write_chunks p cs ?w1] =>
    destruct (write_chunks_spec p cs w1 []) as (-> & _); [opened f2|]
  end.
  simpl. subst f2. rewrite insert_insert_eq. eauto.
Qed.

Lemma sccm_download_one_cases E sccm_dir file_info w downloaded_files :
  sccm_turn_ends E sccm_dir file_info w downloaded_files
    (fst (sccm_download_one E sccm_dir file_info w downloaded_files))
    (snd (sccm_download_one E sccm_dir file_info w downloaded_files)).
Proof.
  unfold sccm_download_one. fold (sccm_path sccm_dir file_info).
  destruct (fs_exists _ _) eqn:Hex; [by constructor|].
  destruct (sccm_download_try E _ _ w) as [w' [e|]] eqn:Htry.
  - assert (Hfs : fs w' = fs w \/ exists b, fs w' = <[sccm_path sccm_dir file_info := File (Bytes b)]> (fs w)).
    { destruct (sccm_download_try_fs _ _ _ _ _ _ Htry) as [[? _]|?]; eauto. }
    destruct (unlink_after_try _ w w' Hex Hfs) as (w'' & -> & Hfs' & Hh & _).
    destruct (sccm_download_try_logs _ _ _ _ _ _ Htry) as [Hh' _].
    simpl. constructor; congruence.
  - destruct (sccm_download_try_logs _ _ _ _ _ _ Htry) as [Hh' _].
    destruct (sccm_download_try_fs _ _ _ _ _ _ Htry) as [[_ ?]|[b Hb]]; [done|].
    simpl. econstructor; eauto.
Qed.



(** When every destination exists the loop only extends
    [downloaded_files]. *)
Lemma sccm_download_loop_idle E sccm_dir todo : forall w downloaded_files,
  Forall (fun file_info => fs_exists (fs w) (sccm_path sccm_dir file_info) = true) todo ->
  sccm_download_loop E sccm_dir todo w downloaded_files
  = (w, Some (downloaded_files ++ map (sccm_path sccm_dir) todo)).
Proof.
  induction todo as [|file_info rest IH]; intros w dl H; simpl.
  - by rewrite app_nil_r.
  - inversion H as [|? ? Hf Hrest]; subst. unfold sccm_download_one.
    fold (sccm_path sccm_dir file_info). rewrite Hf.
    rewrite IH by done. by rewrite <- app_assoc.
Qed.

(** ** The worker pool *)

(** *** The threads of a path *)

Lemma on_path_lookup tasks p f threads j :
  on_path tasks p f threads !! j
  = (fun th => match tasks !! j with
               | Some t => if decide (task_path t = p) then f th else th
               | None => th
               end) <$> threads !! j.
Proof. unfold on_path. by rewrite list_lookup_imap. Qed.




Lemma on_path_fixed tasks p f threads :
  (forall j th, threads !! j = Some th -> f th = th) ->
  on_path tasks p f threads = threads.
Proof.
  intros Hf. apply list_eq. intros j. rewrite on_path_lookup.
  destruct (threads !! j) as [th|] eqn:Hth; [|done]. simpl.
  destruct (tasks !! j) as [t|]; [|done].
  destruct (decide (task_path t = p)); [|done]. by rewrite (Hf j th Hth).
Qed.


(** *** What a step of a thread touches *)







Lemma affected_quiet tasks p threads : on_path tasks p (affected Quiet) threads = threads.
Proof. by apply on_path_fixed. Qed.



(** *** A file that exists is skipped, whatever the schedule *)







(** *** A task that is alone with its destination *)












(** *** The schedule that runs the tasks one after the other *)

Lemma write_chunks_fold p cs : forall w,
  write_chunks p cs w = fold_left (fun w b => f_write p b w) (List.filter nonempty cs) w.
Proof.
  induction cs as [|c cs IH]; intros w; simpl; [done|].
  rewrite IH. by destruct c.
Qed.

Lemma idle_not_holding th : running th = false -> holds th = false.
Proof. by destruct th as [| | | |[]| | |]. Qed.

Lemma idle_not_affected eff th : holds th = false -> affected eff th = th.
Proof. by destruct eff, th as [| | | |[]| | |]. Qed.

Lemma held_idle tasks p threads i th :
  Forall (fun th => running th = false) threads -> holds th = false ->
  held tasks p (<[i := th]> threads) = false.
Proof.
  intros Hall Hh. unfold held.
  destruct (existsb _ _) eqn:He; [|done].
  apply existsb_exists in He as ([t' th'] & Hin & Hc). simpl in Hc.
  apply andb_true_iff in Hc as [_ Hh'].
  apply list_elem_of_In, list_elem_of_lookup in Hin as [j Hj].
  apply lookup_zip_with_Some in Hj as (t0 & th0 & [= <- <-] & _ & Hj2).
  destruct (decide (j = i)) as [->|Hne].
  - apply list_lookup_insert_Some in Hj2 as [(_ & <- & _)|[? _]]; congruence.
  - rewrite list_lookup_insert_ne in Hj2 by done.
    rewrite Forall_lookup in Hall. apply Hall in Hj2. apply idle_not_holding in Hj2.
    congruence.
Qed.

(** A step of a thread while every other thread waits or is done. *)
Lemma pool_act_alone E max_workers tasks i t threads w th w' th' eff :
  tasks !! i = Some t -> (i < length threads)%nat ->
  Forall (fun th => running th = false) threads ->
  thread_step E t (held tasks (task_path t) (<[i := th]> threads)) w th w' th' eff ->
  eff = Quiet \/ holds th = false ->
  pool_step E max_workers tasks (w, <[i := th]> threads) (w', <[i := th']> threads).
Proof.
  intros Ht Hi Hall Hstep Heff.
  assert (Hfix : on_path tasks (task_path t) (affected eff) (<[i := th]> threads)
                 = <[i := th]> threads).
  { destruct Heff as [->|Hh]; [apply affected_quiet|].
    apply on_path_fixed. intros j thj Hj. apply idle_not_affected.
    destruct (decide (j = i)) as [->|Hne].
    - rewrite list_lookup_insert_eq in Hj by done. congruence.
    - rewrite list_lookup_insert_ne in Hj by done.
      rewrite Forall_lookup in Hall. by eapply idle_not_holding, Hall. }
  replace (<[i := th']> threads) with (<[i := th']> (<[i := th]> threads))
    by apply list_insert_insert_eq.
  rewrite <- Hfix at 2.
  apply (pool_act E max_workers tasks w (<[i := th]> threads) i t th w' th' eff);
    [done| |done].
  by apply list_lookup_insert_eq.
Qed.

Section Alone.
Variable E : Env.
Variable max_workers : Z.
Variable tasks : list DownloadTask.
Variable i : nat.
Variable t : DownloadTask.
Variable threads : list Thread.
Hypothesis Ht : tasks !! i = Some t.
Hypothesis Hi : (i < length threads)%nat.
Hypothesis Hall : Forall (fun th => running th = false) threads.

Ltac alone_step c :=
  eapply pool_act_alone;
  [exact Ht|exact Hi|exact Hall|c|first [by left|by right]].

Lemma writes_alone buffers err : forall w,
  rtc (pool_step E max_workers tasks)
    (w, <[i := Writing Sole buffers err]> threads)
    (fold_left (fun w b => f_write (task_path t) b w) buffers w,
     <[i := Writing Sole [] err]> threads).
Proof using Ht Hi Hall.
  induction buffers as [|b buffers IH]; intros w; simpl; [done|].
  eapply rtc_l; [|apply IH].
  alone_step ltac:(apply (step_write E t _ w Sole b buffers err
                            (alter (append_bytes b) (task_path t) (fs w))); reflexivity).
Qed.

Lemma handler_alone e w :
  rtc (pool_step E max_workers tasks)
    (w, <[i := Handling e]> threads)
    (match unlink_if_exists (task_path t) w with
     | Some w' => (w', <[i := Returned (Some (false, filename_of (task_url t), Some e))]> threads)
     | None => (w, <[i := Returned None]> threads)
     end).
Proof using Ht Hi Hall.
  unfold unlink_if_exists.
  eapply rtc_l; [alone_step ltac:(apply step_handle)|].
  destruct (fs_exists (fs w) (task_path t)); [|done].
  destruct (fs_unlink (fs w) (task_path t)) as [f|] eqn:Hu; simpl.
  - apply rtc_once.
    alone_step ltac:(apply step_unlink;
                     [rewrite held_idle by done; apply andb_false_r|exact Hu]).
  - apply rtc_once. alone_step ltac:(apply step_unlink_fails; by right).
Qed.

Lemma try_alone w :
  rtc (pool_step E max_workers tasks)
    (w, <[i := Requesting]> threads)
    (fst (download_file_try E (task_url t) (task_path t) w),
     <[i := match snd (download_file_try E (task_url t) (task_path t) w) with
            | None => Returned (Some (true, filename_of (task_url t), None))
            | Some e => Handling e
            end]> threads).
Proof using Ht Hi Hall.
  eapply rtc_l; [alone_step ltac:(apply step_request)|].
  unfold download_file_try, after_get. simpl.
  set (w1 := {| fs := fs w; http_log := http_log w ++ [task_url t];
                tool_log := tool_log w; write_log := write_log w |}).
  destruct (http_get E (length (http_log w)) (task_url t)) as [msg|r]; simpl; [done|].
  destruct (status_error r) as [msg|]; simpl; [done|].
  destruct (total_size_of r) as [total_size|] eqn:Hts; simpl; [|done].
  destruct (fs_open (Bytes []) (fs w) (task_path t)) as [f|] eqn:Hopen; simpl.
  - eapply rtc_l.
    { alone_step ltac:(rewrite held_idle by done;
                       apply (step_open E t false w1 r total_size f); exact Hopen). }
    cbv iota. etrans; [apply writes_alone|].
    unfold buffers_of.
    destruct (negb (total_size =? 0)%Z).
    + destruct (iter_content chunk_size r) as [cs err]. simpl.
      rewrite write_chunks_fold. apply rtc_once.
      destruct err; alone_step ltac:(apply step_close).
    + destruct (response_content r) as [b|msg]; simpl; apply rtc_once;
        alone_step ltac:(apply step_close).
  - apply rtc_once.
    alone_step ltac:(by apply (step_open_fails E t _ w1 r total_size)).
Qed.

(** The thread runs [download_file] from its first step to its last. *)
Lemma download_file_alone w :
  rtc (pool_step E max_workers tasks)
    (w, <[i := Checking]> threads)
    (fst (download_file E (fst (fst t)) (snd (fst t)) w),
     <[i := Returned (snd (download_file E (fst (fst t)) (snd (fst t)) w))]> threads).
Proof using Ht Hi Hall.
  eapply rtc_l; [alone_step ltac:(apply step_check)|].
  unfold download_file. fold (task_url t).
  change (joinpath (snd (fst t)) (filename_of (task_url t))) with (task_path t).
  destruct (fs_exists (fs w) (task_path t)); [done|].
  etrans; [apply try_alone|].
  destruct (download_file_try E (task_url t) (task_path t) w) as [w1 [e|]]; simpl; [|done].
  pose proof (handler_alone e w1) as H.
  destruct (unlink_if_exists (task_path t) w1); exact H.
Qed.
End Alone.

Lemma filter_running_idle threads :
  Forall (fun th => running th = false) threads -> List.filter running threads = [].
Proof.
  induction 1 as [|th threads Hth _ IH]; simpl; [done|]. by rewrite Hth.
Qed.

Lemma sequential_from E max_workers tasks :
  (0 < max_workers)%Z ->
  forall rest done os w,
    tasks = done ++ rest -> length os = length done ->
    rtc (pool_step E max_workers tasks)
      (w, map Returned os ++ replicate (length rest) Waiting)
      (fst (run_tasks E rest w), map Returned (os ++ snd (run_tasks E rest w))).
Proof.
  intros Hmw. induction rest as [|t rest IH]; intros done os w Htasks Hlen.
  - simpl. by rewrite !app_nil_r.
  - rewrite run_tasks_cons. simpl.
    set (threads := map Returned os ++ Waiting :: replicate (length rest) Waiting).
    assert (Hidle : Forall (fun th => running th = false) threads).
    { apply Forall_app. split; [by apply Forall_map, Forall_true|].
      constructor; [done|]. by apply Forall_replicate. }
    assert (Hi : (length os < length threads)%nat).
    { unfold threads. rewrite length_app, length_map. simpl. lia. }
    assert (Ht : tasks !! length os = Some t).
    { rewrite Htasks, Hlen. by rewrite lookup_app_r, Nat.sub_diag by lia. }
    assert (Hset : forall th, <[length os := th]> threads
                              = map Returned os ++ th :: replicate (length rest) Waiting).
    { intros th. unfold threads.
      rewrite insert_app_r_alt by (rewrite length_map; lia).
      by rewrite length_map, Nat.sub_diag. }
    eapply rtc_l.
    { apply (pool_start E max_workers tasks w threads (length os)).
      - unfold threads. rewrite lookup_app_r by (rewrite length_map; lia).
        by rewrite length_map, Nat.sub_diag.
      - unfold threads. rewrite take_app_length' by (by rewrite length_map).
        apply Forall_map. by apply Forall_true.
      - rewrite filter_running_idle by done. simpl. lia. }
    etrans; [apply (download_file_alone E max_workers tasks (length os) t threads Ht Hi Hidle)|].
    rewrite Hset.
    specialize (IH (done ++ [t])
                  (os ++ [snd (download_file E (fst (fst t)) (snd (fst t)) w)])
                  (fst (download_file E (fst (fst t)) (snd (fst t)) w))).
    rewrite map_app, <- !app_assoc in IH. simpl in IH.
    apply IH; [done|]. rewrite !length_app. simpl. lia.
Qed.

(** The tasks run one after the other: a schedule of every pool with a
    worker. *)
Lemma sequential_schedule E max_workers tasks w :
  (0 < max_workers)%Z ->
  pool_run E max_workers tasks w (fst (run_tasks E tasks w)) (snd (run_tasks E tasks w)).
Proof.
  intros Hmw. exact (sequential_from E max_workers tasks Hmw tasks [] [] w eq_refl eq_refl).
Qed.

(** *** The requests of a run *)











(** *** The pool never stops before every future is done *)




(** *** Tasks that share a destination *)



(** ** C1: files that exist are skipped *)




(** ** C2: a failed download leaves no file *)




(** ** C3: the name of the destination file *)

(** C3: for a URL whose query string holds a ['/'] the program names
    the file after the text that follows that ['/'], not after the last
    segment of the path; the destination follows. *)
Theorem filename_taken_from_query_string :
  filename_of "https://host/path/bios_1.2.exe?sig=ab/cd" = "cd"
  /\ spec_filename "https://host/path/bios_1.2.exe?sig=ab/cd" = "bios_1.2.exe"
  /\ fst (download_file mirror_a_down
            (entry "https://host/path/bios_1.2.exe?sig=ab/cd") ["out"] out_world)
     = {| fs := {[ ["out"] := Dir; ["out"; "cd"] := File (Bytes three_bytes) ]};
          http_log := ["https://host/path/bios_1.2.exe?sig=ab/cd"];
          tool_log := [];
          write_log := [(["out"; "cd"], 3%nat)] |}.
Proof.
  split; [reflexivity|]. split; [reflexivity|].
  vm_compute. reflexivity.
Qed.

(** The name of the file never depends on the declared display name. *)
Lemma download_file_ignores_display_name E file_info file_info' category_dir w :
  fi_url file_info = fi_url file_info' ->
  download_file E file_info category_dir w = download_file E file_info' category_dir w.
Proof. intros H. unfold download_file. by rewrite H. Qed.

Lemma sccm_download_ignores_display_name E sccm_dir file_info file_info' w dl :
  fi_url file_info = fi_url file_info' ->
  sccm_download_one E sccm_dir file_info w dl
  = sccm_download_one E sccm_dir file_info' w dl.
Proof. intros H. unfold sccm_download_one. by rewrite H. Qed.

(** *** Where the program and the specification agree on the name *)

Lemma str_split_nonempty sep s : str_split sep s <> [].
Proof.
  destruct s as [|c s]; simpl; [done|].
  destruct (Ascii.eqb c sep); [done|]. destruct (str_split sep s); done.
Qed.

Lemma str_split_no_sep sep s : has_char sep s = false -> str_split sep s = [s].
Proof.
  induction s as [|c s IH]; simpl; [done|].
  intros [Hc Hs]%orb_false_iff. rewrite Hc, (IH Hs). done.
Qed.

Lemma str_split_at_sep sep a b :
  has_char sep a = false ->
  str_split sep (a ++ String sep b)%string = a :: str_split sep b.
Proof.
  induction a as [|c a IH]; simpl.
  - intros _. by rewrite Ascii.eqb_refl.
  - intros [Hc Ha]%orb_false_iff. rewrite Hc, (IH Ha). done.
Qed.

Lemma str_split_app_no_sep sep p s :
  has_char sep s = false ->
  str_split sep (p ++ s)%string
  = removelast (str_split sep p) ++ [(last_item (str_split sep p) ++ s)%string].
Proof.
  intros Hs. induction p as [|c p IH]; simpl.
  - by apply str_split_no_sep.
  - rewrite IH. pose proof (str_split_nonempty sep p) as Hne.
    destruct (str_split sep p) as [|h t]; [done|].
    destruct (Ascii.eqb c sep).
    + reflexivity.
    + destruct t as [|h' t]; reflexivity.
Qed.

Lemma str_split_segments_no_char sep c s :
  has_char c s = false -> Forall (fun seg => has_char c seg = false) (str_split sep s).
Proof.
  induction s as [|c' s IH]; simpl.
  - intros _. by constructor.
  - intros [Hc Hs]%orb_false_iff. specialize (IH Hs).
    destruct (Ascii.eqb c' sep).
    + by constructor.
    + destruct (str_split sep s) as [|h t].
      * constructor; [|done]. simpl. by rewrite Hc.
      * inversion IH as [|? ? Hh Ht]; subst. constructor; [|done].
        simpl. by rewrite Hc, Hh.
Qed.

Lemma last_item_no_char sep c s :
  has_char c s = false -> has_char c (last_item (str_split sep s)) = false.
Proof.
  intros H. pose proof (str_split_segments_no_char sep c s H) as Hall.
  pose proof (str_split_nonempty sep s) as Hne.
  unfold last_item. induction Hall as [|seg l Hseg Hl IH]; [done|].
  destruct l; [done|]. apply IH. done.
Qed.

Lemma last_item_snoc l s : last_item (l ++ [s]) = s.
Proof. unfold last_item. by rewrite last_last. Qed.

(** On a URL without a query string, and on a URL whose query string
    holds no ['/'], the program derives the name the specification
    describes. *)
Lemma filename_agrees_without_query url :
  has_char "?" url = false -> filename_of url = spec_filename url.
Proof.
  intros H. unfold filename_of, spec_filename, url_basename, final_path_segment, url_path.
  rewrite (str_split_no_sep "?" url H). simpl.
  rewrite (str_split_no_sep "?" _ (last_item_no_char "/" "?" url H)). reflexivity.
Qed.

Lemma filename_agrees_without_slash_in_query p q :
  has_char "?" p = false -> has_char "/" q = false ->
  filename_of (p ++ String "?" q) = spec_filename (p ++ String "?" q).
Proof.
  intros Hp Hq.
  unfold filename_of, spec_filename, url_basename, final_path_segment, url_path.
  rewrite (str_split_app_no_sep "/" p (String "?" q)) by (simpl; exact Hq).
  rewrite last_item_snoc.
  rewrite (str_split_at_sep "?" _ q (last_item_no_char "/" "?" p Hp)).
  rewrite (str_split_at_sep "?" p q Hp). reflexivity.
Qed.

(** ** C4: how the body reaches the file *)

(** C4, counterexample: a body of 8193 bytes sent without a
    [content-length] header is given to [f.write] in one piece. *)
Lemma unknown_length_written_in_one_piece :
  ~ written_in_bounded_pieces no_length_server (entry "https://host/b/x.exe")
      ["out"] out_world.
Proof.
  intros H. destruct H as (new & Hlog & Hall); [vm_compute; reflexivity|].
  vm_compute in Hlog. subst new.
  apply Forall_inv in Hall. simpl in Hall.
  apply Nat.leb_le in Hall. vm_compute in Hall. discriminate.
Qed.

(** C4 (amended): a completed transfer has written the whole body of
    the response to the destination, whatever the [content-length]
    header; when the header holds a number other than zero the body was
    given to [f.write] in pieces of at most [chunk_size] bytes, and
    when it is absent or zero the body was given to [f.write] in one
    piece. *)
Theorem completed_transfer_writes_whole_body E file_info category_dir w :
  is_completed (snd (download_file E file_info category_dir w)) = true ->
  let w' := fst (download_file E file_info category_dir w) in
  let filepath := joinpath category_dir (filename_of (fi_url file_info)) in
  exists response total_size new,
    http_get E (length (http_log w)) (fi_url file_info) = GetReturns response
    /\ total_size_of response = Some total_size
    /\ fs w' !! filepath = Some (File (Bytes (body response)))
    /\ write_log w' = write_log w ++ new
    /\ (total_size <> 0%Z -> Forall (fun e => (snd e <= chunk_size)%nat) new)
    /\ (total_size = 0%Z -> new = [(filepath, length (body response))]).
Proof.
  intros Hc w' filepath. subst w' filepath.
  destruct (download_file_cases E file_info category_dir w)
    as [|w' Hex (r & ts & new & Hget & _ & _ & Hts & Hfs & Hlog & Hne & Hz) _ _|];
    try discriminate.
  exists r, ts, new. repeat split; try done.
  rewrite Hfs. apply lookup_insert_eq.
Qed.

Lemma completed_transfer_writes_whole_body_witness :
  is_completed (snd (download_file mirror_a_down (entry "https://host/b/x.exe")
                       ["out"] out_world)) = true
  /\ exists response total_size new,
    http_get mirror_a_down 0 "https://host/b/x.exe" = GetReturns response
    /\ total_size_of response = Some total_size
    /\ fs (fst (download_file mirror_a_down (entry "https://host/b/x.exe")
                  ["out"] out_world)) !! ["out"; "x.exe"]
       = Some (File (Bytes (body response)))
    /\ write_log (fst (download_file mirror_a_down (entry "https://host/b/x.exe")
                         ["out"] out_world)) = [] ++ new
    /\ (total_size <> 0%Z -> Forall (fun e => (snd e <= chunk_size)%nat) new)
    /\ (total_size = 0%Z -> new = [(["out"; "x.exe"], length (body response))]).
Proof.
  split; [reflexivity|].
  exact (completed_transfer_writes_whole_body mirror_a_down
           (entry "https://host/b/x.exe") ["out"] out_world eq_refl).
Defined.

(** ** C5: the manifest *)

Lemma fs_lookup_None f p : fs_lookup f p = None -> f !! p = None.
Proof. unfold fs_lookup. destruct p; [discriminate|done]. Qed.

Lemma fs_mkdir_mono f p f' : fs_mkdir f p = Some f' -> f ⊆ f'.
Proof.
  unfold fs_mkdir. destruct (fs_lookup f p) as [[|]|] eqn:Hl; try discriminate.
  - by intros [= ->].
  - destruct (is_dir f (parent p)); [|discriminate]. intros [= <-].
    apply insert_subseteq. by apply fs_lookup_None.
Qed.

Lemma prepare_tasks_mono output_dir drivers : forall f,
  f ⊆ fst (prepare_tasks output_dir drivers f).
Proof.
  induction drivers as [|d rest IH]; intros f; simpl; [done|].
  destruct (fs_mkdir f _) as [f1|] eqn:Hm; [|done].
  apply fs_mkdir_mono in Hm. specialize (IH f1).
  destruct (prepare_tasks output_dir rest f1) as [f2 [more|]]; simpl in *;
    by etrans.
Qed.

Lemma manifest_at_mono f f' output_dir m :
  f ⊆ f' -> manifest_at f output_dir = Some m -> manifest_at f' output_dir = Some m.
Proof.
  intros Hsub. unfold manifest_at.
  destruct (f !! joinpath output_dir manifest_name) as [n|] eqn:H; [|discriminate].
  by rewrite (lookup_weaken _ _ _ _ H Hsub).
Qed.

(** C5, counterexample: with the category filter [BIOS] the manifest
    lists the BIOS driver only, not the two drivers fetched. *)
Lemma manifest_omits_filtered_out_driver :
  ~ manifest_lists_fetched_drivers offline "PF1234AB" (JObj [("Id", JStr "20XX")])
      ["out"] [bios_driver; audio_driver] (Some ["BIOS"]) empty_world.
Proof.
  intros H.
  destruct (H (fst (download_all_drivers offline "PF1234AB" (JObj [("Id", JStr "20XX")])
                      ["out"] [bios_driver; audio_driver] (Some ["BIOS"]) empty_world))
              {| success_count := 0; skip_count := 0; fail_count := 1 |})
    as (m & Hm & Hd); [vm_compute; reflexivity|].
  vm_compute in Hm. injection Hm as <-. discriminate.
Qed.

(** C5 (amended): a bulk run that reaches its summary has written, at
    [driver_manifest.json] in the output directory, the serial number,
    the product descriptor, the drivers that pass the category filter
    (all the fetched drivers when no filter is given) and the time
    stamp; the manifest is in place, and no request has been made, when
    the transfers start, and it is the same after any number of them
    and at the end. *)
Theorem manifest_lists_filtered_drivers E serial_number product_info output_dir
  drivers categories w w' s :
  download_all_drivers E serial_number product_info output_dir drivers categories w
  = (w', BulkDone s) ->
  let m := {| m_serial_number := serial_number; m_product := product_info;
              m_drivers := filter_categories categories drivers;
              m_download_date := strftime_now E |} in
  (categories = None -> m_drivers m = drivers)
  /\ exists w0 download_tasks,
       manifest_at (fs w0) output_dir = Some m
       /\ http_log w0 = http_log w
       /\ w' = fst (run_tasks E download_tasks w0)
       /\ s = summarize (snd (run_tasks E download_tasks w0))
       /\ (forall k, manifest_at (fs (fst (run_tasks E (take k download_tasks) w0)))
                       output_dir = Some m)
       /\ manifest_at (fs w') output_dir = Some m.
Proof.
  intros Hrun m. split; [by intros ->|].
  unfold download_all_drivers in Hrun.
  destruct drivers as [|d0 ds]; [discriminate|].
  destruct (fs_mkdir_parents (fs w) output_dir) as [f1|]; [|discriminate].
  destruct (fs_open _ f1 _) as [f2|]; [|discriminate].
  match type of Hrun with context [prepare_tasks output_dir ?ds ?f3] =>
    pose proof (prepare_tasks_mono output_dir ds f3) as Hmono;
    destruct (prepare_tasks output_dir ds f3) as [f4 [download_tasks|]] eqn:Hprep;
      [|discriminate];
    assert (H3 : manifest_at f3 output_dir = Some m)
      by (unfold manifest_at, write_manifest; by rewrite lookup_insert_eq)
  end.
  simpl in Hmono.
  pose proof (manifest_at_mono _ _ _ _ Hmono H3) as H4.
  destruct (run_tasks E download_tasks (set_fs w f4)) as [w5 os] eqn:Hr.
  injection Hrun as <- <-.
  exists (set_fs w f4), download_tasks. rewrite Hr. simpl.
  repeat split; try done.
  - intros k. eapply manifest_at_mono; [apply run_tasks_mono|exact H4].
  - pose proof (run_tasks_mono E download_tasks (set_fs w f4)) as Hm5.
    rewrite Hr in Hm5. eapply manifest_at_mono; [exact Hm5|exact H4].
Qed.

Lemma manifest_lists_filtered_drivers_witness :
  let run := download_all_drivers offline "PF1234AB" (JObj [("Id", JStr "20XX")])
               ["out"] [bios_driver; audio_driver] (Some ["bios"]) empty_world in
  run = (fst run, BulkDone {| success_count := 0; skip_count := 0; fail_count := 1 |})
  /\ manifest_at (fs (fst run)) ["out"]
     = Some {| m_serial_number := "PF1234AB"; m_product := JObj [("Id", JStr "20XX")];
               m_drivers := [bios_driver];
               m_download_date := "2024-01-01 00:00:00" |}.
Proof.
  intros run.
  assert (H : run = (fst run, BulkDone {| success_count := 0; skip_count := 0;
                                          fail_count := 1 |}))
    by (vm_compute; reflexivity).
  split; [exact H|].
  destruct (proj2 (manifest_lists_filtered_drivers _ _ _ _ _ _ _ _ _ H))
    as (w0 & tasks & _ & _ & _ & _ & _ & Hm).
  exact Hm.
Defined.

(** ** C6: translation of the package numbers *)

(** C6: [--sccm-packages 0] over five packages is not rejected: the
    index becomes [-1], which a Python list reads from its end, and the
    fifth package is downloaded; the prompt asks again on the same
    number. *)
Theorem index_zero_selects_last_package :
  main_selected_indices (Some [0%Z]) = Some [(-1)%Z]
  /\ mapM (py_nth five_packages) [(-1)%Z] = Some [pack "5"]
  /\ snd (download_sccm_packages mirror_a_down ["out"] five_packages false
            (main_selected_indices (Some [0%Z])) [] empty_world)
     = SccmDone [["out"; "SCCM"; "pack5.exe"]]
  /\ http_log (fst (download_sccm_packages mirror_a_down ["out"] five_packages false
                      (main_selected_indices (Some [0%Z])) [] empty_world))
     = ["https://host/sccm/pack5.exe"]
  /\ forall keys, prompt_selection 5 (Line "0" :: keys) = prompt_selection 5 keys.
Proof.
  split; [reflexivity|]. split; [reflexivity|].
  split; [vm_compute; reflexivity|]. split; [vm_compute; reflexivity|].
  intros keys. reflexivity.
Qed.

(** *** What the selection does on the inputs of the specification *)

(** ["1,3"] over five packages is [0, 2]; ["all"] is the five indices. *)
Lemma selection_translates_indices keys :
  prompt_selection 5 (Line "1,3" :: keys) = Chosen [0%Z; 2%Z]
  /\ prompt_selection 5 (Line "all" :: keys) = Chosen [0%Z; 1%Z; 2%Z; 3%Z; 4%Z].
Proof. split; reflexivity. Qed.

(** ["none"] ends the workflow with the world untouched. *)
Lemma selection_none_cancels E output_dir p ps extract keys w :
  download_sccm_packages E output_dir (p :: ps) extract None (Line "none" :: keys) w
  = (w, SccmCancelled).
Proof. reflexivity. Qed.

(** At the prompt a number outside [1..n] is asked again. *)
Lemma selection_reprompts_out_of_range keys :
  prompt_selection 5 (Line "0" :: keys) = prompt_selection 5 keys
  /\ prompt_selection 5 (Line "6" :: keys) = prompt_selection 5 keys.
Proof. split; reflexivity. Qed.

(** [--sccm-packages 6] over five packages raises [IndexError] before
    anything is created or requested. *)
Lemma selection_six_raises E output_dir extract keys w :
  download_sccm_packages E output_dir five_packages extract
    (main_selected_indices (Some [6%Z])) keys w = (w, SccmRaised).
Proof. reflexivity. Qed.

Lemma parse_tokens_in_range n tokens : forall l,
  parse_tokens n tokens = Some l ->
  Forall (fun i => (0 <= i < Z.of_nat n)%Z) l.
Proof.
  induction tokens as [|tok rest IH]; simpl; intros l.
  - intros [= <-]. constructor.
  - destruct (String.eqb (strip tok) ""); [apply IH|].
    destruct (py_int (strip tok)) as [num|]; [|discriminate].
    destruct ((1 <=? num)%Z && (num <=? Z.of_nat n)%Z) eqn:Hr; [|discriminate].
    destruct (parse_tokens n rest) as [l'|]; [|discriminate].
    intros [= <-]. apply andb_true_iff in Hr as [H1 H2].
    constructor; [lia|]. by apply IH.
Qed.

Lemma insert_sorted_Forall (P : Z -> Prop) x l :
  P x -> Forall P l -> Forall P (insert_sorted x l).
Proof.
  intros Hx. induction 1 as [|y l Hy Hl IH]; simpl; [by repeat constructor|].
  destruct (x <? y)%Z; [by repeat constructor|].
  destruct (x =? y)%Z; by constructor.
Qed.

Lemma sorted_set_Forall (P : Z -> Prop) l : Forall P l -> Forall P (sorted_set l).
Proof.
  induction 1; simpl; [constructor|]. by apply insert_sorted_Forall.
Qed.

Lemma py_range_in_range n : Forall (fun i => (0 <= i < Z.of_nat n)%Z) (py_range n).
Proof.
  unfold py_range. apply Forall_map. apply Forall_forall.
  intros i Hi%list_elem_of_In%in_seq. simpl. lia.
Qed.

(** Every index the prompt delivers addresses one of the [n] packages. *)
Lemma prompt_selection_in_range n keys : forall l,
  prompt_selection n keys = Chosen l ->
  Forall (fun i => (0 <= i < Z.of_nat n)%Z) l.
Proof.
  induction keys as [|k keys IH]; simpl; intros l; [discriminate|].
  destruct k as [s|]; [|discriminate].
  destruct (String.eqb (lower (strip s)) "none"); [discriminate|].
  destruct (String.eqb (lower (strip s)) "all" || String.eqb (lower (strip s)) "").
  - intros [= <-]. apply py_range_in_range.
  - destruct (parse_tokens n _) as [[|i l']|] eqn:Hp; try apply IH.
    intros [= <-]. apply (sorted_set_Forall _ (i :: l')).
    by apply parse_tokens_in_range in Hp.
Qed.

(** ** C7: extraction is skipped on a populated directory *)

Lemma populated_already_extracted f d :
  populated f d -> already_extracted f d = Some true.
Proof.
  intros [Hdir (p & Hchild & [n Hn])].
  unfold already_extracted, any_iterdir, iterdir.
  assert (fs_exists f d = true) as ->.
  { unfold is_dir in Hdir. unfold fs_exists. destruct (fs_lookup f d); done. }
  rewrite Hdir. simpl.
  assert (Hin : In p (List.filter (is_child d) (map fst (map_to_list f)))).
  { apply filter_In. split; [|done]. apply in_map_iff. exists (p, n).
    split; [done|]. apply list_elem_of_In. by apply elem_of_map_to_list. }
  destruct (List.filter _ _); [destruct Hin|done].
Qed.

(** C7: an archive whose extraction directory exists and has an entry
    is passed over: the world, hence the log of tool invocations, is
    unchanged; so it is for a whole list of such archives, and for a
    second extraction of an archive whose directory the first one left
    with an entry. *)
Theorem populated_directory_skips_extraction :
  (forall E sccm_dir filepath w,
     populated (fs w) (joinpath sccm_dir (path_stem filepath)) ->
     sccm_extract_one E sccm_dir filepath w = (w, true))
  /\ (forall E sccm_dir downloaded_files w,
     Forall (fun filepath => populated (fs w) (joinpath sccm_dir (path_stem filepath)))
       downloaded_files ->
     sccm_extract_loop E sccm_dir downloaded_files w = (w, true))
  /\ (forall E sccm_dir filepath w,
     let w1 := fst (sccm_extract_one E sccm_dir filepath w) in
     populated (fs w1) (joinpath sccm_dir (path_stem filepath)) ->
     sccm_extract_one E sccm_dir filepath w1 = (w1, true)
     /\ tool_log (fst (sccm_extract_one E sccm_dir filepath w1)) = tool_log w1).
Proof.
  assert (Hone : forall E sccm_dir filepath w,
     populated (fs w) (joinpath sccm_dir (path_stem filepath)) ->
     sccm_extract_one E sccm_dir filepath w = (w, true)).
  { intros E sccm_dir filepath w Hp. unfold sccm_extract_one.
    destruct (String.eqb _ ".exe"); [|done].
    by rewrite (populated_already_extracted _ _ Hp). }
  split; [exact Hone|]. split.
  - intros E sccm_dir files w Hall. induction Hall as [|fp rest Hfp Hrest IH]; [done|].
    simpl. by rewrite (Hone E sccm_dir fp w Hfp).
  - intros E sccm_dir filepath w w1 Hp. by rewrite (Hone E sccm_dir filepath w1 Hp).
Qed.

Lemma populated_directory_skips_extraction_witness :
  populated (fs extracted_world)
    (joinpath ["out"; "SCCM"] (path_stem ["out"; "SCCM"; "pack5.exe"]))
  /\ sccm_extract_one tools_succeed ["out"; "SCCM"] ["out"; "SCCM"; "pack5.exe"]
       extracted_world = (extracted_world, true).
Proof.
  assert (H : populated (fs extracted_world)
                (joinpath ["out"; "SCCM"] (path_stem ["out"; "SCCM"; "pack5.exe"]))).
  { split; [vm_compute; reflexivity|].
    exists ["out"; "SCCM"; "pack5"; "net.inf"]. split; [vm_compute; reflexivity|].
    vm_compute. eexists. reflexivity. }
  split; [exact H|].
  exact (proj1 populated_directory_skips_extraction tools_succeed ["out"; "SCCM"]
           ["out"; "SCCM"; "pack5.exe"] extracted_world H).
Defined.

(** ** C8: the order of the stage-2 extractors *)

Lemma is_file_delete (f : gmap Path Node) p q :
  is_file (delete p f) q = true -> is_file f q = true.
Proof.
  unfold is_file, fs_lookup. destruct q; [done|].
  destruct (decide (p = s :: q)) as [->|Hne].
  - by rewrite lookup_delete_eq.
  - by rewrite lookup_delete_ne.
Qed.

Lemma cleanup_step_logs extract_dir w artifact :
  tool_log (cleanup_step extract_dir w artifact) = tool_log w
  /\ http_log (cleanup_step extract_dir w artifact) = http_log w.
Proof.
  unfold cleanup_step. destruct (fs_exists _ _); [|done].
  destruct (fs_unlink _ _); done.
Qed.

(** A step of the cleanup creates no file. *)
Lemma cleanup_step_no_new_file extract_dir w artifact p :
  is_file (fs (cleanup_step extract_dir w artifact)) p = true -> is_file (fs w) p = true.
Proof.
  unfold cleanup_step. destruct (fs_exists _ _); [|done].
  unfold fs_unlink. destruct (fs w !! _) as [[c|]|]; simpl; try done.
  apply is_file_delete.
Qed.

(** After its step an artifact is not a file any more. *)
Lemma cleanup_step_removes extract_dir w artifact :
  is_file (fs (cleanup_step extract_dir w artifact)) (joinpath extract_dir artifact)
  = false.
Proof.
  unfold cleanup_step. set (p := joinpath extract_dir artifact).
  unfold fs_exists, fs_unlink, is_file, fs_lookup.
  destruct p as [|c p]; [done|].
  destruct (fs w !! (c :: p)) as [[x|]|] eqn:H; simpl; rewrite ?H; try done.
  by rewrite lookup_delete_eq.
Qed.

Lemma not_true_false b : (b = true -> False) -> b = false.
Proof. destruct b; [intros H; by destruct H|done]. Qed.

Lemma cleanup_removes_artifacts extract_dir w :
  Forall (fun a => is_file (fs (_cleanup_extract_artifacts extract_dir w))
                     (joinpath extract_dir a) = false) artifacts.
Proof.
  unfold _cleanup_extract_artifacts, artifacts. simpl.
  repeat constructor; apply not_true_false; intros H;
    repeat (first [ rewrite cleanup_step_removes in H; discriminate
                  | apply cleanup_step_no_new_file in H ]).
Qed.

Lemma cleanup_logs extract_dir w :
  tool_log (_cleanup_extract_artifacts extract_dir w) = tool_log w.
Proof.
  unfold _cleanup_extract_artifacts, artifacts. simpl.
  by rewrite !(proj1 (cleanup_step_logs _ _ _)).
Qed.

(** What one alternative of stage 2 adds to the log. *)
Lemma stage2_attempt_log E argv extract_dir w :
  match stage2_attempt E argv extract_dir w with
  | Won w' =>
      tool_log w' = tool_log w ++ [(argv, Some 0%Z)]
      /\ Forall (fun a => is_file (fs w') (joinpath extract_dir a) = false) artifacts
  | Lost w' => exists rc, rc <> 0%Z /\ tool_log w' = tool_log w ++ [(argv, Some rc)]
  | Aborted w' => tool_log w' = tool_log w ++ [(argv, None)]
  end.
Proof.
  unfold stage2_attempt, subprocess_run.
  destruct (run_tool E _ argv (fs w)) as [rc f|f|f]; simpl; try done.
  destruct (rc =? 0)%Z eqn:Hrc.
  - apply Z.eqb_eq in Hrc as ->. split; [by rewrite cleanup_logs|].
    apply cleanup_removes_artifacts.
  - apply Z.eqb_neq in Hrc. exists rc. done.
Qed.

(** The log of the chain: a prefix of the candidates, in their order;
    every run but the last has exited with another status than 0, the
    chain succeeds exactly when the last run has exited with status 0,
    and it fails because the last run has timed out or raised, or
    because every candidate has been run. *)
Lemma stage2_chain_log E extract_dir candidates : forall w,
  exists new,
    tool_log (fst (stage2_chain E candidates extract_dir w)) = tool_log w ++ new
    /\ map fst new `prefix_of` candidates
    /\ Forall (fun e => exists rc, snd e = Some rc /\ rc <> 0%Z) (removelast new)
    /\ (snd (stage2_chain E candidates extract_dir w) = true
        <-> exists argv, last new = Some (argv, Some 0%Z))
    /\ (snd (stage2_chain E candidates extract_dir w) = true ->
        Forall (fun a => is_file (fs (fst (stage2_chain E candidates extract_dir w)))
                           (joinpath extract_dir a) = false) artifacts)
    /\ (snd (stage2_chain E candidates extract_dir w) = false ->
        (exists argv, last new = Some (argv, None)) \/ map fst new = candidates)
    /\ (Forall (fun e => is_Some (snd e)) new ->
        stage2_chain E candidates extract_dir w = try_in_order E candidates extract_dir w).
Proof.
  induction candidates as [|argv rest IH]; intros w; simpl.
  - exists []. rewrite app_nil_r.
    split; [done|]. split; [apply prefix_nil|]. split; [constructor|].
    split; [split; [done|intros [? ?]; done]|]. split; [done|]. split; [by right|done].
  - pose proof (stage2_attempt_log E argv extract_dir w) as Ha.
    destruct (stage2_attempt E argv extract_dir w) as [w'|w'|w']; simpl.
    + destruct Ha as [Hlog Hart]. exists [(argv, Some 0%Z)].
      split; [done|]. split; [simpl; apply prefix_cons, prefix_nil|].
      split; [constructor|]. split; [split; [by eexists|done]|]. split; done.
    + destruct Ha as (rc & Hrc & Hlog).
      destruct (IH w') as (new & Hnew & Hpre & Hinit & Hok & Hart & Hfail & Hspec).
      exists ((argv, Some rc) :: new). rewrite Hnew, Hlog, <- app_assoc. simpl.
      split; [done|]. split; [by apply prefix_cons|].
      split.
      { destruct new; [constructor|]. constructor; [|done]. simpl. eauto. }
      split.
      { split.
        - intros H. apply Hok in H as [a Hlast]. exists a. destruct new; done.
        - intros [a Hlast]. apply Hok. destruct new as [|e new].
          + simpl in Hlast. congruence.
          + by exists a. }
      split; [done|]. split.
      { intros Hf. destruct (Hfail Hf) as [[a Hlast]|Hall].
        - left. exists a. destruct new; done.
        - right. by f_equal. }
      intros Hs. inversion Hs; subst. by apply Hspec.
    + exists [(argv, None)].
      split; [done|]. split; [simpl; apply prefix_cons, prefix_nil|].
      split; [constructor|].
      split; [split; [done|intros [a Hlast]; simpl in Hlast; congruence]|].
      split; [done|]. split; [intros _; left; by exists argv|].
      intros Hs. inversion Hs as [|? ? [? Hx] ?]; subst. simpl in Hx. done.
Qed.

(** Stage 2 of the program is the chain over its candidates. *)
Lemma extract_inner_payload_in_order E sevenz_cmd innoextract_cmd cabextract_cmd
  extract_dir payload_file w :
  extract_inner_payload E sevenz_cmd innoextract_cmd cabextract_cmd extract_dir
    payload_file w
  = stage2_chain E
      (stage2_candidates sevenz_cmd innoextract_cmd cabextract_cmd extract_dir payload_file)
      extract_dir w.
Proof.
  unfold extract_inner_payload, stage2_candidates.
  destruct cabextract_cmd as [cab|], innoextract_cmd as [inno|]; reflexivity.
Qed.

(** C8, counterexample: the cabinet extractor runs into its timeout;
    the extraction fails without trying the installer extractor, which
    would have unpacked the payload. *)
Lemma timeout_ends_stage2 :
  ~ first_success_wins cab_times_out ["x.exe"] ["x"] x_world.
Proof.
  intros H.
  specialize (H "7z" (<[ ["x"; "[0]"] := File (Bytes three_bytes) ]> (fs x_world))
                eq_refl eq_refl eq_refl).
  apply (f_equal snd) in H. vm_compute in H. discriminate.
Qed.

(** C8 (amended): when the general-purpose tool is installed, the outer
    unpack exits with status 0 and leaves the payload [[0]], stage 2
    runs the cabinet extractor, the installer extractor (each when
    installed) and the general-purpose tool with [-t*] in that order
    and stops at the first that exits with status 0, or that times out
    or raises: the tools run are a prefix of these candidates, every
    run but the last has exited with another status than 0, the
    extraction succeeds exactly when the last run has exited with
    status 0, and it fails because the last run has timed out or
    raised, or because every candidate has been run.  When no run
    times out or raises, the extraction is the ordered trial of the
    specification.  After a success no file named [[0]],
    [CERTIFICATE], [[1]] or [[2]] is left in the output directory. *)
Theorem inner_payload_tried_in_order E exe_path extract_dir w sevenz_cmd f1 :
  List.find (fun cmd => match which E cmd with Some _ => true | None => false end)
    ["7z"; "7zz"; "7za"] = Some sevenz_cmd ->
  run_tool E (length (tool_log w)) (sevenz_outer_argv sevenz_cmd extract_dir exe_path)
    (fs w) = Exited 0 f1 ->
  fs_exists f1 (joinpath extract_dir "[0]") = true ->
  let candidates :=
    stage2_candidates sevenz_cmd (which E "innoextract") (which E "cabextract")
      extract_dir (joinpath extract_dir "[0]") in
  let w1 := fst (subprocess_run E (sevenz_outer_argv sevenz_cmd extract_dir exe_path) w) in
  let w' := fst (_extract_sccm_unix E exe_path extract_dir w) in
  let ok := snd (_extract_sccm_unix E exe_path extract_dir w) in
  exists new,
    tool_log w' = tool_log w1 ++ new
    /\ map fst new `prefix_of` candidates
    /\ Forall (fun e => exists rc, snd e = Some rc /\ rc <> 0%Z) (removelast new)
    /\ (ok = true <-> exists argv, last new = Some (argv, Some 0%Z))
    /\ (ok = false ->
        (exists argv, last new = Some (argv, None)) \/ map fst new = candidates)
    /\ (Forall (fun e => is_Some (snd e)) new ->
        (w', ok) = try_in_order E candidates extract_dir w1)
    /\ (ok = true ->
        Forall (fun a => is_file (fs w') (joinpath extract_dir a) = false) artifacts).
Proof.
  intros Hfind Hrun Hpayload candidates w1 w' ok.
  assert (Heq : _extract_sccm_unix E exe_path extract_dir w
                = stage2_chain E candidates extract_dir w1).
  { unfold _extract_sccm_unix. rewrite Hfind.
    subst w1. unfold subprocess_run. rewrite Hrun. simpl. rewrite Hpayload. simpl.
    apply extract_inner_payload_in_order. }
  subst w' ok. rewrite Heq.
  destruct (stage2_chain_log E extract_dir candidates w1)
    as (new & Hlog & Hpre & Hinit & Hok & Hart & Hfail & Hspec).
  exists new. split; [done|]. split; [done|]. split; [done|]. split; [done|].
  split; [done|]. split; [|done].
  intros Hs. rewrite <- (Hspec Hs). by destruct (stage2_chain _ _ _ _).
Qed.

Lemma inner_payload_tried_in_order_witness :
  let r := _extract_sccm_unix inno_wins ["x.exe"] ["x"] x_world in
  snd r = true
  /\ tool_log (fst r)
     = [(["7z"; "x"; "-y"; "-ox"; "x.exe"], Some 0%Z);
        (["/usr/bin/cabextract"; "-d"; "x"; "x/[0]"], Some 1%Z);
        (["/usr/bin/innoextract"; "-d"; "x"; "x/[0]"], Some 0%Z)]
  /\ Forall (fun a => is_file (fs (fst r)) (joinpath ["x"] a) = false) artifacts.
Proof.
  intros r.
  assert (Hok : snd r = true) by (vm_compute; reflexivity).
  split; [exact Hok|]. split; [vm_compute; reflexivity|].
  destruct (inner_payload_tried_in_order inno_wins ["x.exe"] ["x"] x_world "7z"
              (<[ ["x"; "[0]"] := File (Bytes three_bytes) ]>
                 (<[ ["x"; "CERTIFICATE"] := File (Bytes three_bytes) ]> (fs x_world))))
    as (new & _ & _ & _ & _ & _ & _ & Hart);
    [reflexivity | reflexivity | vm_compute; reflexivity |].
  exact (Hart Hok).
Defined.

(** ** C9: every listed record has a file with a URL *)

Lemma primary_files_have_url fl : forall l,
  primary_files fl = Some l -> Forall has_url l.
Proof.
  induction fl as [|f rest IH]; simpl; intros l.
  - intros [= <-]. constructor.
  - destruct (py_get f "Name" _) as [name|]; [|discriminate]. simpl.
    destruct (py_get f "URL" _) as [url|]; [|discriminate]. simpl.
    destruct (py_get f "Size" _) as [size|]; [|discriminate]. simpl.
    destruct (py_get f "SHA256" _) as [sha256|]; [|discriminate]. simpl.
    destruct (primary_files rest) as [more|]; [|discriminate]. simpl.
    specialize (IH more eq_refl).
    destruct (truthy url) eqn:Hu; intros [= <-]; [|done].
    constructor; [|done]. eexists _, url. split; [reflexivity|]. done.
Qed.

Lemma primary_item_has_files item driver_info :
  primary_item item = Some (Some driver_info) -> has_files driver_info.
Proof.
  unfold primary_item.
  destruct (py_get item "Title" _) as [title|]; [|discriminate]. simpl.
  destruct (py_get item "Category" _) as [category_obj|]; [|discriminate]. simpl.
  destruct (py_get category_obj "Name" _) as [category|]; [|discriminate]. simpl.
  destruct (py_get item "Version" _) as [version|]; [|discriminate]. simpl.
  destruct (py_get item "Date" _) as [date_obj|]; [|discriminate]. simpl.
  destruct (py_get date_obj "Unix" _) as [release_date|]; [|discriminate]. simpl.
  destruct (py_get item "Files" _) as [files_obj|]; [|discriminate]. simpl.
  destruct (py_iter files_obj) as [files_list|]; [|discriminate]. simpl.
  destruct (primary_files files_list) as [files|] eqn:Hf; [|discriminate]. simpl.
  apply primary_files_have_url in Hf.
  destruct files as [|f files]; [discriminate|]. intros [= <-].
  eexists _, (f :: files). split; [reflexivity|]. done.
Qed.

Lemma v2_item_has_files item driver_info :
  v2_item item = Some (Some driver_info) -> has_files driver_info.
Proof.
  unfold v2_item.
  destruct (py_get item "Name" _) as [title|]; [|discriminate]. simpl.
  destruct (py_get item "Category" _) as [category|]; [|discriminate]. simpl.
  destruct (py_get item "Version" _) as [version|]; [|discriminate]. simpl.
  destruct (py_get item "DownloadUrl" _) as [url|]; [|discriminate]. simpl.
  destruct (truthy url) eqn:Hu; [|discriminate].
  destruct (py_basename url) as [default_name|]; [|discriminate]. simpl.
  destruct (py_get item "FileName" _) as [name|]; [|discriminate]. simpl.
  destruct (py_get item "Size" _) as [size|]; [|discriminate]. simpl.
  intros [= <-]. eexists _, _. split; [reflexivity|]. split; [reflexivity|].
  split; [done|]. constructor; [|constructor].
  eexists _, url. split; [reflexivity|]. done.
Qed.

Lemma append_items_have_files step downloads :
  (forall item driver_info, step item = Some (Some driver_info) -> has_files driver_info) ->
  forall drivers,
    Forall has_files drivers ->
    Forall has_files (fst (append_items step downloads drivers)).
Proof.
  intros Hstep. induction downloads as [|item rest IH]; intros drivers Hd; simpl;
    [done|].
  destruct (step item) as [[driver_info|]|] eqn:Hi; simpl; auto.
  apply IH. apply Forall_app. split; [done|]. constructor; [|constructor]. eauto.
Qed.

(** C9: whatever the two endpoints reply, every record that
    [get_drivers_list] returns has at least one file, and every file of
    a returned record has a URL that is not empty. *)
Theorem drivers_list_records_have_files primary v2 :
  Forall has_files (get_drivers_list primary v2).
Proof.
  unfold get_drivers_list.
  assert (H1 : Forall has_files
                 (fst (match primary with
                       | None => ([], false)
                       | Some data =>
                           match primary_downloads data with
                           | None => ([], false)
                           | Some downloads => append_items primary_item downloads []
                           end
                       end))).
  { destruct primary as [data|]; [|constructor].
    destruct (primary_downloads data); [|constructor].
    apply append_items_have_files; [apply primary_item_has_files|constructor]. }
  destruct (match primary with None => _ | Some _ => _ end) as [drivers returned].
  simpl in H1. destruct returned; [done|].
  destruct v2 as [data|]; [|done].
  destruct (v2_downloads data); [|done].
  apply append_items_have_files; [apply v2_item_has_files|done].
Qed.

(** The record without a file with a URL is dropped, and so is the file
    without a URL. *)
Lemma drivers_list_drops_empty_record :
  get_drivers_list (Some primary_reply) None
  = [JObj [("title", JStr "BIOS Update"); ("category", JStr "BIOS");
           ("version", JStr "Unknown"); ("release_date", JStr "");
           ("files", JArr [JObj [("name", JStr "BIOS Update Utility");
                                 ("url", JStr "https://host/path/bios_1.2.exe");
                                 ("size", JNum 0); ("sha256", JStr "")]])]].
Proof. reflexivity. Qed.

(** ** C10: the empty line at the prompt *)


(** ** Further facts about the program *)

(** [download_file] always returns its tuple: the [unlink] of its
    handler finds a regular file or nothing. *)
Lemma download_file_returns E file_info category_dir w :
  is_Some (snd (download_file E file_info category_dir w)).
Proof.
  destruct (download_file_cases E file_info category_dir w); by eexists.
Qed.

(** The loop of [download_sccm_packages] streams every body, whatever
    the [content-length]. *)
Lemma sccm_download_streams E url p w w' res :
  sccm_download_try E url p w = (w', res) ->
  exists new,
    write_log w' = write_log w ++ new
    /\ Forall (fun e => (snd e <= chunk_size)%nat) new.
Proof.
  enter_try r ts f2 Ho ltac:(intros [= <- <-]; exists []; by rewrite app_nil_r).
  pose proof (iter_content_bound chunk_size r chunk_size_pos) as Hb.
  destruct (iter_content chunk_size r) as [cs err]. intros [= <- <-]. simpl in Hb.
  match goal with |- context [write_chunks p cs ?w1] =>
    destruct (write_chunks_spec p cs w1 []) as (_ & _ & _ & ->); [opened f2|]
  end.
  eexists. split; [reflexivity|]. apply Forall_map. simpl.
  apply Forall_forall. intros c Hc%list_elem_of_In%filter_In.
  rewrite Forall_forall in Hb. apply Hb. apply list_elem_of_In. tauto.
Qed.

(** An extraction that leaves its directory empty is done again by the
    next run: the tool is invoked a second time. *)
Lemma empty_directory_is_extracted_again :
  let w1 := fst (sccm_extract_one sevenz_fails ["out"; "SCCM"]
                   ["out"; "SCCM"; "pack5.exe"] downloaded_world) in
  let w2 := fst (sccm_extract_one sevenz_fails ["out"; "SCCM"]
                   ["out"; "SCCM"; "pack5.exe"] w1) in
  already_extracted (fs w1) ["out"; "SCCM"; "pack5"] = Some false
  /\ length (tool_log w1) = 1%nat /\ length (tool_log w2) = 2%nat.
Proof. repeat split; vm_compute; reflexivity. Qed.

(** The bulk workflow on a catalog of one record: the file lands in the
    directory of its category, under the name its URL ends with, and
    the manifest lists that record. *)
Lemma bulk_run_of_one_record :
  let r := download_all_drivers mirror_a_down "PF1234AB" (JObj [("Id", JStr "20XX")])
             ["out"] [bios_driver] None empty_world in
  snd r = BulkDone {| success_count := 1; skip_count := 0; fail_count := 0 |}
  /\ fs (fst r)
     = {[ ["out"] := Dir;
          ["out"; "driver_manifest.json"] :=
            File (Doc {| m_serial_number := "PF1234AB";
                         m_product := JObj [("Id", JStr "20XX")];
                         m_drivers := [bios_driver];
                         m_download_date := "2024-01-01 00:00:00" |});
          ["out"; "BIOS"] := Dir;
          ["out"; "BIOS"; "bios_1.2.exe"] := File (Bytes three_bytes) ]}
  /\ http_log (fst r) = ["https://host/path/bios_1.2.exe?sig=abc"].
Proof. repeat split; vm_compute; reflexivity. Qed.

(** The indices the prompt delivers never raise [IndexError]. *)
Lemma prompt_selection_selects (sccm_packages : list SccmPackage) keys l :
  prompt_selection (length sccm_packages) keys = Chosen l ->
  is_Some (mapM (py_nth sccm_packages) l).
Proof.
  intros H%prompt_selection_in_range. apply mapM_is_Some.
  eapply Forall_impl; [exact H|]. intros i Hi. simpl in *. unfold py_nth.
  assert (((0 <=? i)%Z && (i <? Z.of_nat (length sccm_packages))%Z) = true) as ->.
  { apply andb_true_iff. split; [apply Z.leb_le|apply Z.ltb_lt]; lia. }
  apply lookup_lt_is_Some. lia.
Qed.

(** ** The bulk workflow *)

(** *** The summary *)

Lemma tally_total s o : total (tally s o) = S (total s).
Proof.
  unfold total, tally. destruct o as [[[[] ?] e]|]; simpl; try lia.
  destruct (error_is e "Already exists"); simpl; lia.
Qed.

Lemma fold_tally_total os : forall s,
  total (fold_left tally os s) = (total s + length os)%nat.
Proof.
  induction os as [|o os IH]; intros s; simpl; [lia|].
  rewrite IH, tally_total. lia.
Qed.

Lemma tally_comm s a b : tally (tally s a) b = tally (tally s b) a.
Proof.
  unfold tally.
  destruct a as [[[[] ?] ea]|], b as [[[[] ?] eb]|]; simpl; try reflexivity;
    repeat match goal with
           | |- context [error_is ?e ?m] => destruct (error_is e m); simpl
           end; reflexivity.
Qed.

Lemma fold_tally_permutation os os' :
  os ≡ₚ os' -> forall s, fold_left tally os s = fold_left tally os' s.
Proof.
  induction 1 as [|x l l' _ IH|x y l|l l' l'' _ IH1 _ IH2]; intros s; simpl.
  - reflexivity.
  - apply IH.
  - by rewrite tally_comm.
  - by rewrite IH1.
Qed.

Lemma is_dir_mono (f f' : gmap Path Node) p :
  f ⊆ f' -> is_dir f p = true -> is_dir f' p = true.
Proof.
  intros Hsub. unfold is_dir, fs_lookup. destruct p; [done|]. simpl.
  destruct (f !! (s :: p)) as [[|]|] eqn:H; try discriminate.
  intros _. by rewrite (lookup_weaken _ _ _ _ H Hsub).
Qed.

Lemma fs_mkdir_is_dir f p f' : fs_mkdir f p = Some f' -> is_dir f' p = true.
Proof.
  unfold fs_mkdir. destruct (fs_lookup f p) as [[|]|] eqn:Hl; try discriminate.
  - intros [= <-]. unfold is_dir. by rewrite Hl.
  - destruct (is_dir f (parent p)); [|discriminate]. intros [= <-].
    unfold is_dir, fs_lookup in *. destruct p; [done|]. by rewrite lookup_insert_eq.
Qed.

Lemma prepare_tasks_spec output_dir drivers : forall f f' tasks,
  prepare_tasks output_dir drivers f = (f', Some tasks) ->
  tasks = tasks_of output_dir drivers
  /\ Forall (fun d => is_dir f' (category_dir_of output_dir d) = true) drivers.
Proof.
  induction drivers as [|d rest IH]; simpl; intros f f' tasks.
  - intros [= <- <-]. done.
  - destruct (fs_mkdir f _) as [f1|] eqn:Hm; [|discriminate].
    pose proof (prepare_tasks_mono output_dir rest f1) as Hmono.
    destruct (prepare_tasks output_dir rest f1) as [f2 [more|]] eqn:Hp; [|discriminate].
    intros [= <- <-]. destruct (IH _ _ _ Hp) as [-> Hall]. split; [done|].
    constructor; [|done]. simpl in Hmono.
    eapply is_dir_mono; [exact Hmono|]. by eapply fs_mkdir_is_dir.
Qed.

Lemma length_tasks_of output_dir drivers :
  length (tasks_of output_dir drivers) = length (flat_map files drivers).
Proof.
  unfold tasks_of. induction drivers as [|d rest IH]; simpl; [done|].
  rewrite !length_app, length_map. f_equal. exact IH.
Qed.

(** X1: the three counts of the summary of a bulk run add up to the
    number of files of the drivers that passed the category filter:
    every task is counted once, as downloaded, skipped or failed. *)
Theorem summary_counts_every_file E serial product_info output_dir drivers categories
  w w' s :
  download_all_drivers E serial product_info output_dir drivers categories w
  = (w', BulkDone s) ->
  (success_count s + skip_count s + fail_count s)%nat
  = length (flat_map files (filter_categories categories drivers)).
Proof.
  unfold download_all_drivers. destruct drivers as [|d0 ds]; [discriminate|].
  destruct (fs_mkdir_parents _ _) as [f1|]; [|discriminate].
  destruct (fs_open _ f1 _) as [f2|]; [|discriminate].
  destruct (prepare_tasks _ _ _) as [f4 [tasks|]] eqn:Hp; [|discriminate].
  apply prepare_tasks_spec in Hp as [-> _].
  destruct (run_tasks E _ (set_fs w f4)) as [w5 os] eqn:Hr.
  intros [= <- <-]. fold (total (summarize os)). unfold summarize.
  rewrite fold_tally_total. simpl.
  replace os with (snd (run_tasks E (tasks_of output_dir
                     (filter_categories categories (d0 :: ds))) (set_fs w f4)))
    by (by rewrite Hr).
  by rewrite run_tasks_length, length_tasks_of.
Qed.

Lemma summary_counts_every_file_witness :
  let run := download_all_drivers mirror_a_down "PF1234AB" (JObj [("Id", JStr "20XX")])
               ["out"] [bios_driver; audio_driver] None empty_world in
  run = (fst run, BulkDone {| success_count := 2; skip_count := 0; fail_count := 0 |})
  /\ (2 + 0 + 0)%nat = length (flat_map files [bios_driver; audio_driver]).
Proof.
  intros run.
  assert (H : run = (fst run, BulkDone {| success_count := 2; skip_count := 0;
                                          fail_count := 0 |}))
    by (vm_compute; reflexivity).
  split; [exact H|].
  exact (summary_counts_every_file _ _ _ _ _ _ _ _ _ H).
Defined.

(** X2: the summary does not depend on the order in which the tasks
    complete. *)
Theorem summary_independent_of_completion_order os os' :
  os ≡ₚ os' -> summarize os = summarize os'.
Proof. intros H. unfold summarize. by apply fold_tally_permutation. Qed.

Lemma summary_independent_of_completion_order_witness :
  [Some (true, "a.exe", None); Some (false, "b.exe", Some "timed out")]
    ≡ₚ [Some (false, "b.exe", Some "timed out"); Some (true, "a.exe", None)]
  /\ summarize [Some (true, "a.exe", None); Some (false, "b.exe", Some "timed out")]
     = summarize [Some (false, "b.exe", Some "timed out"); Some (true, "a.exe", None)].
Proof.
  assert (H : [Some (true, "a.exe", None); Some (false, "b.exe", Some "timed out")]
                ≡ₚ [Some (false, "b.exe", Some "timed out");
                    Some (true, "a.exe", @None string)])
    by apply perm_swap.
  split; [exact H|].
  exact (summary_independent_of_completion_order _ _ H).
Defined.

(** *** What a bulk run leaves alone *)

Lemma mkdir_each_mono ps : forall f f', mkdir_each ps f = Some f' -> f ⊆ f'.
Proof.
  induction ps as [|p ps IH]; simpl; intros f f'.
  - by intros [= ->].
  - destruct (fs_lookup f p) as [[|]|] eqn:Hl; try discriminate.
    + apply IH.
    + intros H%IH. etrans; [|exact H]. apply insert_subseteq.
      by apply fs_lookup_None.
Qed.

(** X3: a bulk run writes [driver_manifest.json] anew and, beside it,
    only creates what did not exist: every other file or directory that
    exists before the run is there, unchanged, after it, however the
    run ends. *)
Theorem bulk_run_keeps_existing_entries E serial product_info output_dir drivers
  categories w p n :
  p <> joinpath output_dir manifest_name ->
  fs w !! p = Some n ->
  fs (fst (download_all_drivers E serial product_info output_dir drivers categories w))
    !! p = Some n.
Proof.
  intros Hp Hn. unfold download_all_drivers. destruct drivers as [|d0 ds]; [done|].
  destruct (fs_mkdir_parents _ _) as [f1|] eqn:H1; [|done].
  apply mkdir_each_mono in H1. pose proof (lookup_weaken _ _ _ _ Hn H1) as Hn1.
  destruct (fs_open _ f1 _) as [f2|] eqn:H2; [|done].
  apply fs_open_Some in H2.
  match goal with |- context [prepare_tasks output_dir ?ds ?f3] =>
    pose proof (prepare_tasks_mono output_dir ds f3) as H4;
    assert (Hn3 : f3 !! p = Some n)
      by (unfold write_manifest; rewrite lookup_insert_ne by done;
          subst f2; by rewrite lookup_insert_ne);
    destruct (prepare_tasks output_dir ds f3) as [f4 [tasks|]]
  end; simpl in H4; pose proof (lookup_weaken _ _ _ _ Hn3 H4) as Hn4; [|done].
  pose proof (run_tasks_mono E tasks (set_fs w f4)) as H5.
  destruct (run_tasks E tasks (set_fs w f4)) as [w5 os]. simpl in *.
  by apply (lookup_weaken _ _ _ _ Hn4 H5).
Qed.

Lemma bulk_run_keeps_existing_entries_witness :
  ["out"; "x.exe"] <> joinpath ["out"] manifest_name
  /\ fs (fst (download_all_drivers mirror_a_down "PF1234AB" JNull ["out"]
                [bios_driver] None
                (set_fs out_world (<[ ["out"; "x.exe"] := File (Bytes three_bytes) ]>
                                     (fs out_world)))))
       !! ["out"; "x.exe"] = Some (File (Bytes three_bytes)).
Proof.
  assert (H : ["out"; "x.exe"] <> joinpath ["out"] manifest_name)
    by (vm_compute; discriminate).
  split; [exact H|].
  apply (bulk_run_keeps_existing_entries mirror_a_down "PF1234AB" JNull ["out"]
           [bios_driver] None _ _ _ H).
  vm_compute. reflexivity.
Defined.

(** X4: when the loop that prepares the tasks ends without an
    exception, there is one task for every file of every driver, in
    their order, each aimed at the directory of the category of its
    driver, and each of these directories exists. *)
Theorem prepare_tasks_creates_directories output_dir drivers f f' tasks :
  prepare_tasks output_dir drivers f = (f', Some tasks) ->
  tasks = tasks_of output_dir drivers
  /\ map (fun t => fst (fst t)) tasks = flat_map files drivers
  /\ Forall (fun t => is_dir f' (snd (fst t)) = true) tasks.
Proof.
  intros [-> Hall]%prepare_tasks_spec. split; [done|]. split.
  - unfold tasks_of. clear Hall. induction drivers as [|d rest IH]; simpl; [done|].
    rewrite map_app, IH, map_map. simpl. by rewrite map_id.
  - unfold tasks_of. apply Forall_flat_map.
    eapply Forall_impl; [exact Hall|]. intros d Hd. simpl in *.
    apply Forall_map. apply Forall_forall. intros; exact Hd.
Qed.

Lemma prepare_tasks_creates_directories_witness :
  let r := prepare_tasks ["out"] [bios_driver; audio_driver] (fs out_world) in
  r = (fst r, Some (tasks_of ["out"] [bios_driver; audio_driver]))
  /\ Forall (fun t => is_dir (fst r) (snd (fst t)) = true)
       (tasks_of ["out"] [bios_driver; audio_driver]).
Proof.
  intros r.
  assert (H : r = (fst r, Some (tasks_of ["out"] [bios_driver; audio_driver])))
    by (vm_compute; reflexivity).
  split; [exact H|].
  exact (proj2 (proj2 (prepare_tasks_creates_directories _ _ _ _ _ H))).
Defined.

(** *** Where the files go *)

Lemma append_empty_r (s : string) : (s ++ "")%string = s.
Proof.
  induction s as [|c s IH]; [done|].
  change (String c (s ++ "")%string = String c s). by rewrite IH.
Qed.

Lemma unquote_without_percent s : has_char "%" s = false -> unquote s = s.
Proof.
  intros H. unfold unquote. rewrite (str_split_no_sep "%" s H). simpl.
  apply append_empty_r.
Qed.

Lemma str_split_segments_no_sep sep s :
  Forall (fun seg => has_char sep seg = false) (str_split sep s).
Proof.
  induction s as [|c s IH]; simpl; [by repeat constructor|].
  destruct (Ascii.eqb c sep) eqn:Hc; [by constructor|].
  destruct (str_split sep s) as [|h t]; [by repeat constructor; simpl; rewrite Hc|].
  inversion IH as [|? ? Hh Ht]; subst. constructor; [|done]. simpl. by rewrite Hc.
Qed.

Lemma last_item_Forall (P : string -> Prop) l :
  l <> [] -> Forall P l -> P (last_item l).
Proof.
  intros Hne H. unfold last_item. induction H as [|x l Hx Hl IH]; [done|].
  destruct l; [done|]. by apply IH.
Qed.

Lemma first_item_Forall (P : string -> Prop) l :
  l <> [] -> Forall P l -> P (first_item l).
Proof. intros Hne H. destruct H; done. Qed.

(** X5: the text that [url.split('/')[-1].split('?')[0]] leaves holds
    neither a ['/'] nor a ['?']. *)
Theorem url_basename_has_no_separator url :
  has_char "/" (url_basename url) = false /\ has_char "?" (url_basename url) = false.
Proof.
  unfold url_basename. split.
  - apply (first_item_Forall (fun s => has_char "/" s = false));
      [apply str_split_nonempty|].
    apply str_split_segments_no_char.
    apply (last_item_Forall (fun s => has_char "/" s = false));
      [apply str_split_nonempty|apply str_split_segments_no_sep].
  - apply (first_item_Forall (fun s => has_char "?" s = false));
      [apply str_split_nonempty|apply str_split_segments_no_sep].
Qed.

Lemma joinpath_one_name dir name :
  has_char "/" name = false ->
  joinpath dir name
  = if String.eqb name "" || String.eqb name "." then dir else dir ++ [name].
Proof.
  intros H. unfold joinpath, path_parts.
  assert (is_absolute name = false) as ->.
  { destruct name as [|c name]; [done|]. simpl in *.
    apply orb_false_iff in H as [Hc _]. unfold is_absolute.
    destruct c as [[] [] [] [] [] [] [] []]; try done. }
  rewrite (str_split_no_sep "/" name H). simpl. unfold keep_part.
  destruct (String.eqb name ""), (String.eqb name "."); simpl;
    by rewrite ?app_nil_r.
Qed.

(** X6: for a URL without a ['%'] whose last segment is not [..] and
    holds neither a backslash nor a colon (a separator and a drive mark
    on Windows), the destination of a download is the category directory
    itself, when the URL ends with a ['/'] or with [/.], and otherwise
    the entry of the category directory named after the end of the URL;
    it is never deeper and never outside. *)
Theorem destination_is_in_category_dir (category_dir : Path) url :
  has_char "%" url = false ->
  url_basename url <> ".." ->
  has_char "\" (url_basename url) = false ->
  has_char ":" (url_basename url) = false ->
  filename_of url = url_basename url
  /\ filename_of url <> ".."
  /\ joinpath category_dir (filename_of url)
     = if String.eqb (url_basename url) "" || String.eqb (url_basename url) "."
       then category_dir
       else category_dir ++ [url_basename url].
Proof.
  intros H Hdots _ _.
  assert (Hname : filename_of url = url_basename url); [|split; [exact Hname|]].
  2: { split; [by rewrite Hname|]. rewrite Hname.
       apply joinpath_one_name. apply url_basename_has_no_separator. }
  unfold filename_of.
  assert (Hb : has_char "%" (url_basename url) = false).
  { unfold url_basename.
    apply (first_item_Forall (fun s => has_char "%" s = false));
      [apply str_split_nonempty|].
    apply str_split_segments_no_char.
    apply (last_item_Forall (fun s => has_char "%" s = false));
      [apply str_split_nonempty|by apply str_split_segments_no_char]. }
  exact (unquote_without_percent _ Hb).
Qed.

Lemma destination_is_in_category_dir_witness :
  has_char "%" "https://host/path/bios_1.2.exe?sig=abc" = false
  /\ url_basename "https://host/path/bios_1.2.exe?sig=abc" = "bios_1.2.exe"
  /\ joinpath ["out"; "BIOS"] (filename_of "https://host/path/bios_1.2.exe?sig=abc")
     = ["out"; "BIOS"; "bios_1.2.exe"].
Proof.
  split; [reflexivity|]. split; [reflexivity|].
  destruct (destination_is_in_category_dir ["out"; "BIOS"]
              "https://host/path/bios_1.2.exe?sig=abc" eq_refl)
    as (_ & _ & H); [by vm_compute | reflexivity | reflexivity |].
  exact H.
Defined.

Lemma replace_char_removes a b s : a <> b -> has_char a (replace_char a b s) = false.
Proof.
  intros Hab. induction s as [|c s IH]; simpl; [done|]. rewrite IH, orb_false_r.
  destruct (Ascii.eqb c a) eqn:Hc; [|done]. apply Ascii.eqb_neq. congruence.
Qed.

Lemma replace_char_keeps_out a b c s :
  c <> b -> has_char c s = false -> has_char c (replace_char a b s) = false.
Proof.
  intros Hcb. induction s as [|x s IH]; simpl; [done|].
  intros [Hx Hs]%orb_false_iff. rewrite (IH Hs), orb_false_r.
  destruct (Ascii.eqb x a); [|done]. apply Ascii.eqb_neq. congruence.
Qed.

(** X7: for a category whose sanitised label (every ['/'] and every
    backslash turned into ['-']) is not [..] and holds no colon (a drive
    mark on Windows), the directory of the category is the output
    directory itself, when the label is empty or a dot, and otherwise
    the entry of the output directory named by the label: such a label
    makes neither a deeper directory nor one outside. *)
Theorem category_directory_is_direct_child (output_dir : Path) d :
  let label := replace_char "\" "-" (replace_char "/" "-" (category d)) in
  label <> ".." ->
  has_char ":" label = false ->
  has_char "/" label = false
  /\ has_char "\" label = false
  /\ category_dir_of output_dir d
     = if String.eqb label "" || String.eqb label "." then output_dir
       else output_dir ++ [label].
Proof.
  intros label _ _.
  assert (H1 : has_char "/" label = false).
  { apply replace_char_keeps_out; [done|]. by apply replace_char_removes. }
  split; [exact H1|]. split; [by apply replace_char_removes|].
  unfold category_dir_of. fold label. by apply joinpath_one_name.
Qed.

Lemma category_directory_is_direct_child_witness :
  category_dir_of ["out"] audio_driver = ["out"; category audio_driver].
Proof.
  destruct (category_directory_is_direct_child ["out"] audio_driver)
    as (_ & _ & H); [by vm_compute | reflexivity |].
  exact H.
Defined.

(** *** The category filter *)

Lemma lower_char_idempotent c : lower_char (lower_char c) = lower_char c.
Proof. destruct c as [[] [] [] [] [] [] [] []]; reflexivity. Qed.

Lemma lower_idempotent s : lower (lower s) = lower s.
Proof.
  induction s as [|c s IH]; simpl; [done|]. by rewrite lower_char_idempotent, IH.
Qed.

Lemma in_categories_iff categories d :
  in_categories categories d = true
  <-> exists c, c ∈ categories /\ lower c = lower (category d).
Proof.
  unfold in_categories. rewrite existsb_exists. split.
  - intros (x & Hx & Heq). apply in_map_iff in Hx as (c & <- & Hc).
    exists c. split; [by apply list_elem_of_In|]. symmetry. by apply String.eqb_eq.
  - intros (c & Hc & Heq). exists (lower c). split.
    + apply in_map. by apply list_elem_of_In.
    + apply String.eqb_eq. done.
Qed.

(** X8: without categories, or with an empty list of them, every driver
    is kept, and the drivers kept always stay in their order; when the
    categories given and the categories of the drivers hold ASCII
    characters only, a driver is kept exactly when its category is one
    of those given up to the case of letters, and lowering the case of
    the categories given changes nothing. *)
Theorem category_filter_ignores_case drivers :
  filter_categories None drivers = drivers
  /\ filter_categories (Some []) drivers = drivers
  /\ (forall categories, filter_categories categories drivers `sublist_of` drivers)
  /\ forall c categories,
       Forall (fun c' => ascii_only c' = true) (c :: categories) ->
       Forall (fun d => ascii_only (category d) = true) drivers ->
       (forall d, d ∈ filter_categories (Some (c :: categories)) drivers
                  <-> d ∈ drivers
                      /\ exists c', c' ∈ c :: categories
                                    /\ lower c' = lower (category d))
       /\ filter_categories (Some (map lower (c :: categories))) drivers
          = filter_categories (Some (c :: categories)) drivers.
Proof.
  split; [done|]. split; [done|]. split.
  - intros [[|c categories]|]; [done| |done].
    simpl. generalize (in_categories (c :: categories)). intros keep.
    induction drivers as [|d rest IH]; simpl; [done|].
    destruct (keep d); [by apply sublist_skip|by apply sublist_cons].
  - intros c categories _ _. split.
    + intros d. simpl. rewrite <- (in_categories_iff (c :: categories) d).
      rewrite list_elem_of_In, filter_In, <- list_elem_of_In. done.
    + assert (Hext : forall d, in_categories (lower c :: map lower categories) d
                               = in_categories (c :: categories) d).
      { intros d. unfold in_categories. simpl. rewrite lower_idempotent.
        rewrite map_map. f_equal. f_equal. apply map_ext. intros; apply lower_idempotent. }
      exact (List.filter_ext _ _ Hext drivers).
Qed.

Lemma category_filter_ignores_case_witness :
  filter_categories (Some ["bios"]) [bios_driver; audio_driver] = [bios_driver]
  /\ filter_categories (Some (map lower ["bios"])) [bios_driver; audio_driver]
     = filter_categories (Some ["bios"]) [bios_driver; audio_driver].
Proof.
  split; [reflexivity|].
  destruct (category_filter_ignores_case [bios_driver; audio_driver])
    as (_ & _ & _ & H).
  destruct (H "bios" []) as [_ Heq];
    [by repeat constructor | by repeat constructor |].
  exact Heq.
Defined.

Lemma pool_run_no_task E max_workers w w' os :
  pool_run E max_workers [] w w' os -> w' = w /\ os = [].
Proof.
  unfold pool_run. simpl. intros H.
  apply rtc_inv in H as [Heq | (y & Hstep & _)].
  - injection Heq as Hw Hos. split; [done|]. by destruct os.
  - exfalso. inversion Hstep as [w0 threads i Hi|w0 threads i t th w1 th' eff Ht]; subst.
    + by rewrite lookup_nil in Hi.
    + by rewrite lookup_nil in Ht.
Qed.

Lemma download_all_drivers_is_a_pool_run E max_workers serial product_info output_dir
  drivers categories w :
  (0 < max_workers)%Z ->
  let r := download_all_drivers E serial product_info output_dir drivers categories w in
  download_all_drivers_in_pool E max_workers serial product_info output_dir drivers
    categories w (fst r) (snd r).
Proof.
  intros Hw r. subst r. unfold download_all_drivers, download_all_drivers_in_pool.
  destruct drivers as [|d ds]; [done|].
  cbv zeta.
  destruct (fs_mkdir_parents (fs w) output_dir) as [f1|]; [|done].
  destruct (fs_open (Bytes []) f1 (joinpath output_dir manifest_name)) as [f2|]; [|done].
  destruct (prepare_tasks _ _ _) as [f4 [tasks|]]; [|done].
  destruct (Z.leb_spec max_workers 0) as [Hle|_]; [lia|].
  pose proof (sequential_schedule E max_workers tasks (set_fs w f4) Hw) as Hrun.
  destruct (run_tasks E tasks (set_fs w f4)) as [w5 os]. simpl in *.
  by exists os.
Qed.

(** X9: a category filter that no driver passes is not an error: when
    the output directory and the manifest can be created, a run with at
    least one worker ends with a summary of zeros, has requested nothing,
    and has written a manifest with an empty list of drivers; with a
    number of workers of zero or less the manifest is written as well,
    nothing is requested, and the run ends with the exception of the
    executor. Such a run exists for every number of workers. *)
Theorem filter_without_match_downloads_nothing E max_workers serial product_info
  output_dir d ds categories w f1 f2 :
  filter_categories categories (d :: ds) = [] ->
  fs_mkdir_parents (fs w) output_dir = Some f1 ->
  fs_open (Bytes []) f1 (joinpath output_dir manifest_name) = Some f2 ->
  (exists w' result,
     download_all_drivers_in_pool E max_workers serial product_info output_dir
       (d :: ds) categories w w' result)
  /\ forall w' result,
       download_all_drivers_in_pool E max_workers serial product_info output_dir
         (d :: ds) categories w w' result ->
       result = (if (max_workers <=? 0)%Z then BulkRaised
                 else BulkDone {| success_count := 0; skip_count := 0;
                                  fail_count := 0 |})
       /\ http_log w' = http_log w
       /\ manifest_at (fs w') output_dir
          = Some {| m_serial_number := serial; m_product := product_info;
                    m_drivers := []; m_download_date := strftime_now E |}.
Proof.
  intros Hf H1 H2.
  assert (Hm : forall w0 : World,
             manifest_at
               (fs (set_fs w0 (write_manifest E serial product_info []
                                 (joinpath output_dir manifest_name) f2))) output_dir
             = Some {| m_serial_number := serial; m_product := product_info;
                       m_drivers := []; m_download_date := strftime_now E |}).
  { intros w0. unfold manifest_at, write_manifest. simpl. by rewrite lookup_insert_eq. }
  unfold download_all_drivers_in_pool. rewrite Hf. cbv zeta. rewrite H1, H2. simpl.
  split.
  - destruct (max_workers <=? 0)%Z; [by eexists _, _|].
    eexists _, _, []. split; [apply rtc_refl|done].
  - intros w' result. destruct (max_workers <=? 0)%Z.
    + intros [-> ->]. split; [done|]. split; [done|]. apply Hm.
    + intros (os & Hrun & ->). apply pool_run_no_task in Hrun as [-> ->].
      split; [done|]. split; [done|]. apply Hm.
Qed.

Lemma filter_without_match_downloads_nothing_witness :
  filter_categories (Some ["Chipset"]) [bios_driver; audio_driver] = []
  /\ exists w',
       download_all_drivers_in_pool mirror_a_down 4 "PF1234AB" JNull ["out"]
         [bios_driver; audio_driver] (Some ["Chipset"]) empty_world w'
         (BulkDone {| success_count := 0; skip_count := 0; fail_count := 0 |})
       /\ http_log w' = [].
Proof.
  assert (Hf : filter_categories (Some ["Chipset"]) [bios_driver; audio_driver] = [])
    by reflexivity.
  split; [exact Hf|].
  destruct (filter_without_match_downloads_nothing mirror_a_down 4 "PF1234AB" JNull
              ["out"] bios_driver [audio_driver] (Some ["Chipset"]) empty_world
              {[ ["out"] := Dir ]}
              {[ ["out"] := Dir; ["out"; "driver_manifest.json"] := File (Bytes []) ]} Hf)
    as [(w' & result & Hrun) Hall]; [vm_compute; reflexivity | vm_compute; reflexivity |].
  destruct (Hall w' result Hrun) as (Hres & Hlog & _).
  exists w'. rewrite Hres in Hrun. split; [exact Hrun|exact Hlog].
Defined.

(** ** The selection layer *)

Lemma filter_is_exe_Forall l : Forall (fun f => is_exe f = true) (List.filter is_exe l).
Proof. apply Forall_forall. intros f Hf%list_elem_of_In%filter_In. tauto. Qed.

Lemma get_sccm_packages_elem drivers p :
  p ∈ get_sccm_packages drivers
  <-> exists d, d ∈ drivers
        /\ contains "sccm" (lower (title d)) = true
        /\ List.filter is_exe (files d) <> []
        /\ p = {| pkg_title := title d; pkg_category := category d;
                  pkg_files := List.filter is_exe (files d) |}.
Proof.
  unfold get_sccm_packages. rewrite list_elem_of_In, in_flat_map. split.
  - intros (d & Hd & Hp). exists d. split; [by apply list_elem_of_In|].
    destruct (contains "sccm" (lower (title d))); [|destruct Hp].
    destruct (List.filter is_exe (files d)) as [|f fl] eqn:Hf; [destruct Hp|].
    destruct Hp as [<-|[]]. repeat split; done.
  - intros (d & Hd & Hc & Hne & ->). exists d. split; [by apply list_elem_of_In|].
    rewrite Hc. destruct (List.filter is_exe (files d)) as [|f fl] eqn:Hf; [done|].
    by left.
Qed.

Lemma get_sccm_packages_order drivers :
  map pkg_title (get_sccm_packages drivers) `sublist_of` map title drivers.
Proof.
  unfold get_sccm_packages. induction drivers as [|d rest IH]; simpl; [done|].
  destruct (contains "sccm" (lower (title d))); [|by apply sublist_cons].
  destruct (List.filter is_exe (files d)); simpl;
    [by apply sublist_cons|by apply sublist_skip].
Qed.

(** X10: the packages [get_sccm_packages] returns are exactly those of
    the drivers whose title holds [sccm] in any case of its letters and
    which have a file whose URL ends in [.exe]; a package carries the
    title and category of its driver and these files only, so it is
    never empty; the packages keep the order of the drivers. *)
Theorem sccm_packages_are_exe_packs drivers :
  (forall p, p ∈ get_sccm_packages drivers
     <-> exists d, d ∈ drivers
           /\ contains "sccm" (lower (title d)) = true
           /\ List.filter is_exe (files d) <> []
           /\ p = {| pkg_title := title d; pkg_category := category d;
                     pkg_files := List.filter is_exe (files d) |})
  /\ Forall (fun p => pkg_files p <> []
                      /\ Forall (fun f => is_exe f = true) (pkg_files p))
       (get_sccm_packages drivers)
  /\ map pkg_title (get_sccm_packages drivers) `sublist_of` map title drivers.
Proof.
  split; [apply get_sccm_packages_elem|]. split; [|apply get_sccm_packages_order].
  apply Forall_forall. intros p (d & _ & _ & Hne & ->)%get_sccm_packages_elem. simpl.
  split; [done|apply filter_is_exe_Forall].
Qed.

(** *** The prompt *)

Lemma insert_sorted_sorted x l :
  StronglySorted Z.lt l -> StronglySorted Z.lt (insert_sorted x l).
Proof.
  induction 1 as [|y l Hs IH Hy]; simpl; [by repeat constructor|].
  destruct (x <? y)%Z eqn:Hlt.
  - apply Z.ltb_lt in Hlt. constructor; [by constructor|].
    constructor; [done|]. eapply Forall_impl; [exact Hy|]. simpl. lia.
  - destruct (x =? y)%Z eqn:Heq; [by constructor|].
    apply Z.ltb_ge in Hlt. apply Z.eqb_neq in Heq.
    constructor; [done|]. apply insert_sorted_Forall; [lia|done].
Qed.

Lemma sorted_set_sorted l : StronglySorted Z.lt (sorted_set l).
Proof. induction l; simpl; [constructor|by apply insert_sorted_sorted]. Qed.

Lemma insert_sorted_nonempty x l : insert_sorted x l <> [].
Proof. destruct l as [|y l]; simpl; [done|]. destruct (x <? y)%Z, (x =? y)%Z; done. Qed.

Lemma seq_sorted len : forall start,
  StronglySorted Z.lt (map Z.of_nat (seq start len)).
Proof.
  induction len as [|len IH]; intros start; simpl; constructor; [apply IH|].
  apply Forall_map. apply Forall_forall.
  intros i Hi%list_elem_of_In%in_seq. simpl. lia.
Qed.

Lemma prompt_selection_sorted n keys : forall l,
  prompt_selection n keys = Chosen l -> StronglySorted Z.lt l.
Proof.
  induction keys as [|k keys IH]; intros l; simpl; [discriminate|].
  destruct k as [s|]; [|discriminate].
  destruct (String.eqb (lower (strip s)) "none"); [discriminate|].
  destruct (String.eqb (lower (strip s)) "all" || String.eqb (lower (strip s)) "").
  - intros [= <-]. apply seq_sorted.
  - destruct (parse_tokens n _) as [[|i l']|]; try apply IH.
    intros [= <-]. apply (sorted_set_sorted (i :: l')).
Qed.

Lemma prompt_selection_nonempty n keys : forall l,
  prompt_selection n keys = Chosen l -> n <> 0%nat -> l <> [].
Proof.
  induction keys as [|k keys IH]; intros l; simpl; [discriminate|].
  destruct k as [s|]; [|discriminate].
  destruct (String.eqb (lower (strip s)) "none"); [discriminate|].
  destruct (String.eqb (lower (strip s)) "all" || String.eqb (lower (strip s)) "").
  - intros [= <-] Hn. destruct n; done.
  - destruct (parse_tokens n _) as [[|i l']|]; try apply IH.
    intros [= <-] _. apply insert_sorted_nonempty.
Qed.

(** X11: whatever is typed, the indices the prompt ends with are in
    strictly increasing order, hence without repetition, every one of
    them is the index of a package, and when there is a package at
    least one index is chosen. *)
Theorem prompt_delivers_sorted_indices n keys l :
  prompt_selection n keys = Chosen l ->
  StronglySorted Z.lt l
  /\ Forall (fun i => (0 <= i < Z.of_nat n)%Z) l
  /\ (n <> 0%nat -> l <> []).
Proof.
  intros H. split; [by eapply prompt_selection_sorted|].
  split; [by eapply prompt_selection_in_range|by eapply prompt_selection_nonempty].
Qed.

Lemma prompt_delivers_sorted_indices_witness :
  prompt_selection 5 [Line "7"; Line " 3, 1,3 "] = Chosen [0; 2]%Z
  /\ StronglySorted Z.lt [0; 2]%Z.
Proof.
  assert (H : prompt_selection 5 [Line "7"; Line " 3, 1,3 "] = Chosen [0; 2]%Z)
    by (vm_compute; reflexivity).
  split; [exact H|]. exact (proj1 (prompt_delivers_sorted_indices 5 _ _ H)).
Defined.

Lemma parse_tokens_invalid n tokens t :
  t ∈ tokens -> strip t <> "" ->
  (forall num, py_int (strip t) = Some num -> ~ (1 <= num <= Z.of_nat n)%Z) ->
  parse_tokens n tokens = None.
Proof.
  intros Hin Hne Hbad. induction tokens as [|t0 rest IH]; [by apply elem_of_nil in Hin|].
  simpl. apply elem_of_cons in Hin as [<-|Hin].
  - destruct (String.eqb (strip t) "") eqn:He; [by apply String.eqb_eq in He|].
    destruct (py_int (strip t)) as [num|] eqn:Hp; [|done].
    destruct ((1 <=? num)%Z && (num <=? Z.of_nat n)%Z) eqn:Hr; [|done].
    apply andb_true_iff in Hr as [H1%Z.leb_le H2%Z.leb_le].
    exfalso. apply (Hbad num); [done|lia].
  - rewrite (IH Hin). destruct (String.eqb (strip t0) ""); [done|].
    destruct (py_int (strip t0)) as [num|]; [|done].
    destruct ((1 <=? num)%Z && (num <=? Z.of_nat n)%Z); done.
Qed.

(** X12: in a line typed in ASCII characters, one item that is neither
    empty nor the number of a package makes the prompt drop the whole
    line, its valid numbers included, and ask again. *)
Theorem one_invalid_token_rejects_line n s t keys :
  ascii_only s = true ->
  lower (strip s) <> "none" -> lower (strip s) <> "all" ->
  t ∈ str_split "," (lower (strip s)) ->
  strip t <> "" ->
  (forall num, py_int (strip t) = Some num -> ~ (1 <= num <= Z.of_nat n)%Z) ->
  prompt_selection n (Line s :: keys) = prompt_selection n keys.
Proof.
  intros _ Hnone Hall Hin Hne Hbad. simpl.
  apply String.eqb_neq in Hnone. apply String.eqb_neq in Hall. rewrite Hnone, Hall.
  destruct (String.eqb (lower (strip s)) "") eqn:He.
  - apply String.eqb_eq in He. rewrite He in Hin.
    vm_compute in Hin. apply list_elem_of_singleton in Hin. subst t. done.
  - simpl. by rewrite (parse_tokens_invalid n _ t Hin Hne Hbad).
Qed.

Lemma one_invalid_token_rejects_line_witness :
  ascii_only "1,x,3" = true
  /\ prompt_selection 5 [Line "1,x,3"; Line "2"] = prompt_selection 5 [Line "2"]
  /\ prompt_selection 5 [Line "2"] = Chosen [1%Z].
Proof.
  split; [reflexivity|]. split; [|vm_compute; reflexivity].
  apply (one_invalid_token_rejects_line 5 "1,x,3" "x" [Line "2"]).
  - reflexivity.
  - vm_compute. discriminate.
  - vm_compute. discriminate.
  - vm_compute. apply list_elem_of_In. simpl. tauto.
  - vm_compute. discriminate.
  - vm_compute. discriminate.
Defined.

(** ** The specialized-package workflow as a whole *)

(** X13: the message that no package is selected cannot be reached from
    the command line: with the indices [main] passes on, given or
    prompted for, the workflow never ends there. *)
Theorem no_packages_selected_is_unreachable E output_dir sccm_packages extract
  sccm_packages_arg keys w :
  snd (download_sccm_packages E output_dir sccm_packages extract
         (main_selected_indices sccm_packages_arg) keys w) <> NoneSelected.
Proof.
  unfold download_sccm_packages. destruct sccm_packages as [|p ps]; [done|].
  set (pkgs := p :: ps).
  assert (Hsel : forall l, l <> [] ->
            snd match mapM (py_nth pkgs) l with
                | None => (w, SccmRaised)
                | Some [] => (w, NoneSelected)
                | Some ((_ :: _) as selected_packages) =>
                    match fs_mkdir_parents (fs w) output_dir with
                    | None => (w, SccmRaised)
                    | Some f1 =>
                        match fs_mkdir f1 (joinpath output_dir "SCCM") with
                        | None => (set_fs w f1, SccmRaised)
                        | Some f2 =>
                            match sccm_download_loop E (joinpath output_dir "SCCM")
                                    (flat_map pkg_files selected_packages) (set_fs w f2) []
                            with
                            | (w3, None) => (w3, SccmRaised)
                            | (w3, Some downloaded_files) =>
                                match (if extract then downloaded_files else []) with
                                | [] => (w3, SccmDone downloaded_files)
                                | (_ :: _) as to_extract =>
                                    match sccm_extract_loop E (joinpath output_dir "SCCM")
                                            to_extract w3 with
                                    | (w4, true) => (w4, SccmDone downloaded_files)
                                    | (w4, false) => (w4, SccmRaised)
                                    end
                                end
                            end
                        end
                    end
                end <> NoneSelected).
  { intros l Hl. destruct (mapM (py_nth pkgs) l) as [[|q qs]|] eqn:Hm; [| |done].
    - apply length_mapM in Hm. destruct l; done.
    - destruct (fs_mkdir_parents _ _); [|done].
      destruct (fs_mkdir _ _); [|done].
      destruct (sccm_download_loop _ _ _ _ _) as [w3 [dl|]]; [|done].
      destruct (if extract then dl else []); [done|].
      destruct (sccm_extract_loop _ _ _ _) as [w4 []]; done. }
  unfold main_selected_indices. destruct sccm_packages_arg as [[|i l]|]; cbv beta iota.
  - destruct (prompt_selection _ keys) as [|l|] eqn:Hp; [done| |done].
    apply Hsel. by eapply prompt_selection_nonempty.
  - apply (Hsel (map (fun idx => idx - 1)%Z (i :: l))). done.
  - destruct (prompt_selection _ keys) as [|l|] eqn:Hp; [done| |done].
    apply Hsel. by eapply prompt_selection_nonempty.
Qed.

(** ** Which part of the program does what *)

(** *** The download loops run no tool *)

Lemma run_tasks_tool_log E tasks : forall w,
  tool_log (fst (run_tasks E tasks w)) = tool_log w.
Proof.
  induction tasks as [|[[file_info category_dir] t] rest IH]; intros w; [done|].
  rewrite run_tasks_cons. simpl. rewrite IH.
  destruct (download_file_cases E file_info category_dir w); done.
Qed.

Lemma unlink_if_exists_logs p w w' :
  unlink_if_exists p w = Some w' ->
  http_log w' = http_log w /\ tool_log w' = tool_log w /\ write_log w' = write_log w.
Proof.
  unfold unlink_if_exists. destruct (fs_exists _ _); [|by intros [= <-]].
  destruct (fs_unlink _ _); [|done]. by intros [= <-].
Qed.

Lemma sccm_download_one_logs E sccm_dir file_info w downloaded_files :
  let w' := fst (sccm_download_one E sccm_dir file_info w downloaded_files) in
  tool_log w' = tool_log w
  /\ exists new, write_log w' = write_log w ++ new
                 /\ Forall (fun e => (snd e <= chunk_size)%nat) new.
Proof.
  unfold sccm_download_one. destruct (fs_exists _ _).
  { simpl. split; [done|]. exists []. by rewrite app_nil_r. }
  destruct (sccm_download_try E _ _ w) as [w1 res] eqn:Htry.
  destruct (sccm_download_try_logs _ _ _ _ _ _ Htry) as [_ Ht].
  destruct (sccm_download_streams _ _ _ _ _ _ Htry) as (new & Hw & Hb).
  destruct res as [e|]; [|simpl; eauto].
  destruct (unlink_if_exists _ w1) as [w2|] eqn:Hu; [|simpl; eauto].
  apply unlink_if_exists_logs in Hu as (_ & Ht2 & Hw2). simpl.
  rewrite Ht2, Hw2. eauto.
Qed.

Lemma sccm_download_loop_logs E sccm_dir todo : forall w downloaded_files,
  let w' := fst (sccm_download_loop E sccm_dir todo w downloaded_files) in
  tool_log w' = tool_log w
  /\ exists new, write_log w' = write_log w ++ new
                 /\ Forall (fun e => (snd e <= chunk_size)%nat) new.
Proof.
  induction todo as [|file_info rest IH]; intros w dl; simpl.
  { split; [done|]. exists []. by rewrite app_nil_r. }
  pose proof (sccm_download_one_logs E sccm_dir file_info w dl) as (Ht & new & Hw & Hb).
  destruct (sccm_download_one E sccm_dir file_info w dl) as [w1 [dl1|]]; simpl in *;
    [|eauto].
  destruct (IH w1 dl1) as (Ht' & new' & Hw' & Hb'). split; [congruence|].
  exists (new ++ new'). rewrite Hw', Hw, app_assoc. split; [done|].
  by apply Forall_app.
Qed.

(** *** The extraction makes no request and writes no file itself *)

Lemma subprocess_run_transfers E argv w :
  http_log (fst (subprocess_run E argv w)) = http_log w
  /\ write_log (fst (subprocess_run E argv w)) = write_log w.
Proof. done. Qed.

Lemma cleanup_step_transfers extract_dir w artifact :
  http_log (cleanup_step extract_dir w artifact) = http_log w
  /\ write_log (cleanup_step extract_dir w artifact) = write_log w.
Proof.
  unfold cleanup_step. destruct (fs_exists _ _); [|done].
  destruct (fs_unlink _ _); done.
Qed.

Lemma cleanup_transfers extract_dir w :
  http_log (_cleanup_extract_artifacts extract_dir w) = http_log w
  /\ write_log (_cleanup_extract_artifacts extract_dir w) = write_log w.
Proof.
  unfold _cleanup_extract_artifacts, artifacts. simpl.
  split.
  - by rewrite !(proj1 (cleanup_step_transfers _ _ _)).
  - by rewrite !(proj2 (cleanup_step_transfers _ _ _)).
Qed.

Lemma stage2_attempt_transfers E argv extract_dir w :
  match stage2_attempt E argv extract_dir w with
  | Won w' | Lost w' | Aborted w' =>
      http_log w' = http_log w /\ write_log w' = write_log w
  end.
Proof.
  unfold stage2_attempt, subprocess_run.
  destruct (run_tool E _ argv (fs w)) as [rc f|f|f]; simpl; try done.
  destruct (rc =? 0)%Z; [|done].
  match goal with |- context [_cleanup_extract_artifacts extract_dir ?w1] =>
    destruct (cleanup_transfers extract_dir w1) as [-> ->]
  end. done.
Qed.

Lemma stage2_chain_transfers E extract_dir candidates : forall w,
  http_log (fst (stage2_chain E candidates extract_dir w)) = http_log w
  /\ write_log (fst (stage2_chain E candidates extract_dir w)) = write_log w.
Proof.
  induction candidates as [|argv rest IH]; intros w; simpl; [done|].
  pose proof (stage2_attempt_transfers E argv extract_dir w) as Ha.
  destruct (stage2_attempt E argv extract_dir w) as [w'|w'|w']; simpl; try done.
  destruct (IH w') as [-> ->]. done.
Qed.

Lemma _extract_sccm_unix_transfers E exe_path extract_dir w :
  http_log (fst (_extract_sccm_unix E exe_path extract_dir w)) = http_log w
  /\ write_log (fst (_extract_sccm_unix E exe_path extract_dir w)) = write_log w.
Proof.
  unfold _extract_sccm_unix. destruct (List.find _ _) as [sevenz_cmd|]; [|done].
  unfold subprocess_run.
  destruct (run_tool E _ _ (fs w)) as [rc f|f|f]; simpl; try done.
  destruct (rc =? 0)%Z; simpl; [|done].
  destruct (fs_exists f _); simpl; [|done].
  rewrite extract_inner_payload_in_order.
  match goal with |- context [stage2_chain E ?c extract_dir ?w1] =>
    destruct (stage2_chain_transfers E extract_dir c w1) as [-> ->]
  end. done.
Qed.

Lemma _extract_sccm_windows_transfers E exe_path extract_dir w :
  http_log (fst (_extract_sccm_windows E exe_path extract_dir w)) = http_log w
  /\ write_log (fst (_extract_sccm_windows E exe_path extract_dir w)) = write_log w.
Proof.
  unfold _extract_sccm_windows, subprocess_run.
  destruct (run_tool E _ _ (fs w)) as [rc f|f|f]; simpl; try done.
  destruct (exited_or_populated rc f extract_dir) as [[]|]; simpl; try done.
  destruct (run_tool E _ _ f) as [rc2 f2|f2|f2]; simpl; try done.
  destruct (exited_or_populated rc2 f2 extract_dir) as [[]|]; done.
Qed.

Lemma extract_sccm_package_transfers E exe_path extract_dir w :
  http_log (fst (extract_sccm_package E exe_path extract_dir w)) = http_log w
  /\ write_log (fst (extract_sccm_package E exe_path extract_dir w)) = write_log w.
Proof.
  unfold extract_sccm_package. destruct (fs_mkdir_parents _ _) as [f|]; [|done].
  destruct (win32 E).
  - pose proof (_extract_sccm_windows_transfers E exe_path extract_dir (set_fs w f)) as H.
    destruct (_extract_sccm_windows _ _ _ _). exact H.
  - pose proof (_extract_sccm_unix_transfers E exe_path extract_dir (set_fs w f)) as H.
    destruct (_extract_sccm_unix _ _ _ _). exact H.
Qed.

Lemma sccm_extract_one_transfers E sccm_dir filepath w :
  http_log (fst (sccm_extract_one E sccm_dir filepath w)) = http_log w
  /\ write_log (fst (sccm_extract_one E sccm_dir filepath w)) = write_log w.
Proof.
  unfold sccm_extract_one. destruct (String.eqb _ _); [|done].
  destruct (already_extracted _ _) as [[]|]; try done.
  pose proof (extract_sccm_package_transfers E filepath
                (joinpath sccm_dir (path_stem filepath)) w) as H.
  destruct (extract_sccm_package _ _ _ _) as [w' [ok|]]; exact H.
Qed.

Lemma sccm_extract_loop_transfers E sccm_dir downloaded_files : forall w,
  http_log (fst (sccm_extract_loop E sccm_dir downloaded_files w)) = http_log w
  /\ write_log (fst (sccm_extract_loop E sccm_dir downloaded_files w)) = write_log w.
Proof.
  induction downloaded_files as [|filepath rest IH]; intros w; simpl; [done|].
  pose proof (sccm_extract_one_transfers E sccm_dir filepath w) as H.
  destruct (sccm_extract_one E sccm_dir filepath w) as [w1 []]; simpl in *; [|done].
  destruct (IH w1) as [-> ->]. done.
Qed.

(** *** The workflows *)

(** The world of the workflow after its download loop and, when it
    extracts, after its extraction loop. *)
Lemma download_sccm_packages_cases E output_dir sccm_packages extract selected_indices
  keys w :
  let r := download_sccm_packages E output_dir sccm_packages extract selected_indices
             keys w in
  let sccm_dir := joinpath output_dir "SCCM" in
  fst r = w
  \/ (snd r = SccmRaised \/ exists downloaded_files, snd r = SccmDone downloaded_files)
     /\ ((exists f1, fst r = set_fs w f1)
         \/ exists f2 todo,
              let l := sccm_download_loop E sccm_dir todo (set_fs w f2) [] in
              fst r = fst l
              \/ extract = true
                 /\ exists downloaded_files,
                      fst r = fst (sccm_extract_loop E sccm_dir downloaded_files (fst l))).
Proof.
  unfold download_sccm_packages. cbv zeta.
  destruct sccm_packages as [|p ps]; [by left|]. set (pkgs := p :: ps).
  destruct (match selected_indices with
            | Some l => Chosen l
            | None => prompt_selection (length pkgs) keys
            end) as [|l|]; [by left| |by left].
  destruct (mapM (py_nth pkgs) l) as [[|q qs]|]; [by left| |by left].
  destruct (fs_mkdir_parents _ _) as [f1|]; [|by left].
  destruct (fs_mkdir f1 _) as [f2|]; [|right; split; [by left|left; by eexists]].
  right. set (todo := flat_map pkg_files (q :: qs)).
  destruct (sccm_download_loop E (joinpath output_dir "SCCM") todo (set_fs w f2) [])
    as [w3 [dl|]] eqn:Hl; [|split; [by left|]; right; exists f2, todo; left; by rewrite Hl].
  destruct extract; cbv iota;
    [|split; [right; by eexists|]; right; exists f2, todo; left; by rewrite Hl].
  destruct dl as [|d dl'];
    [split; [right; by eexists|]; right; exists f2, todo; left; by rewrite Hl|].
  destruct (sccm_extract_loop E (joinpath output_dir "SCCM") (d :: dl') w3)
    as [w4 ok] eqn:He.
  split; [destruct ok; [right; by eexists|by left]|].
  right. exists f2, todo. right. split; [done|]. exists (d :: dl').
  rewrite Hl. change ((w3, Some (d :: dl')).1) with w3. rewrite He. by destruct ok.
Qed.

(** X14: downloading runs no external tool: neither the bulk workflow
    nor the specialized-package workflow without extraction invokes
    one, whatever the servers answer. *)
Theorem downloads_run_no_tool E serial_number product_info output_dir drivers categories
  sccm_packages selected_indices keys w :
  tool_log (fst (download_all_drivers E serial_number product_info output_dir drivers
                   categories w)) = tool_log w
  /\ tool_log (fst (download_sccm_packages E output_dir sccm_packages false
                      selected_indices keys w)) = tool_log w.
Proof.
  split.
  - unfold download_all_drivers. destruct drivers as [|d ds]; [done|].
    destruct (fs_mkdir_parents _ _) as [f1|]; [|done].
    destruct (fs_open _ _ _) as [f2|]; [|done].
    destruct (prepare_tasks _ _ _) as [f4 [tasks|]]; [|done].
    pose proof (run_tasks_tool_log E tasks (set_fs w f4)) as H.
    destruct (run_tasks E tasks (set_fs w f4)) as [w5 os]. exact H.
  - destruct (download_sccm_packages_cases E output_dir sccm_packages false
                selected_indices keys w) as [->|[_ [[f1 ->]|(f2 & todo & H)]]];
      [done|done|].
    destruct H as [->|[? _]]; [|done].
    by rewrite (proj1 (sccm_download_loop_logs E _ todo (set_fs w f2) [])).
Qed.

(** X15: the specialized-package workflow streams every body: each
    write of a run, with or without extraction, is a piece of at most
    [chunk_size] bytes, whatever the [content-length]. *)
Theorem sccm_workflow_streams E output_dir sccm_packages extract selected_indices keys w :
  exists new,
    write_log (fst (download_sccm_packages E output_dir sccm_packages extract
                      selected_indices keys w)) = write_log w ++ new
    /\ Forall (fun e => (snd e <= chunk_size)%nat) new.
Proof.
  destruct (download_sccm_packages_cases E output_dir sccm_packages extract
              selected_indices keys w) as [->|[_ [[f1 ->]|(f2 & todo & H)]]];
    [exists []; by rewrite app_nil_r|exists []; by rewrite app_nil_r|].
  destruct (sccm_download_loop_logs E (joinpath output_dir "SCCM") todo (set_fs w f2) [])
    as (_ & new & Hw & Hb).
  exists new. split; [|done].
  destruct H as [->|(_ & dl & ->)]; [done|].
  by rewrite (proj2 (sccm_extract_loop_transfers _ _ _ _)).
Qed.

(** X16: extracting requests nothing and writes nothing through the
    program itself: [extract_sccm_package] leaves the record of
    requests and of writes as it is, and a run of the workflow with
    extraction requests and writes what the run without it does. *)
Theorem extraction_transfers_nothing E output_dir sccm_packages selected_indices keys w
  exe_path extract_dir :
  let w1 := fst (extract_sccm_package E exe_path extract_dir w) in
  let w2 := fst (download_sccm_packages E output_dir sccm_packages true
                   selected_indices keys w) in
  let w3 := fst (download_sccm_packages E output_dir sccm_packages false
                   selected_indices keys w) in
  http_log w1 = http_log w /\ write_log w1 = write_log w
  /\ http_log w2 = http_log w3 /\ write_log w2 = write_log w3.
Proof.
  cbv zeta. split; [apply extract_sccm_package_transfers|].
  split; [apply extract_sccm_package_transfers|].
  unfold download_sccm_packages.
  destruct sccm_packages as [|p ps]; [done|]. set (pkgs := p :: ps).
  destruct (match selected_indices with
            | Some l => Chosen l
            | None => prompt_selection (length pkgs) keys
            end) as [|l|]; [done| |done].
  destruct (mapM (py_nth pkgs) l) as [[|q qs]|]; [done| |done].
  destruct (fs_mkdir_parents _ _) as [f1|]; [|done].
  destruct (fs_mkdir f1 _) as [f2|]; [|done].
  destruct (sccm_download_loop E (joinpath output_dir "SCCM") _ (set_fs w f2) [])
    as [w' [dl|]]; [|done].
  cbv iota. destruct dl as [|d dl']; [done|].
  pose proof (sccm_extract_loop_transfers E (joinpath output_dir "SCCM") (d :: dl') w')
    as H.
  destruct (sccm_extract_loop E (joinpath output_dir "SCCM") (d :: dl') w') as [w4 []];
    exact H.
Qed.

(** X17: the workflow ends with [No SCCM packages found] exactly when
    there is no package, only the prompt can cancel it, and when it
    ends in one of these ways or with no package selected it has
    created, requested and run nothing. *)
Theorem sccm_endings_without_effect E output_dir sccm_packages extract selected_indices
  keys w :
  let r := download_sccm_packages E output_dir sccm_packages extract selected_indices
             keys w in
  (snd r = NoPackages <-> sccm_packages = [])
  /\ (snd r = SccmCancelled -> selected_indices = None)
  /\ (snd r = NoPackages \/ snd r = SccmCancelled \/ snd r = NoneSelected -> fst r = w).
Proof.
  cbv zeta. split; [|split].
  - unfold download_sccm_packages. destruct sccm_packages as [|p ps]; [done|].
    set (pkgs := p :: ps). split; [|done].
    destruct (match selected_indices with
              | Some l => Chosen l
              | None => prompt_selection (length pkgs) keys
              end) as [|l|]; [done| |done].
    destruct (mapM (py_nth pkgs) l) as [[|q qs]|]; [done| |done].
    destruct (fs_mkdir_parents _ _) as [f1|]; [|done].
    destruct (fs_mkdir f1 _) as [f2|]; [|done].
    destruct (sccm_download_loop E _ _ _ _) as [w' [dl|]]; [|done].
    destruct (if extract then dl else []); [done|].
    destruct (sccm_extract_loop E _ _ _) as [w4 []]; done.
  - unfold download_sccm_packages. destruct sccm_packages as [|p ps]; [done|].
    set (pkgs := p :: ps). destruct selected_indices as [l|]; [|done].
    destruct (mapM (py_nth pkgs) l) as [[|q qs]|]; [done| |done].
    destruct (fs_mkdir_parents _ _) as [f1|]; [|done].
    destruct (fs_mkdir f1 _) as [f2|]; [|done].
    destruct (sccm_download_loop E _ _ _ _) as [w' [dl|]]; [|done].
    destruct (if extract then dl else []); [done|].
    destruct (sccm_extract_loop E _ _ _) as [w4 []]; done.
  - intros H.
    destruct (download_sccm_packages_cases E output_dir sccm_packages extract
                selected_indices keys w) as [Hw|[[Hr|[dl Hr]] _]]; [done|exfalso..];
      rewrite Hr in H; by destruct H as [|[|]].
Qed.

Lemma sccm_endings_without_effect_witness :
  fst (download_sccm_packages offline ["out"] five_packages true None [Line "none"]
         empty_world) = empty_world.
Proof.
  apply (sccm_endings_without_effect offline ["out"] five_packages true None
           [Line "none"] empty_world).
  right. left. reflexivity.
Defined.

(** *** What [downloaded_files] holds *)

Lemma sccm_download_loop_exist E sccm_dir todo : forall w downloaded_files w' result,
  Forall (fun p => fs_exists (fs w) p = true) downloaded_files ->
  sccm_download_loop E sccm_dir todo w downloaded_files = (w', Some result) ->
  Forall (fun p => fs_exists (fs w') p = true) result
  /\ exists added, result = downloaded_files ++ added
                   /\ added `sublist_of` map (sccm_path sccm_dir) todo.
Proof.
  induction todo as [|file_info rest IH]; intros w dl w' result Hdl; simpl.
  - intros [= <- <-]. split; [done|]. exists []. by rewrite app_nil_r.
  - pose proof (sccm_download_one_cases E sccm_dir file_info w dl) as Hc.
    destruct (sccm_download_one E sccm_dir file_info w dl) as [w1 [dl1|]];
      simpl in Hc; [|inversion Hc].
    intros Hloop.
    assert (Hdl1 : Forall (fun p => fs_exists (fs w1) p = true) dl1
                   /\ exists a, dl1 = dl ++ a
                                /\ a `sublist_of` [sccm_path sccm_dir file_info]).
    { inversion Hc as [Hex|w1' b Hex Hfs|w1' Hex Hfs]; subst.
      - split; [apply Forall_app; split; [done|by repeat constructor]|].
        by exists [sccm_path sccm_dir file_info].
      - apply fs_exists_false in Hex as [Hnone Hne].
        split; [|by exists [sccm_path sccm_dir file_info]].
        apply Forall_app. split.
        + eapply Forall_impl; [exact Hdl|]. intros q Hq. simpl in *.
          eapply fs_exists_mono; [|exact Hq]. rewrite Hfs. by apply insert_subseteq.
        + repeat constructor. rewrite Hfs. by apply fs_exists_insert.
      - split; [by rewrite Hfs|]. exists []. rewrite app_nil_r. split; [done|].
        apply sublist_nil_l. }
    destruct Hdl1 as (Hex1 & a & -> & Ha).
    destruct (IH _ _ _ _ Hex1 Hloop) as (Hres & added & -> & Hadded).
    split; [done|]. exists (a ++ added). rewrite app_assoc. split; [done|].
    change (sccm_path sccm_dir file_info :: map (sccm_path sccm_dir) rest)
      with ([sccm_path sccm_dir file_info] ++ map (sccm_path sccm_dir) rest).
    by apply sublist_app.
Qed.

(** X18: when the download loop of the workflow is over, every path in
    [downloaded_files] exists, and these paths are destinations of the
    selected files, in the order of the files. *)
Theorem downloaded_files_exist E sccm_dir todo w w' downloaded_files :
  sccm_download_loop E sccm_dir todo w [] = (w', Some downloaded_files) ->
  Forall (fun p => fs_exists (fs w') p = true) downloaded_files
  /\ downloaded_files `sublist_of` map (sccm_path sccm_dir) todo.
Proof.
  intros H. destruct (sccm_download_loop_exist E sccm_dir todo w [] w' downloaded_files)
    as (Hex & added & -> & Hsub); done.
Qed.

Lemma downloaded_files_exist_witness :
  let todo := [entry "https://host/a/x.exe"; entry "https://host/b/y.exe";
               entry "https://host/sccm/pack5.exe"] in
  let r := sccm_download_loop mirror_a_down ["out"; "SCCM"] todo downloaded_world [] in
  snd r = Some [["out"; "SCCM"; "y.exe"]; ["out"; "SCCM"; "pack5.exe"]]
  /\ Forall (fun p => fs_exists (fs (fst r)) p = true)
       [["out"; "SCCM"; "y.exe"]; ["out"; "SCCM"; "pack5.exe"]].
Proof.
  intros todo r. split; [vm_compute; reflexivity|].
  apply (downloaded_files_exist mirror_a_down ["out"; "SCCM"] todo downloaded_world
           (fst r) [["out"; "SCCM"; "y.exe"]; ["out"; "SCCM"; "pack5.exe"]]).
  vm_compute. reflexivity.
Defined.

(** ** The extraction pipeline *)

(** *** The cleanup *)

Lemma artifact_paths extract_dir :
  map (joinpath extract_dir) artifacts = map (fun a => extract_dir ++ [a]) artifacts.
Proof. reflexivity. Qed.

Lemma cleanup_step_frame extract_dir w artifact p :
  p <> joinpath extract_dir artifact ->
  fs (cleanup_step extract_dir w artifact) !! p = fs w !! p.
Proof.
  intros Hne. unfold cleanup_step. destruct (fs_exists _ _); [|done].
  unfold fs_unlink. destruct (fs w !! joinpath extract_dir artifact) as [[c|]|]; try done.
  simpl. by rewrite lookup_delete_ne.
Qed.

Lemma cleanup_step_keeps_dir extract_dir w artifact p :
  fs w !! p = Some Dir -> fs (cleanup_step extract_dir w artifact) !! p = Some Dir.
Proof.
  intros Hd. destruct (decide (p = joinpath extract_dir artifact)) as [->|Hne];
    [|by rewrite cleanup_step_frame].
  unfold cleanup_step. destruct (fs_exists _ _); [|done].
  unfold fs_unlink. by rewrite Hd.
Qed.

Lemma cleanup_step_subseteq extract_dir w artifact :
  fs (cleanup_step extract_dir w artifact) ⊆ fs w.
Proof.
  unfold cleanup_step. destruct (fs_exists _ _); [|done].
  unfold fs_unlink. destruct (fs w !! joinpath extract_dir artifact) as [[c|]|]; try done.
  simpl. apply delete_subseteq.
Qed.

Lemma cleanup_step_idle extract_dir w a :
  is_file (fs w) (extract_dir ++ [a]) = false ->
  joinpath extract_dir a = extract_dir ++ [a] ->
  cleanup_step extract_dir w a = w.
Proof.
  intros Hf Hj. unfold cleanup_step. rewrite Hj. destruct (fs_exists _ _); [|done].
  unfold fs_unlink. revert Hf. unfold is_file, fs_lookup.
  destruct (extract_dir ++ [a]) as [|c p] eqn:Hp; [by destruct extract_dir|].
  destruct (fs w !! (c :: p)) as [[x|]|]; done.
Qed.

(** X19: the cleanup removes regular files named [[0]], [CERTIFICATE],
    [[1]] and [[2]] in the extraction directory and nothing else: every
    other path, and every directory, is kept as it is, nothing is
    created, no request is made and no tool is run; cleaning up twice
    is cleaning up once. *)
Theorem cleanup_removes_only_artifacts extract_dir w :
  let w' := _cleanup_extract_artifacts extract_dir w in
  Forall (fun a => is_file (fs w') (extract_dir ++ [a]) = false)
    ["[0]"; "CERTIFICATE"; "[1]"; "[2]"]
  /\ (forall p, p ∉ map (fun a => extract_dir ++ [a]) ["[0]"; "CERTIFICATE"; "[1]"; "[2]"] ->
        fs w' !! p = fs w !! p)
  /\ (forall p, fs w !! p = Some Dir -> fs w' !! p = Some Dir)
  /\ fs w' ⊆ fs w
  /\ http_log w' = http_log w /\ tool_log w' = tool_log w /\ write_log w' = write_log w
  /\ _cleanup_extract_artifacts extract_dir w' = w'.
Proof.
  intros w'.
  assert (Hgone : Forall (fun a => is_file (fs w') (extract_dir ++ [a]) = false)
                    ["[0]"; "CERTIFICATE"; "[1]"; "[2]"]).
  { pose proof (cleanup_removes_artifacts extract_dir w) as H. unfold artifacts in H.
    rewrite !Forall_cons in H. destruct H as (H0 & H1 & H2 & H3 & _).
    repeat constructor; [exact H0|exact H1|exact H2|exact H3]. }
  split; [exact Hgone|]. split; [|split; [|split; [|split; [|split; [|split]]]]].
  - intros p Hp. subst w'. unfold _cleanup_extract_artifacts, artifacts. simpl.
    rewrite !cleanup_step_frame; [done|..];
      intros ->; apply Hp; change (joinpath extract_dir ?a) with (extract_dir ++ [a]);
      set_solver.
  - intros p Hp. subst w'. unfold _cleanup_extract_artifacts, artifacts. simpl.
    by do 4 apply cleanup_step_keeps_dir.
  - subst w'. unfold _cleanup_extract_artifacts, artifacts. simpl.
    repeat (etrans; [apply cleanup_step_subseteq|]). done.
  - apply cleanup_transfers.
  - apply cleanup_logs.
  - apply cleanup_transfers.
  - inversion Hgone as [|? ? H0 Hgone1]; subst.
    inversion Hgone1 as [|? ? H1 Hgone2]; subst.
    inversion Hgone2 as [|? ? H2 Hgone3]; subst.
    inversion Hgone3 as [|? ? H3 _]; subst.
    unfold _cleanup_extract_artifacts at 1. unfold artifacts. simpl.
    rewrite (cleanup_step_idle extract_dir w' "[0]" H0) by reflexivity.
    rewrite (cleanup_step_idle extract_dir w' "CERTIFICATE" H1) by reflexivity.
    rewrite (cleanup_step_idle extract_dir w' "[1]" H2) by reflexivity.
    by rewrite (cleanup_step_idle extract_dir w' "[2]" H3) by reflexivity.
Qed.

(** *** The extractor of macOS and Linux *)

Lemma stage2_candidates_length sevenz_cmd innoextract_cmd cabextract_cmd extract_dir
  payload_file :
  (length (stage2_candidates sevenz_cmd innoextract_cmd cabextract_cmd extract_dir
             payload_file) <= 3)%nat.
Proof.
  unfold stage2_candidates. destruct cabextract_cmd, innoextract_cmd; simpl; lia.
Qed.

(** X20: without 7-Zip the extractor runs nothing and fails, whatever
    else is installed.  Otherwise its first run is the outer unpack by
    the first of [7z], [7zz], [7za] that is installed; an outer unpack
    that does not exit with status 0 is the only run and the extraction
    has failed; at most three more runs follow, and the extraction
    succeeds only if the last run of all has exited with status 0. *)
Theorem unix_extraction_starts_with_outer_unpack E exe_path extract_dir w :
  let r := _extract_sccm_unix E exe_path extract_dir w in
  (Forall (fun cmd => installed E cmd = false) ["7z"; "7zz"; "7za"] /\ r = (w, false))
  \/ exists sevenz_cmd rc rest,
       List.find (installed E) ["7z"; "7zz"; "7za"] = Some sevenz_cmd
       /\ tool_log (fst r)
          = tool_log w ++ (sevenz_outer_argv sevenz_cmd extract_dir exe_path, rc) :: rest
       /\ (length rest <= 3)%nat
       /\ (rc <> Some 0%Z -> rest = [] /\ snd r = false)
       /\ (snd r = true ->
           exists argv,
             last ((sevenz_outer_argv sevenz_cmd extract_dir exe_path, rc) :: rest)
             = Some (argv, Some 0%Z)).
Proof.
  intros r. subst r. unfold _extract_sccm_unix. fold (installed E).
  destruct (List.find (installed E) ["7z"; "7zz"; "7za"]) as [sevenz_cmd|] eqn:Hf.
  - right. exists sevenz_cmd. unfold subprocess_run.
    destruct (run_tool E _ _ (fs w)) as [rc f|f|f] eqn:Hrun; simpl.
    + destruct (rc =? 0)%Z eqn:Hrc; simpl.
      * apply Z.eqb_eq in Hrc as ->.
        destruct (fs_exists f (joinpath extract_dir "[0]")); simpl.
        -- rewrite extract_inner_payload_in_order.
           match goal with |- context [stage2_chain E ?c extract_dir ?w1] =>
             destruct (stage2_chain_log E extract_dir c w1)
               as (new & Hlog & Hpre & _ & Hok & _);
             pose proof (stage2_candidates_length sevenz_cmd (which E "innoextract")
                           (which E "cabextract") extract_dir
                           (joinpath extract_dir "[0]")) as Hlen
           end.
           exists (Some 0%Z), new. split; [done|]. split.
           { rewrite Hlog. simpl. by rewrite <- app_assoc. }
           split.
           { apply prefix_length in Hpre. rewrite length_map in Hpre. lia. }
           split; [done|]. intros Ht. apply Hok in Ht as [argv Hlast].
           exists argv. destruct new; [done|exact Hlast].
        -- exists (Some 0%Z), []. repeat split; try done; simpl; try lia.
           intros _. by eexists.
      * apply Z.eqb_neq in Hrc. exists (Some rc), [].
        repeat split; try done; simpl; lia.
    + exists None, []. repeat split; try done; simpl; lia.
    + exists None, []. repeat split; try done; simpl; lia.
  - left. split; [|done]. apply Forall_forall. intros cmd Hin%list_elem_of_In.
    by apply (find_none _ _ Hf).
Qed.

(** *** The extractor of Windows *)


(** ** The product lookup *)

(** *** The search for the product identifier in the page *)




Lemma strip_prefix_app p s : strip_prefix p (p ++ s)%string = Some s.
Proof.
  induction p as [|a p IH]; [by destruct s|].
  change (String a p ++ s)%string with (String a (p ++ s)%string). simpl.
  by rewrite Ascii.eqb_refl.
Qed.

Lemma skip_spaces_app blanks rest :
  skip_spaces blanks = "" -> skip_spaces (blanks ++ rest)%string = skip_spaces rest.
Proof.
  induction blanks as [|c blanks IH]; [done|].
  change (String c blanks ++ rest)%string with (String c (blanks ++ rest)%string). simpl.
  destruct (is_space c); [exact IH|done].
Qed.

Lemma until_quote_app x post :
  has_char quote_char x = false ->
  until_quote (x ++ String quote_char post)%string = Some x.
Proof.
  induction x as [|c x IH]; intros H.
  - reflexivity.
  - change (until_quote (String c (x ++ String quote_char post)%string) = Some (String c x)).
    simpl in *. apply orb_false_iff in H as [Hc Hx]. rewrite Hc, (IH Hx). done.
Qed.

Lemma search_product_id_here text product_id :
  match_product_id_here text = Some product_id ->
  search_product_id text = Some product_id.
Proof. intros H. destruct text; cbn [search_product_id]; by rewrite H. Qed.

(** X22: a page that starts with the key [productId] between double
    quotes, a colon, blanks if any, and between double quotes an
    identifier that is not empty and holds no double quote, gives this
    identifier, whatever follows. *)
Theorem product_id_search_finds_quoted_id blanks product_id post :
  product_id <> "" ->
  has_char quote_char product_id = false ->
  skip_spaces blanks = "" ->
  search_product_id
    (product_id_key ++ blanks ++ String quote_char (product_id ++ String quote_char post))
  = Some product_id.
Proof.
  intros Hne Hq Hb.
  assert (Hm : match_product_id_here
                 (product_id_key ++ blanks
                  ++ String quote_char (product_id ++ String quote_char post))
               = Some product_id).
  { unfold match_product_id_here. rewrite strip_prefix_app, (skip_spaces_app _ _ Hb).
    assert (Hs : skip_spaces (String quote_char (product_id ++ String quote_char post))
                 = String quote_char (product_id ++ String quote_char post)) by reflexivity.
    rewrite Hs, Ascii.eqb_refl, (until_quote_app _ _ Hq).
    by destruct product_id. }
  by apply search_product_id_here.
Qed.

Lemma product_id_search_finds_quoted_id_witness :
  search_product_id
    (product_id_key ++ " " ++ String quote_char ("20XX" ++ String quote_char ", more"))
  = Some "20XX".
Proof.
  apply (product_id_search_finds_quoted_id " " "20XX" ", more");
    [discriminate|reflexivity|reflexivity].
Defined.

(** *** [get_product_info] *)



(** *** [get_drivers_list] and its requests *)

(** X24: for a product that is a dictionary with an entry,
    [get_drivers_list] asks the drivers API for the [Id] of the
    product, or for the serial number when the product has no [Id];
    it asks the V2 endpoint exactly when the first block has not run
    to its [return]: no status 200, no JSON, or an exception on the
    way.  It returns what the two replies give, and touches no file
    and no tool. *)
Theorem v2_asked_only_after_primary_failure S serial field fields w :
  let product_info := JObj (field :: fields) in
  let product_id :=
    py_str S (match dict_get (field :: fields) "Id" with
              | Some v => v
              | None => JStr serial
              end) in
  let reply1 := reply_200 (site_get S (length (http_log w)) (drivers_api product_id)) in
  let reply2 :=
    reply_200 (site_get S (Datatypes.S (length (http_log w))) (drivers_api_v2 product_id)) in
  let r := get_drivers_list_requests S serial (Some product_info) w in
  snd r = Some (get_drivers_list reply1 reply2)
  /\ (http_log (fst r) = http_log w ++ [drivers_api product_id]
      <-> exists data downloads,
            reply1 = Some data /\ primary_downloads data = Some downloads
            /\ snd (append_items primary_item downloads []) = true)
  /\ (http_log (fst r) = http_log w ++ [drivers_api product_id]
      \/ http_log (fst r)
         = http_log w ++ [drivers_api product_id; drivers_api_v2 product_id])
  /\ fs (fst r) = fs w /\ tool_log (fst r) = tool_log w /\ write_log (fst r) = write_log w.
Proof.
  intros product_info product_id reply1 reply2 r. subst r.
  unfold get_drivers_list_requests, ensure_product_info.
  change (truthy product_info) with true. cbv iota.
  change (py_get product_info "Id" (JStr serial))
    with (Some (match dict_get (field :: fields) "Id" with
                | Some v => v
                | None => JStr serial
                end)).
  cbv iota. fold product_id. unfold catalog_get. fold reply1.
  assert (Hlen : length (http_log w ++ [drivers_api product_id])
                 = Datatypes.S (length (http_log w)))
    by (rewrite length_app; simpl; lia).
  assert (Hne : http_log w ++ [drivers_api product_id; drivers_api_v2 product_id]
                <> http_log w ++ [drivers_api product_id]).
  { intros H%app_inv_head. discriminate. }
  unfold get_drivers_list.
  destruct reply1 as [data|] eqn:H1.
  - destruct (primary_downloads data) as [downloads|] eqn:Hd.
    + destruct (append_items primary_item downloads []) as [drivers returned] eqn:Ha.
      destruct returned; simpl.
      * split; [done|]. split; [|by auto]. split; [|done].
        intros _. exists data, downloads. by rewrite Ha.
      * rewrite Hlen. fold reply2. rewrite <- app_assoc. simpl.
        split; [done|]. split; [|by auto]. split; [done|].
        intros (data' & downloads' & [= <-] & Hd' & Hr). rewrite Hd in Hd'.
        injection Hd' as <-. by rewrite Ha in Hr.
    + simpl. rewrite Hlen. fold reply2. rewrite <- app_assoc. simpl.
      split; [done|]. split; [|by auto]. split; [done|].
      intros (data' & downloads' & [= <-] & Hd' & _). congruence.
  - simpl. rewrite Hlen. fold reply2. rewrite <- app_assoc. simpl.
    split; [done|]. split; [|by auto]. split; [done|].
    by intros (data' & downloads' & ? & _).
Qed.

(** ** [list_categories] *)

Lemma count_files_keys cat k categories :
  map fst (count_files cat k categories)
  = if decide (cat ∈ map fst categories) then map fst categories
    else map fst categories ++ [cat].
Proof.
  induction categories as [|[c n] rest IH]; simpl; [done|].
  destruct (String.eqb c cat) eqn:Hc.
  - apply String.eqb_eq in Hc as ->. simpl.
    destruct (decide (cat ∈ cat :: map fst rest)) as [|Hn]; [done|].
    exfalso. apply Hn. by left.
  - apply String.eqb_neq in Hc. simpl. rewrite IH.
    destruct (decide (cat ∈ map fst rest)) as [Hin|Hin];
      destruct (decide (cat ∈ c :: map fst rest)) as [Hin'|Hin']; try done.
    + exfalso. apply Hin'. by right.
    + apply elem_of_cons in Hin' as [->|?]; done.
Qed.

Lemma count_files_elem cat k categories c n :
  NoDup (map fst categories) ->
  (c, n) ∈ count_files cat k categories ->
  c <> cat /\ (c, n) ∈ categories
  \/ c = cat /\ ((exists m, (cat, m) ∈ categories /\ n = (m + k)%nat)
                 \/ (cat ∉ map fst categories) /\ n = k).
Proof.
  induction categories as [|[c0 n0] rest IH]; simpl; intros Hnd Hin.
  - apply list_elem_of_singleton in Hin as [= -> ->]. right. split; [done|].
    right. split; [|done]. apply not_elem_of_nil.
  - apply NoDup_cons in Hnd as [Hc0 Hnd].
    destruct (String.eqb c0 cat) eqn:Hc.
    + apply String.eqb_eq in Hc as ->.
      apply elem_of_cons in Hin as [[= -> ->]|Hin].
      * right. split; [done|]. left. exists n0. split; [by left|done].
      * left. split; [|by right]. intros ->. apply Hc0.
        apply list_elem_of_fmap. by exists (cat, n).
    + apply String.eqb_neq in Hc.
      apply elem_of_cons in Hin as [[= -> ->]|Hin].
      * left. split; [done|by left].
      * destruct (IH Hnd Hin) as [[Hne Hr]|[-> [(m & Hm & ->)|[Hnot ->]]]].
        -- left. split; [done|by right].
        -- right. split; [done|]. left. exists m. split; [by right|done].
        -- right. split; [done|]. right. split; [|done].
           intros [?|?]%elem_of_cons; done.
Qed.

Lemma filter_category_absent c processed :
  c ∉ map category processed ->
  List.filter (fun d => String.eqb (category d) c) processed = [].
Proof.
  induction processed as [|p ps IH]; simpl; [done|]. intros Hnot.
  destruct (String.eqb (category p) c) eqn:He.
  - exfalso. apply Hnot. apply String.eqb_eq in He. rewrite <- He. by left.
  - apply IH. intros Hin. apply Hnot. by right.
Qed.

Lemma category_counts_inv rest : forall processed categories,
  NoDup (map fst categories) ->
  (forall c, c ∈ map fst categories <-> c ∈ map category processed) ->
  (forall c n, (c, n) ∈ categories ->
     n = length (flat_map files
                   (List.filter (fun d => String.eqb (category d) c) processed))) ->
  let result :=
    fold_left (fun categories driver =>
                 count_files (category driver) (length (files driver)) categories)
              rest categories in
  NoDup (map fst result)
  /\ (forall c, c ∈ map fst result <-> c ∈ map category (processed ++ rest))
  /\ (forall c n, (c, n) ∈ result ->
        n = length (flat_map files
                      (List.filter (fun d => String.eqb (category d) c)
                         (processed ++ rest)))).
Proof.
  induction rest as [|d rest IH]; intros processed categories Hnd Hkeys Hcount; simpl.
  - rewrite app_nil_r. done.
  - replace (processed ++ d :: rest) with ((processed ++ [d]) ++ rest)
      by (by rewrite <- app_assoc).
    apply IH.
    + rewrite count_files_keys. destruct (decide _) as [Hin|Hin]; [done|].
      apply NoDup_app. split; [done|]. split; [|apply NoDup_singleton].
      intros x Hx Heq%list_elem_of_singleton. by subst x.
    + intros c. rewrite count_files_keys, map_app, elem_of_app. simpl.
      rewrite list_elem_of_singleton.
      destruct (decide _) as [Hin|Hin].
      * rewrite Hkeys. split; [by left|]. intros [?|Heq]; [done|]. subst c.
        by apply Hkeys.
      * rewrite elem_of_app, list_elem_of_singleton, Hkeys. done.
    + intros c n Hin. rewrite List.filter_app, flat_map_app, length_app. simpl.
      destruct (count_files_elem _ _ _ _ _ Hnd Hin)
        as [[Hne Hr]|[-> [(m & Hm & ->)|[Hnot ->]]]].
      * apply not_eq_sym in Hne. apply String.eqb_neq in Hne. rewrite Hne. simpl.
        rewrite <- (Hcount c n Hr). lia.
      * rewrite String.eqb_refl. simpl. rewrite app_nil_r, <- (Hcount _ m Hm). done.
      * rewrite String.eqb_refl. simpl. rewrite app_nil_r.
        rewrite filter_category_absent; [done|]. intros Hin'. apply Hnot. by apply Hkeys.
Qed.

(** X25: [list_categories] returns every category of the drivers
    once, and the number it prints for a category is the number of
    files of the drivers of that category. *)
Theorem categories_are_counted drivers :
  NoDup (list_categories drivers)
  /\ (forall c, c ∈ list_categories drivers <-> exists d, d ∈ drivers /\ category d = c)
  /\ (forall c n, (c, n) ∈ category_counts drivers ->
        n = length (flat_map files
                      (List.filter (fun d => String.eqb (category d) c) drivers))).
Proof.
  destruct (category_counts_inv drivers [] []) as (Hnd & Hkeys & Hcount).
  - constructor.
  - done.
  - intros c n Hin. by apply elem_of_nil in Hin.
  - split; [exact Hnd|]. split; [|exact Hcount].
    intros c. unfold list_categories, category_counts. rewrite Hkeys. simpl.
    rewrite list_elem_of_fmap. split; intros (d & ? & ?); by exists d.
Qed.

(** ** The serial number of the downloader *)

Section CaseMapping.
(** A change of case [f], character by character through [g], that
    makes no blank and removes none. *)
Variable g : ascii -> ascii.
Variable f : string -> string.
Hypothesis f_nil : f "" = "".
Hypothesis f_cons : forall c s, f (String c s) = String (g c) (f s).
Hypothesis g_space : forall c, is_space (g c) = is_space c.

Lemma lstrip_case s : lstrip (f s) = f (lstrip s).
Proof using f_nil f_cons g_space.
  induction s as [|c s IH]; [by rewrite f_nil|].
  rewrite f_cons. simpl. rewrite g_space.
  destruct (is_space c); [exact IH|by rewrite f_cons].
Qed.

Lemma rstrip_case s : rstrip (f s) = f (rstrip s).
Proof using f_nil f_cons g_space.
  induction s as [|c s IH]; [by rewrite f_nil|].
  rewrite f_cons. simpl. rewrite IH, g_space.
  destruct (rstrip s) as [|c' r].
  - rewrite f_nil. destruct (is_space c); [by rewrite f_nil|by rewrite f_cons, f_nil].
  - by rewrite !f_cons.
Qed.

Lemma strip_case s : strip (f s) = f (strip s).
Proof using f_nil f_cons g_space.
  unfold strip. by rewrite lstrip_case, rstrip_case.
Qed.
End CaseMapping.

Lemma upper_char_space c : is_space (upper_char c) = is_space c.
Proof. destruct c as [[] [] [] [] [] [] [] []]; reflexivity. Qed.

Lemma lower_char_space c : is_space (lower_char c) = is_space c.
Proof. destruct c as [[] [] [] [] [] [] [] []]; reflexivity. Qed.

Lemma upper_char_idempotent c : upper_char (upper_char c) = upper_char c.
Proof. destruct c as [[] [] [] [] [] [] [] []]; reflexivity. Qed.

Lemma upper_lower_char c : upper_char (lower_char c) = upper_char c.
Proof. destruct c as [[] [] [] [] [] [] [] []]; reflexivity. Qed.

Lemma upper_idempotent s : upper (upper s) = upper s.
Proof. induction s as [|c s IH]; simpl; [done|]. by rewrite upper_char_idempotent, IH. Qed.

Lemma upper_lower s : upper (lower s) = upper s.
Proof. induction s as [|c s IH]; simpl; [done|]. by rewrite upper_lower_char, IH. Qed.

Lemma strip_upper s : strip (upper s) = upper (strip s).
Proof. apply (strip_case upper_char upper); [done|done|apply upper_char_space]. Qed.

Lemma strip_lower s : strip (lower s) = lower (strip s).
Proof. apply (strip_case lower_char lower); [done|done|apply lower_char_space]. Qed.

Lemma lstrip_head s :
  lstrip s = "" \/ exists c t, lstrip s = String c t /\ is_space c = false.
Proof.
  induction s as [|c s IH]; simpl; [by left|].
  destruct (is_space c) eqn:Hc; [exact IH|]. right. by exists c, s.
Qed.

Lemma rstrip_cons c s :
  rstrip (String c s)
  = match rstrip s with
    | "" => if is_space c then "" else String c ""
    | String a r => String c (String a r)
    end.
Proof. reflexivity. Qed.

Lemma rstrip_idempotent s : rstrip (rstrip s) = rstrip s.
Proof.
  induction s as [|c s IH]; [done|]. rewrite rstrip_cons.
  destruct (rstrip s) as [|c' r] eqn:Hr.
  - destruct (is_space c) eqn:Hc; [done|]. by rewrite rstrip_cons, Hc.
  - by rewrite rstrip_cons, IH.
Qed.

Lemma rstrip_app_space s : rstrip (s ++ " ")%string = rstrip s.
Proof.
  induction s as [|c s IH]; [done|].
  change (String c s ++ " ")%string with (String c (s ++ " ")%string).
  by rewrite !rstrip_cons, IH.
Qed.

Lemma strip_app_space s : strip (" " ++ s ++ " ")%string = strip s.
Proof.
  unfold strip.
  change (lstrip (" " ++ s ++ " ")%string) with (lstrip (s ++ " ")%string).
  induction s as [|c s IH]; [done|].
  change (String c s ++ " ")%string with (String c (s ++ " ")%string). simpl.
  destruct (is_space c); [exact IH|].
  exact (rstrip_app_space (String c s)).
Qed.

Lemma strip_idempotent s : strip (strip s) = strip s.
Proof.
  unfold strip. destruct (lstrip_head s) as [->|(c & t & -> & Hc)]; [done|].
  assert (Hl : lstrip (rstrip (String c t)) = rstrip (String c t)).
  { rewrite rstrip_cons. destruct (rstrip t); rewrite ?Hc; simpl; by rewrite Hc. }
  by rewrite Hl, rstrip_idempotent.
Qed.

(** X26: for a serial number typed in ASCII characters, the serial
    number the downloader keeps does not depend on the case of the
    letters typed nor on blanks around them, and it is in normal form:
    building a downloader from it gives it back.  Without an output
    directory, or with an empty one, the directory is named after this
    serial number. *)
Theorem serial_number_is_normalised serial output workers :
  ascii_only serial = true ->
  let d := __init__ serial output workers in
  serial_number (__init__ (lower serial) output workers) = serial_number d
  /\ serial_number (__init__ (" " ++ serial ++ " ") output workers) = serial_number d
  /\ serial_number (__init__ (serial_number d) output workers) = serial_number d
  /\ (output = None \/ output = Some "" ->
      output_dir d = Path_of ("drivers_" ++ serial_number d)).
Proof.
  intros _. cbv zeta. unfold __init__. simpl. split; [|split; [|split]].
  - by rewrite strip_lower, upper_lower.
  - by rewrite strip_app_space.
  - by rewrite strip_upper, strip_idempotent, upper_idempotent.
  - intros [->| ->]; reflexivity.
Qed.

Lemma serial_number_is_normalised_witness :
  ascii_only " pf1234ab " = true
  /\ serial_number (__init__ " pf1234ab " None 4) = "PF1234AB"
  /\ output_dir (__init__ " pf1234ab " None 4) = ["drivers_PF1234AB"].
Proof.
  split; [reflexivity|]. split; [reflexivity|].
  rewrite (proj2 (proj2 (proj2
             (serial_number_is_normalised " pf1234ab " None 4 eq_refl))));
    [reflexivity|by left].
Defined.

(** ** Package numbers on the command line *)

Lemma py_nth_out_of_range {A} (l : list A) i :
  (Z.of_nat (length l) <= i \/ i < - Z.of_nat (length l))%Z -> py_nth l i = None.
Proof.
  intros H. unfold py_nth.
  destruct ((0 <=? i)%Z && (i <? Z.of_nat (length l))%Z) eqn:H1.
  { apply andb_true_iff in H1 as [?%Z.leb_le ?%Z.ltb_lt]. lia. }
  destruct ((- Z.of_nat (length l) <=? i)%Z && (i <? 0)%Z) eqn:H2; [|done].
  apply andb_true_iff in H2 as [?%Z.leb_le ?%Z.ltb_lt]. lia.
Qed.

Lemma py_nth_in_range {A} (l : list A) i :
  (0 <= i < Z.of_nat (length l))%Z -> py_nth l i = l !! Z.to_nat i.
Proof.
  intros H. unfold py_nth.
  assert (((0 <=? i)%Z && (i <? Z.of_nat (length l))%Z) = true) as ->; [|done].
  apply andb_true_iff. split; [apply Z.leb_le|apply Z.ltb_lt]; lia.
Qed.

(** X27: with [--sccm-packages], a number above the number of packages,
    or at most its negation, ends the run with an [IndexError] before
    anything is created, requested or run; when every number is between
    1 and the number of packages, the packages selected are those with
    these numbers, in the order given and as often as given. *)
Theorem command_line_numbers_select E output_dir sccm_packages extract numbers keys w :
  sccm_packages <> [] -> numbers <> [] ->
  let n := Z.of_nat (length sccm_packages) in
  (Exists (fun k => (n < k \/ k <= - n)%Z) numbers ->
   download_sccm_packages E output_dir sccm_packages extract
     (main_selected_indices (Some numbers)) keys w = (w, SccmRaised))
  /\ (Forall (fun k => (1 <= k <= n)%Z) numbers ->
      exists selected_packages,
        mapM (py_nth sccm_packages) (map (fun idx => idx - 1)%Z numbers)
        = Some selected_packages
        /\ Forall2 (fun k pkg => sccm_packages !! Z.to_nat (k - 1) = Some pkg)
             numbers selected_packages).
Proof.
  intros Hp Hn n. split.
  - intros Hex. unfold download_sccm_packages, main_selected_indices.
    destruct sccm_packages as [|p ps]; [done|]. destruct numbers as [|k l]; [done|].
    set (pkgs := p :: ps) in *.
    assert (mapM (py_nth pkgs) (map (fun idx => idx - 1)%Z (k :: l)) = None) as ->; [|done].
    apply mapM_None. apply Exists_exists in Hex as (k' & Hin & Hk').
    apply Exists_exists. exists (k' - 1)%Z. split.
    + apply list_elem_of_In. apply (in_map (fun idx => idx - 1)%Z).
      by apply list_elem_of_In.
    + apply py_nth_out_of_range. subst n. lia.
  - intros Hall.
    assert (H : Forall (fun k => is_Some (sccm_packages !! Z.to_nat (k - 1))) numbers).
    { eapply Forall_impl; [exact Hall|]. intros k Hk. simpl in Hk.
      apply lookup_lt_is_Some. subst n. lia. }
    clear Hn. induction numbers as [|k l IH]; [by exists []|].
    apply Forall_cons in Hall as [Hk Hall]. apply Forall_cons in H as [[pkg Hpkg] H].
    destruct (IH Hall H) as (sel & Hsel & Hf2).
    exists (pkg :: sel). split; [|by constructor].
    simpl. rewrite py_nth_in_range by (subst n; lia). rewrite Hpkg. simpl.
    simpl in Hsel. by rewrite Hsel.
Qed.

Lemma command_line_numbers_select_witness :
  download_sccm_packages offline ["out"] five_packages true
    (main_selected_indices (Some [2; 6]%Z)) [] empty_world = (empty_world, SccmRaised).
Proof.
  apply (command_line_numbers_select offline ["out"] five_packages true [2; 6]%Z []
           empty_world); [discriminate|discriminate|].
  right. left. simpl. lia.
Defined.
